(** * File index service: index store, query engine, scanner and watcher

    A shallow embedding of the Python sources

      - [backend/app/services/index_service.py]  (class [IndexService])
      - [backend/app/services/scanner.py]        (class [ParallelScanner])
      - [backend/app/services/watcher.py]        (class [IndexEventHandler])
      - [backend/app/config.py]                  ([ignore_patterns_list])
      - [backend/app/routers/admin.py]           (the endpoints and their tasks)
      - [backend/app/routers/search.py]          (the search endpoint)

    The SQLite database is an explicit value: every table is the list of
    its rows in rowid order, every SQL statement of the source is a function
    on that value, and the triggers declared by [init_db] run inside the
    statements that fire them.  Text is [string]; one [ascii] stands for one
    character, which is exact for ASCII file names. *)

From Stdlib Require Import List String Ascii ZArith Lia Bool Permutation Sorted.
Import ListNotations.

Set Implicit Arguments.

Local Open Scope string_scope.
Local Open Scope list_scope.
Local Open Scope Z_scope.

(* ================================================================== *)
(** * Text: the [str] operations the sources rely on *)
(* ================================================================== *)

Module Text.

(** ASCII lower-casing: the folding applied by SQLite's [LIKE] and by
    the FTS5 trigram tokenizer (default [case_sensitive 0]). *)
Definition lower (c : ascii) : ascii :=
  let n := nat_of_ascii c in
  if (Nat.leb 65 n && Nat.leb n 90)%bool then ascii_of_nat (n + 32) else c.

Fixpoint fold_case (s : string) : string :=
  match s with
  | EmptyString => EmptyString
  | String c s' => String (lower c) (fold_case s')
  end.

(** [s.startswith(p)] *)
Fixpoint starts_with (p s : string) : bool :=
  match p, s with
  | EmptyString, _ => true
  | String a p', String b s' => Ascii.eqb a b && starts_with p' s'
  | String _ _, EmptyString => false
  end.

(** [q in s]: [q] occurs in [s] as a contiguous substring. *)
Fixpoint contains (q s : string) : bool :=
  starts_with q s ||
  match s with
  | EmptyString => false
  | String _ s' => contains q s'
  end.

(** Substring test up to ASCII letter case. *)
Definition contains_nocase (q s : string) : bool :=
  contains (fold_case q) (fold_case s).

(** [c in s] for one character. *)
Fixpoint has_char (c : ascii) (s : string) : bool :=
  match s with
  | EmptyString => false
  | String d s' => Ascii.eqb c d || has_char c s'
  end.

(** The first [n] characters of [s], when [s] has that many. *)
Fixpoint take (n : nat) (s : string) : option string :=
  match n with
  | O => Some EmptyString
  | S n' =>
      match s with
      | EmptyString => None
      | String c s' =>
          match take n' s' with
          | Some w => Some (String c w)
          | None => None
          end
      end
  end.

(** All contiguous windows of [n] characters, left to right:
    [[s[i:i+n] for i in range(len(s) - n + 1)]]. *)
Fixpoint windows (n : nat) (s : string) : list string :=
  match take n s with
  | None => []
  | Some w =>
      w :: match s with
           | EmptyString => []
           | String _ s' => windows n s'
           end
  end.

(** [sep.join(parts)] *)
Fixpoint join (sep : string) (parts : list string) : string :=
  match parts with
  | [] => EmptyString
  | [x] => x
  | x :: rest => (x ++ sep ++ join sep rest)%string
  end.

(** [s.split(sep)] for a one-character separator. *)
Fixpoint split_go (sep : ascii) (cur : string) (s : string) : list string :=
  match s with
  | EmptyString => [cur]
  | String c s' =>
      if Ascii.eqb c sep then cur :: split_go sep EmptyString s'
      else split_go sep (cur ++ String c EmptyString)%string s'
  end.

Definition split (sep : ascii) (s : string) : list string :=
  split_go sep EmptyString s.

(** [list(set(l))]: the distinct elements.  CPython leaves their order
    unspecified; [nodup] keeps one occurrence of each. *)
Definition unique (l : list string) : list string := nodup string_dec l.

(** The double quote character, code 34. *)
Definition dquote : ascii := ascii_of_nat 34.

(** [s[:n]] for a bound that is not negative. *)
Fixpoint first (n : nat) (s : string) : string :=
  match n, s with
  | S n', String c s' => String c (first n' s')
  | _, _ => EmptyString
  end.

(** White space, as [str.isspace] has it for the characters up to 255:
    tab to carriage return, the four separators 28 to 31, the space, the
    next-line character 133 and the no-break space 160. *)
Definition is_space (c : ascii) : bool :=
  let n := nat_of_ascii c in
  (Nat.leb 9 n && Nat.leb n 13) || (Nat.leb 28 n && Nat.leb n 32)
  || Nat.eqb n 133 || Nat.eqb n 160.

Fixpoint lstrip (s : string) : string :=
  match s with
  | EmptyString => EmptyString
  | String c s' => if is_space c then lstrip s' else s
  end.

(** [s.rstrip()]: a character is dropped when all that follows it is
    dropped and it is white space itself. *)
Fixpoint rstrip (s : string) : string :=
  match s with
  | EmptyString => EmptyString
  | String c s' =>
      match rstrip s' with
      | EmptyString => if is_space c then EmptyString else String c EmptyString
      | t => String c t
      end
  end.

(** [s.strip()] *)
Definition strip (s : string) : string := rstrip (lstrip s).

(** ASCII text: every character has a code from 1 to 127.  On such text
    one [ascii] is one character of the Python string and one byte of the
    text SQLite holds, and the case folding of [lower] is the only one
    there is. *)
Fixpoint is_ascii (s : string) : bool :=
  match s with
  | EmptyString => true
  | String c s' =>
      Nat.leb 1 (nat_of_ascii c) && Nat.leb (nat_of_ascii c) 127 && is_ascii s'
  end.

End Text.

(* ================================================================== *)
(** * The SQLite operators used by the statements of the source *)
(* ================================================================== *)

Module Sqlite.

(** [text LIKE pattern] with SQLite's defaults: [%] matches any run of
    characters, [_] any one character, every other character matches
    itself up to ASCII letter case; there is no escape character, since
    no statement of the source has an [ESCAPE] clause. *)
Fixpoint like (pattern : string) : string -> bool :=
  match pattern with
  | EmptyString =>
      fun text => match text with EmptyString => true | _ => false end
  | String c pattern' =>
      if Ascii.eqb c "%" then
        fix any (text : string) : bool :=
          like pattern' text ||
          match text with
          | EmptyString => false
          | String _ text' => any text'
          end
      else
        fun text =>
          match text with
          | EmptyString => false
          | String d text' =>
              (Ascii.eqb c "_" || Ascii.eqb (Text.lower c) (Text.lower d))
              && like pattern' text'
          end
  end.

(** The FTS5 expressions the model covers: one string token, that is a
    double quote, the phrase with every double quote doubled, and a
    closing double quote.  [parse_phrase] returns the phrase, and [None]
    for any other expression: sqlite3 raises [OperationalError] on an
    unterminated string, and bare words and operators between strings are
    outside this model. *)
Fixpoint phrase_body (s : string) : option string :=
  match s with
  | EmptyString => None
  | String c s' =>
      if Ascii.eqb c Text.dquote then
        match s' with
        | EmptyString => Some EmptyString
        | String d s'' =>
            if Ascii.eqb d Text.dquote then
              match phrase_body s'' with
              | Some p => Some (String Text.dquote p)
              | None => None
              end
            else None
        end
      else
        match phrase_body s' with
        | Some p => Some (String c p)
        | None => None
        end
  end.

Definition parse_phrase (expr : string) : option string :=
  match expr with
  | String c s' => if Ascii.eqb c Text.dquote then phrase_body s' else None
  | EmptyString => None
  end.

(** A phrase against a document of a table declared with
    [tokenize='trigram']: the tokens are the 3-character windows of the
    case-folded text, a phrase matches where its tokens occur at
    consecutive positions, and a phrase shorter than one trigram has no
    token and matches no row. *)
Definition trigram_tokens (text : string) : list string :=
  Text.windows 3 (Text.fold_case text).

Definition phrase_match (phrase document : string) : bool :=
  Nat.leb 3 (String.length phrase) && Text.contains_nocase phrase document.

Section Rows.
Variable A : Type.

(** [ORDER BY]: the rows sorted by [leb].  SQL leaves the order of
    rows with equal keys open; the model keeps them in the order they
    came in. *)
Fixpoint insert_row (leb : A -> A -> bool) (x : A) (l : list A) : list A :=
  match l with
  | [] => [x]
  | y :: l' => if leb x y then x :: l else y :: insert_row leb x l'
  end.

Fixpoint order_by (leb : A -> A -> bool) (l : list A) : list A :=
  match l with
  | [] => []
  | x :: l' => insert_row leb x (order_by leb l')
  end.

(** [LIMIT n]: a negative bound means no bound. *)
Definition limit (n : Z) (l : list A) : list A :=
  if n <? 0 then l else firstn (Z.to_nat n) l.
End Rows.

End Sqlite.

(* ================================================================== *)
(** * pathlib: pure POSIX paths *)
(* ================================================================== *)

Module PurePath.

(** A parsed path: the root (empty, one slash or two slashes) and the
    components after it. *)
Record t := mk { root : string; tail : list string }.

Definition keep_component (c : string) : bool :=
  negb (String.eqb c "") && negb (String.eqb c ".").

(** [Path(s)]: runs of slashes collapse, single-dot and empty components
    are dropped, and exactly two leading slashes are kept as a root of
    their own. *)
Definition parse (s : string) : t :=
  {| root :=
       if Text.starts_with "//" s && negb (Text.starts_with "///" s) then "//"
       else if Text.starts_with "/" s then "/"
       else "";
     tail := filter keep_component (Text.split "/" s) |}.

(** [path.parts] *)
Definition parts (p : t) : list string :=
  if String.eqb (root p) "" then tail p else root p :: tail p.

(** [str(path)] *)
Definition to_str (p : t) : string :=
  match root p, tail p with
  | EmptyString, [] => "."
  | r, comps => (r ++ Text.join "/" comps)%string
  end.

(** [path.name]: the last component, empty for a bare root. *)
Definition name (p : t) : string := last (tail p) "".

Fixpoint strip_prefix (pre l : list string) : option (list string) :=
  match pre, l with
  | [], _ => Some l
  | x :: pre', y :: l' => if String.eqb x y then strip_prefix pre' l' else None
  | _ :: _, [] => None
  end.

(** [path.relative_to(other)]: the components of [path] after those of
    [other]; [None] stands for the [ValueError] raised when [other] is
    not a leading part of [path]. *)
Definition relative_to (p other : t) : option (list string) :=
  if String.eqb (root p) (root other) then strip_prefix (tail other) (tail p)
  else None.

(** [path.parent]: the path without its last component; a path without
    components is its own parent. *)
Definition parent (p : t) : t :=
  {| root := root p; tail := removelast (tail p) |}.

(** [path / name] for a name that is one component. *)
Definition child (p : t) (name : string) : t :=
  {| root := root p; tail := tail p ++ [name] |}.

(** The part of [s] from its last dot on, when [s] has a dot. *)
Fixpoint from_last_dot (s : string) : option string :=
  match s with
  | EmptyString => None
  | String c s' =>
      match from_last_dot s' with
      | Some t => Some t
      | None => if Ascii.eqb c "." then Some s else None
      end
  end.

(** [path.suffix]: the name from its last dot on, when that dot is neither
    the first nor the last character of the name. *)
Definition suffix (p : t) : string :=
  match name p with
  | EmptyString => ""
  | String _ rest =>
      match from_last_dot rest with
      | Some t => if Nat.leb 2 (String.length t) then t else ""
      | None => ""
      end
  end.

End PurePath.

(* ================================================================== *)
(** * fnmatch: shell-style patterns *)
(* ================================================================== *)

Module Fnmatch.

Inductive item : Type :=
| One (c : ascii)
| Range (lo hi : ascii).

Inductive glob : Type :=
| Star
| AnyChar
| Class (negated : bool) (items : list item)
| Lit (c : ascii).

(** The members of a bracket expression: [x-y] is a range when the
    hyphen stands between two characters, any other character is itself. *)
Fixpoint items_of (fuel : nat) (s : string) : list item :=
  match fuel with
  | O => []
  | S fuel' =>
      match s with
      | EmptyString => []
      | String c (String h (String d rest)) =>
          if Ascii.eqb h "-" then Range c d :: items_of fuel' rest
          else One c :: items_of fuel' (String h (String d rest))
      | String c rest => One c :: items_of fuel' rest
      end
  end.

(** Splits [s] at its first closing bracket. *)
Fixpoint until_close (s : string) : option (string * string) :=
  match s with
  | EmptyString => None
  | String c s' =>
      if Ascii.eqb c "]" then Some (EmptyString, s')
      else match until_close s' with
           | Some (body, rest) => Some (String c body, rest)
           | None => None
           end
  end.

(** The text after an opening bracket: an optional [!], then the members
    up to the closing bracket, where a closing bracket in first position
    is a member.  [None] when the bracket is never closed. *)
Definition bracket (s : string) : option (bool * string * string) :=
  let '(neg, s1) :=
    match s with
    | String c s' => if Ascii.eqb c "!" then (true, s') else (false, s)
    | EmptyString => (false, s)
    end in
  match s1 with
  | String c s2 =>
      if Ascii.eqb c "]" then
        match until_close s2 with
        | Some (body, rest) => Some (neg, String c body, rest)
        | None => None
        end
      else
        match until_close s1 with
        | Some (body, rest) => Some (neg, body, rest)
        | None => None
        end
  | EmptyString => None
  end.

(** [fnmatch.translate]: the pattern as a list of matchers.  An opening
    bracket that is never closed stands for itself. *)
Fixpoint translate_go (fuel : nat) (pat : string) : list glob :=
  match fuel with
  | O => []
  | S fuel' =>
      match pat with
      | EmptyString => []
      | String c pat' =>
          if Ascii.eqb c "*" then Star :: translate_go fuel' pat'
          else if Ascii.eqb c "?" then AnyChar :: translate_go fuel' pat'
          else if Ascii.eqb c "[" then
            match bracket pat' with
            | Some (neg, body, rest) =>
                Class neg (items_of (String.length body) body)
                :: translate_go fuel' rest
            | None => Lit c :: translate_go fuel' pat'
            end
          else Lit c :: translate_go fuel' pat'
      end
  end.

Definition translate (pat : string) : list glob :=
  translate_go (String.length pat) pat.

Definition in_item (c : ascii) (i : item) : bool :=
  match i with
  | One d => Ascii.eqb c d
  | Range lo hi =>
      Nat.leb (nat_of_ascii lo) (nat_of_ascii c)
      && Nat.leb (nat_of_ascii c) (nat_of_ascii hi)
  end.

Definition matches_one (g : glob) (c : ascii) : bool :=
  match g with
  | Star => true
  | AnyChar => true
  | Class neg items => xorb neg (existsb (in_item c) items)
  | Lit d => Ascii.eqb c d
  end.

(** The whole of [s] against the matchers. *)
Fixpoint matches (gs : list glob) : string -> bool :=
  match gs with
  | [] => fun s => match s with EmptyString => true | _ => false end
  | Star :: gs' =>
      fix any (s : string) : bool :=
        matches gs' s ||
        match s with
        | EmptyString => false
        | String _ s' => any s'
        end
  | g :: gs' =>
      fun s =>
        match s with
        | EmptyString => false
        | String c s' => matches_one g c && matches gs' s'
        end
  end.

(** [fnmatch.fnmatch(name, pat)] on POSIX, where [os.path.normcase] is
    the identity. *)
Definition fnmatch (name pat : string) : bool := matches (translate pat) name.

End Fnmatch.

(* ================================================================== *)
(** * index_service.py: the store *)
(* ================================================================== *)

Module IndexService.

(** ** Tables *)

(** A row of [file_metadata].  [mtime] and [indexed_at] are [REAL]
    columns that the service only stores and compares; they are kept as
    integer clock readings. *)
Record FileRow := mkFileRow {
  id : Z;
  path : string;
  name : string;
  parent_path : string;
  file_type : string;
  extension : option string;
  size : Z;
  mtime : Z;
  indexed_at : Z
}.

(** The values bound by [add_file] and [batch_add_files]: the fields of
    the scanner's [FileInfo]. *)
Record FileInfo := mkFileInfo {
  fi_path : string;
  fi_name : string;
  fi_parent_path : string;
  fi_file_type : string;
  fi_extension : option string;
  fi_size : Z;
  fi_mtime : Z
}.

(** A row of [watch_paths]. *)
Record WatchRow := mkWatchRow {
  w_id : Z;
  w_path : string;
  w_enabled : Z;
  w_total_files : Z;
  w_indexed_files : Z;
  w_status : string;
  w_last_full_scan : option Z;
  w_last_updated : option Z;
  w_error_message : option string
}.

(** The database.  [file_name_index] is the FTS5 trigram table, as the
    documents (rowid, name) its index was fed; it is [None] when the
    engine has no trigram tokenizer, in which case [init_db] creates
    neither the table nor its three triggers.  [file_name_bigrams] holds
    the rows (file_id, bigram).  The legacy FTS5 table [file_index] is
    written by triggers and never read, and is left out; so is the [id]
    column of [ignore_patterns]. *)
Record Db := mkDb {
  file_metadata : list FileRow;
  file_name_index : option (list (Z * string));
  file_name_bigrams : list (Z * string);
  watch_paths : list WatchRow;
  ignore_patterns : list string
}.

(** An [IndexService] object: the database it is connected to and the
    cached answer of [_has_trigram_index]. *)
Record Service := mkService {
  db : Db;
  _trigram_available : option bool
}.

Definition with_db (s : Service) (d : Db) : Service :=
  {| db := d; _trigram_available := _trigram_available s |}.

(** ** Engine behaviour shared by the statements *)

(** The rowid given to a row inserted without an id: one more than the
    largest in the table. *)
Definition next_rowid (ids : list Z) : Z := fold_right Z.max 0 ids + 1.

Definition doc_of (r : FileRow) : Z * string := (id r, name r).

Definition doc_eqb (a b : Z * string) : bool :=
  Z.eqb (fst a) (fst b) && String.eqb (snd a) (snd b).

(** [INSERT INTO file_name_index(rowid, name)] *)
Definition fts_insert (doc : Z * string) (docs : list (Z * string)) :=
  docs ++ [doc].

(** [INSERT INTO file_name_index(file_name_index, rowid, name)
     VALUES ('delete', ...)] *)
Definition fts_delete (doc : Z * string) (docs : list (Z * string)) :=
  filter (fun d => negb (doc_eqb d doc)) docs.

(** Trigger [file_metadata_ai_trigram]. *)
Definition after_insert (new : FileRow) (index : option (list (Z * string))) :=
  option_map (fts_insert (doc_of new)) index.

(** Trigger [file_metadata_ad_trigram]. *)
Definition after_delete (old : FileRow) (index : option (list (Z * string))) :=
  option_map (fts_delete (doc_of old)) index.

(** Trigger [file_metadata_au_trigram]. *)
Definition after_update (old new : FileRow) (index : option (list (Z * string))) :=
  option_map (fun docs => fts_insert (doc_of new) (fts_delete (doc_of old) docs)) index.

(** [INSERT OR REPLACE INTO file_metadata (path, name, ...)]: the rows
    that hold the new path are removed to satisfy [path TEXT UNIQUE], the
    new row takes a fresh rowid and the insert trigger runs.  The rows
    removed by conflict resolution fire no delete trigger (SQLite does so
    only under [PRAGMA recursive_triggers], which the service never
    sets). *)
Definition insert_or_replace (f : FileInfo) (now : Z) (d : Db) : Db :=
  let new :=
    {| id := next_rowid (map id (file_metadata d));
       path := fi_path f; name := fi_name f; parent_path := fi_parent_path f;
       file_type := fi_file_type f; extension := fi_extension f;
       size := fi_size f; mtime := fi_mtime f; indexed_at := now |} in
  {| file_metadata :=
       filter (fun r => negb (String.eqb (path r) (fi_path f))) (file_metadata d)
       ++ [new];
     file_name_index := after_insert new (file_name_index d);
     file_name_bigrams := file_name_bigrams d;
     watch_paths := watch_paths d;
     ignore_patterns := ignore_patterns d |}.

(** [DELETE FROM file_metadata WHERE ...]: the delete trigger runs for
    each removed row.  The bigram rows stay: their [ON DELETE CASCADE]
    clause takes effect only under [PRAGMA foreign_keys = ON], which the
    service never sets. *)
Definition delete_where (cond : FileRow -> bool) (d : Db) : Db :=
  {| file_metadata := filter (fun r => negb (cond r)) (file_metadata d);
     file_name_index :=
       fold_left (fun index old => after_delete old index)
                 (filter cond (file_metadata d)) (file_name_index d);
     file_name_bigrams := file_name_bigrams d;
     watch_paths := watch_paths d;
     ignore_patterns := ignore_patterns d |}.

(** ** Entries *)

Definition add_file (f : FileInfo) (now : Z) (s : Service) : Service :=
  with_db s (insert_or_replace f now (db s)).

Definition get_file (s : Service) (p : string) : option FileRow :=
  find (fun r => String.eqb (path r) p) (file_metadata (db s)).

(** The keyword arguments of [update_file], for the columns other than
    the keys [id] and [path]. *)
Inductive assignment : Type :=
| SetName (v : string)
| SetParentPath (v : string)
| SetType (v : string)
| SetExtension (v : option string)
| SetSize (v : Z)
| SetMtime (v : Z)
| SetIndexedAt (v : Z).

Definition assign (r : FileRow) (a : assignment) : FileRow :=
  match a with
  | SetName v => mkFileRow (id r) (path r) v (parent_path r) (file_type r)
                           (extension r) (size r) (mtime r) (indexed_at r)
  | SetParentPath v => mkFileRow (id r) (path r) (name r) v (file_type r)
                           (extension r) (size r) (mtime r) (indexed_at r)
  | SetType v => mkFileRow (id r) (path r) (name r) (parent_path r) v
                           (extension r) (size r) (mtime r) (indexed_at r)
  | SetExtension v => mkFileRow (id r) (path r) (name r) (parent_path r)
                           (file_type r) v (size r) (mtime r) (indexed_at r)
  | SetSize v => mkFileRow (id r) (path r) (name r) (parent_path r)
                           (file_type r) (extension r) v (mtime r) (indexed_at r)
  | SetMtime v => mkFileRow (id r) (path r) (name r) (parent_path r)
                           (file_type r) (extension r) (size r) v (indexed_at r)
  | SetIndexedAt v => mkFileRow (id r) (path r) (name r) (parent_path r)
                           (file_type r) (extension r) (size r) (mtime r) v
  end.

(** [UPDATE file_metadata SET ... WHERE path = ?]: the rows are changed
    in place and the update trigger runs for each of them. *)
Fixpoint update_rows (p : string) (kwargs : list assignment)
         (rows : list FileRow) (index : option (list (Z * string)))
  : list FileRow * option (list (Z * string)) :=
  match rows with
  | [] => ([], index)
  | r :: rest =>
      if String.eqb (path r) p then
        let r' := fold_left assign kwargs r in
        let '(rest', index') := update_rows p kwargs rest (after_update r r' index) in
        (r' :: rest', index')
      else
        let '(rest', index') := update_rows p kwargs rest index in
        (r :: rest', index')
  end.

Definition update_file (p : string) (kwargs : list assignment) (s : Service)
  : Service :=
  match kwargs with
  | [] => s
  | _ =>
      let '(rows, index) :=
        update_rows p kwargs (file_metadata (db s)) (file_name_index (db s)) in
      with_db s {| file_metadata := rows;
                   file_name_index := index;
                   file_name_bigrams := file_name_bigrams (db s);
                   watch_paths := watch_paths (db s);
                   ignore_patterns := ignore_patterns (db s) |}
  end.

Definition remove_file (p : string) (s : Service) : Service :=
  with_db s (delete_where (fun r => String.eqb (path r) p) (db s)).

(** [executemany] runs the statement once per record, in order, with
    the one [indexed_at] read before the loop. *)
Definition batch_add_files (files : list FileInfo) (now : Z) (s : Service)
  : Service :=
  match files with
  | [] => s
  | _ => with_db s (fold_left (fun d f => insert_or_replace f now d) files (db s))
  end.

Definition get_file_count (s : Service) : nat :=
  List.length (file_metadata (db s)).

(** ** Bigram index *)

Definition _extract_bigrams (name : string) : list string :=
  if Nat.ltb (String.length name) 2 then [] else Text.windows 2 name.

Definition bigram_rows_of (r : FileRow) : list (Z * string) :=
  map (fun bg => (id r, bg)) (Text.unique (_extract_bigrams (name r))).

Definition rebuild_bigram_index (s : Service) : Service :=
  with_db s {| file_metadata := file_metadata (db s);
               file_name_index := file_name_index (db s);
               file_name_bigrams := flat_map bigram_rows_of (file_metadata (db s));
               watch_paths := watch_paths (db s);
               ignore_patterns := ignore_patterns (db s) |}.

(** ** Trigram index *)

(** The cached probe of [sqlite_master] for the table [file_name_index]. *)
Definition _has_trigram_index (s : Service) : bool * Service :=
  match _trigram_available s with
  | Some b => (b, s)
  | None =>
      let b := match file_name_index (db s) with Some _ => true | None => false end in
      (b, {| db := db s; _trigram_available := Some b |})
  end.

(** [DELETE FROM file_name_index] on a table declared with
    [content='file_metadata']: the rows visited are those of the content
    table, and each one removes its own document from the index. *)
Definition fts_delete_all (rows : list FileRow) (docs : list (Z * string)) :=
  fold_left (fun ds r => fts_delete (doc_of r) ds) rows docs.

Definition rebuild_trigram_index (s : Service) : Service :=
  let '(available, s1) := _has_trigram_index s in
  if negb available then s1
  else
    match file_name_index (db s1) with
    | None => s1
    | Some docs =>
        let rows := file_metadata (db s1) in
        with_db s1 {| file_metadata := rows;
                      file_name_index :=
                        Some (fts_delete_all rows docs ++ map doc_of rows);
                      file_name_bigrams := file_name_bigrams (db s1);
                      watch_paths := watch_paths (db s1);
                      ignore_patterns := ignore_patterns (db s1) |}
    end.

(** ** Search *)

(** The four [SELECT] statements [search] chooses from. *)
Inductive Lookup : Type :=
| FullScan
    (* SELECT * FROM file_metadata WHERE 1=1 *)
| NameLike (pattern : string)
    (* SELECT * FROM file_metadata WHERE name LIKE ? *)
| BigramJoin (bigram : string)
    (* SELECT DISTINCT m.* FROM file_metadata m
       JOIN file_name_bigrams b ON m.id = b.file_id WHERE b.bigram = ? *)
| TrigramMatch (expr : string).
    (* SELECT m.* FROM file_metadata m
       JOIN file_name_index fi ON m.id = fi.rowid
       WHERE file_name_index MATCH ? *)

(** The statement [search] assembles: the lookup, the two optional
    [AND] conditions, [ORDER BY] and [LIMIT]. *)
Record Statement := mkStatement {
  lookup : Lookup;
  path_like : option string;
  type_eq : option string;
  order_column : string;
  order_ascending : bool;
  limit_count : Z
}.

Definition FileRow_eq_dec (a b : FileRow) : {a = b} + {a <> b}.
Proof.
  decide equality;
    try apply Z.eq_dec; try apply string_dec;
    decide equality; apply string_dec.
Defined.

(** The lookup against the tables; [None] stands for the
    [sqlite3.OperationalError] of a [MATCH] on a missing table or on an
    expression [Sqlite.parse_phrase] does not read. *)
Definition run_lookup (d : Db) (lk : Lookup) : option (list FileRow) :=
  match lk with
  | FullScan => Some (file_metadata d)
  | NameLike pattern =>
      Some (filter (fun r => Sqlite.like pattern (name r)) (file_metadata d))
  | BigramJoin bigram =>
      Some (nodup FileRow_eq_dec
              (flat_map
                 (fun m =>
                    flat_map
                      (fun b => if Z.eqb (id m) (fst b) && String.eqb (snd b) bigram
                                then [m] else [])
                      (file_name_bigrams d))
                 (file_metadata d)))
  | TrigramMatch expr =>
      match file_name_index d, Sqlite.parse_phrase expr with
      | Some docs, Some phrase =>
          Some (flat_map
                  (fun m =>
                     flat_map
                       (fun fi => if Z.eqb (id m) (fst fi)
                                     && Sqlite.phrase_match phrase (snd fi)
                                  then [m] else [])
                       docs)
                  (file_metadata d))
      | _, _ => None
      end
  end.

Definition sql_where (st : Statement) (r : FileRow) : bool :=
  match path_like st with
  | Some pattern => Sqlite.like pattern (path r)
  | None => true
  end
  &&
  match type_eq st with
  | Some t => String.eqb (file_type r) t
  | None => true
  end.

(** The ascending order of a column of [file_metadata]; text compares
    by character code (the default [BINARY] collation). *)
Definition column_leb (column : string) : option (FileRow -> FileRow -> bool) :=
  if String.eqb column "name" then Some (fun a b => String.leb (name a) (name b))
  else if String.eqb column "path" then Some (fun a b => String.leb (path a) (path b))
  else if String.eqb column "size" then Some (fun a b => Z.leb (size a) (size b))
  else if String.eqb column "mtime" then Some (fun a b => Z.leb (mtime a) (mtime b))
  else None.

Definition direction (ascending : bool) (leb : FileRow -> FileRow -> bool)
  : FileRow -> FileRow -> bool :=
  if ascending then leb else fun a b => leb b a.

(** The rows the statement selects, before [LIMIT]. *)
Definition select_rows (d : Db) (st : Statement) : option (list FileRow) :=
  match run_lookup d (lookup st), column_leb (order_column st) with
  | Some rows, Some leb =>
      Some (Sqlite.order_by (direction (order_ascending st) leb)
                            (filter (sql_where st) rows))
  | _, _ => None
  end.

(** [cursor.execute(sql, params); rows = cursor.fetchall()] *)
Definition execute (d : Db) (st : Statement) : option (list FileRow) :=
  option_map (Sqlite.limit (limit_count st)) (select_rows d st).

(** Python truth of an [Optional[str]]. *)
Definition truthy (o : option string) : bool :=
  match o with
  | Some (String _ _) => true
  | _ => false
  end.

Definition text_of (o : option string) : string :=
  match o with Some s => s | None => "" end.

(** The branch on the query, for a query that is not empty. *)
Definition choose_lookup (has_trigram : bool) (query : string) : Lookup :=
  let query_len := String.length query in
  if has_trigram && Nat.leb 3 query_len then
    TrigramMatch (String Text.dquote (query ++ String Text.dquote ""))
  else if Nat.eqb query_len 2 then BigramJoin query
  else NameLike ("%" ++ query ++ "%").

Definition sort_column (sort : string) : string :=
  if existsb (String.eqb sort) ["name"; "path"; "size"; "mtime"] then sort
  else "name".

(** The depth test of the result loop: [true] when the row is passed
    over, either because it lies deeper than [depth] below the base or
    because [relative_to] raises. *)
Definition depth_rejects (base : option PurePath.t) (depth : Z) (row : FileRow)
  : bool :=
  match base with
  | None => false
  | Some b =>
      match PurePath.relative_to (PurePath.parse (path row)) b with
      | Some rel => Z.of_nat (List.length rel) >? depth
      | None => true
      end
  end.

Definition passes_depth (base : option PurePath.t) (depth : Z) (row : FileRow)
  : bool :=
  negb (depth_rejects base depth row).

(** The loop over the fetched rows, with its two counters. *)
Fixpoint collect (max_results offset : Z) (base : option PurePath.t) (depth : Z)
         (rows : list FileRow) (results : list FileRow) (skipped : Z)
  : list FileRow :=
  match rows with
  | [] => results
  | row :: rest =>
      if Z.of_nat (List.length results) >=? max_results then results
      else if depth_rejects base depth row then
        collect max_results offset base depth rest results skipped
      else if skipped <? offset then
        collect max_results offset base depth rest results (skipped + 1)
      else
        collect max_results offset base depth rest (results ++ [row]) skipped
  end.

Definition build_statement (lk : Lookup) (path_filter type_filter : option string)
           (max_results depth offset : Z) (sort : string) (ascending : bool)
  : Statement :=
  {| lookup := lk;
     path_like :=
       if truthy path_filter then Some (text_of path_filter ++ "%")%string else None;
     type_eq :=
       if truthy type_filter && negb (String.eqb (text_of type_filter) "all")
       then type_filter else None;
     order_column := sort_column sort;
     order_ascending := ascending;
     limit_count :=
       if (depth >? 0) && truthy path_filter then 100000
       else max_results + offset |}.

(** The branch on the query: an empty query reads the whole table and
    does not consult [_has_trigram_index]. *)
Definition search_lookup (s : Service) (query : string) : Lookup * Service :=
  match query with
  | EmptyString => (FullScan, s)
  | _ => let '(available, s1) := _has_trigram_index s in
         (choose_lookup available query, s1)
  end.

(** [base_path_obj] *)
Definition depth_base (path_filter : option string) (depth : Z)
  : option PurePath.t :=
  if truthy path_filter && (depth >? 0)
  then Some (PurePath.parse (text_of path_filter)) else None.

Definition search (s : Service) (query : string)
           (path_filter type_filter : option string)
           (max_results depth offset : Z) (sort : string) (ascending : bool)
  : option (list FileRow) * Service :=
  let '(lk, s1) := search_lookup s query in
  let st := build_statement lk path_filter type_filter
                            max_results depth offset sort ascending in
  (option_map
     (fun rows =>
        collect max_results offset (depth_base path_filter depth) depth rows [] 0)
     (execute (db s1) st),
   s1).

(** ** Watch roots *)

Definition with_watch_paths (s : Service) (ws : list WatchRow) : Service :=
  with_db s {| file_metadata := file_metadata (db s);
               file_name_index := file_name_index (db s);
               file_name_bigrams := file_name_bigrams (db s);
               watch_paths := ws;
               ignore_patterns := ignore_patterns (db s) |}.

(** [INSERT OR IGNORE INTO watch_paths (path, last_updated)]: the other
    columns take their declared defaults. *)
Definition register_path (p : string) (now : Z) (s : Service) : Service :=
  let ws := watch_paths (db s) in
  if existsb (fun w => String.eqb (w_path w) p) ws then s
  else
    with_watch_paths s
      (ws ++ [ {| w_id := next_rowid (map w_id ws); w_path := p;
                  w_enabled := 1; w_total_files := 0; w_indexed_files := 0;
                  w_status := "idle"; w_last_full_scan := None;
                  w_last_updated := Some now; w_error_message := None |} ]).

Definition get_watch_paths (s : Service) : list WatchRow :=
  Sqlite.order_by (fun a b => String.leb (w_path a) (w_path b))
                  (watch_paths (db s)).

Definition update_path_status (p status : string) (now : Z) (s : Service)
  : Service :=
  with_watch_paths s
    (map (fun w =>
            if String.eqb (w_path w) p then
              mkWatchRow (w_id w) (w_path w) (w_enabled w) (w_total_files w)
                         (w_indexed_files w) status (w_last_full_scan w)
                         (Some now) (w_error_message w)
            else w)
         (watch_paths (db s))).

Definition update_path_stats (p : string) (total_files indexed_files : option Z)
           (now : Z) (s : Service) : Service :=
  match total_files, indexed_files with
  | None, None => s
  | _, _ =>
      with_watch_paths s
        (map (fun w =>
                if String.eqb (w_path w) p then
                  mkWatchRow (w_id w) (w_path w) (w_enabled w)
                             (match total_files with
                              | Some n => n | None => w_total_files w end)
                             (match indexed_files with
                              | Some n => n | None => w_indexed_files w end)
                             (w_status w) (w_last_full_scan w)
                             (Some now) (w_error_message w)
                else w)
             (watch_paths (db s)))
  end.

(** The two [DELETE] statements of [remove_path], committed together. *)
Definition remove_path (p : string) (s : Service) : Service :=
  let d := delete_where
             (fun r => Sqlite.like (p ++ "%") (path r)
                       || Sqlite.like (p ++ "%") (parent_path r))
             (db s) in
  with_db s {| file_metadata := file_metadata d;
               file_name_index := file_name_index d;
               file_name_bigrams := file_name_bigrams d;
               watch_paths :=
                 filter (fun w => negb (String.eqb (w_path w) p)) (watch_paths d);
               ignore_patterns := ignore_patterns d |}.

(** [resolve] stands for [Path.resolve], which reads the file system. *)
Definition get_covering_watch_path (resolve : string -> PurePath.t)
           (s : Service) (p : string) : option string :=
  let rows :=
    Sqlite.order_by
      (fun a b => Nat.leb (String.length (w_path b)) (String.length (w_path a)))
      (filter (fun w => Z.eqb (w_enabled w) 1) (watch_paths (db s))) in
  let check_path := resolve p in
  let check_path_str := PurePath.to_str check_path in
  option_map w_path
    (find (fun row =>
             let watch_path := resolve (w_path row) in
             String.eqb check_path_str (PurePath.to_str watch_path)
             || match PurePath.relative_to check_path watch_path with
                | Some _ => true
                | None => false
                end)
          rows).

Definition is_path_indexed (resolve : string -> PurePath.t)
           (s : Service) (p : string) : bool :=
  match get_covering_watch_path resolve s p with
  | Some _ => true
  | None => false
  end.

(** ** Ignore patterns *)

Definition with_ignore_patterns (s : Service) (ps : list string) : Service :=
  with_db s {| file_metadata := file_metadata (db s);
               file_name_index := file_name_index (db s);
               file_name_bigrams := file_name_bigrams (db s);
               watch_paths := watch_paths (db s);
               ignore_patterns := ps |}.

Definition add_ignore_pattern (pattern : string) (s : Service) : Service :=
  if existsb (String.eqb pattern) (ignore_patterns (db s)) then s
  else with_ignore_patterns s (ignore_patterns (db s) ++ [pattern]).

Definition remove_ignore_pattern (pattern : string) (s : Service) : Service :=
  with_ignore_patterns s
    (filter (fun q => negb (String.eqb q pattern)) (ignore_patterns (db s))).

Definition get_ignore_patterns (s : Service) : list string :=
  Sqlite.order_by String.leb (ignore_patterns (db s)).

Definition has_separator (pattern : string) : bool :=
  Text.contains "/" pattern || Text.contains "\" pattern.

(** The body of the loop of [is_ignored] for one pattern. *)
Definition pattern_ignores (path_str : string) (parts : list string)
           (pattern : string) : bool :=
  Fnmatch.fnmatch path_str pattern
  || (negb (has_separator pattern)
      && existsb (fun part => Fnmatch.fnmatch part pattern) parts).

Definition is_ignored (s : Service) (p : string) : bool :=
  match get_ignore_patterns s with
  | [] => false
  | patterns =>
      let path_obj := PurePath.parse p in
      existsb (pattern_ignores (PurePath.to_str path_obj) (PurePath.parts path_obj))
              patterns
  end.

(** [init_db] on a new database file. *)
Definition init_db (trigram_tokenizer : bool) : Service :=
  {| db := {| file_metadata := [];
              file_name_index := if trigram_tokenizer then Some [] else None;
              file_name_bigrams := [];
              watch_paths := [];
              ignore_patterns := [] |};
     _trigram_available := None |}.

(** ** Start-up check of the bigram table *)

(** [ensure_bigram_index_populated]: rebuild when there are entries and
    the bigram table has no row. *)
Definition ensure_bigram_index_populated (s : Service) : Service :=
  let bigram_count := List.length (file_name_bigrams (db s)) in
  let metadata_count := List.length (file_metadata (db s)) in
  if Nat.ltb 0 metadata_count && Nat.eqb bigram_count 0
  then rebuild_bigram_index s else s.

(** ** Status *)

(** The dictionary [get_status] returns. *)
Record Status := mkStatus {
  st_ready : bool;
  st_paths : list WatchRow;
  st_total_files : Z;
  st_indexed_files : Z
}.

Definition get_status (s : Service) : Status :=
  let paths := get_watch_paths s in
  {| st_ready :=
       Nat.ltb 0 (List.length paths)
       && negb (existsb (fun p => String.eqb (w_status p) "scanning") paths)
       && existsb (fun p => String.eqb (w_status p) "watching") paths;
     st_paths := paths;
     st_total_files :=
       fold_right Z.add 0 (map w_total_files (watch_paths (db s)));
     st_indexed_files :=
       fold_right Z.add 0 (map w_indexed_files (watch_paths (db s))) |}.

End IndexService.

(* ================================================================== *)
(** * scanner.py *)
(* ================================================================== *)

Module ParallelScanner.

(** The body of the loop of [_should_ignore] for one pattern. *)
Definition pattern_ignores (name path_str pattern : string) : bool :=
  match pattern with
  | EmptyString => false
  | _ =>
      Fnmatch.fnmatch name pattern
      || String.eqb name pattern
      || Text.contains pattern path_str
  end.

Definition _should_ignore (ignore_patterns : list string) (p : PurePath.t) : bool :=
  existsb (pattern_ignores (PurePath.name p) (PurePath.to_str p)) ignore_patterns.

(** ** The walk *)

(** What the scanner meets on disk: a file or a directory, with the
    answer of [stat] as (size, mtime), [None] when [stat] raises [OSError],
    and for a directory its listing, [None] when [iterdir] raises. *)
#[warnings="-register-all"]
Inductive Node : Type :=
| FileNode (name : string) (st : option (Z * Z))
| DirNode (name : string) (st : option (Z * Z)) (entries : option (list Node)).

Definition node_name (n : Node) : string :=
  match n with
  | FileNode name _ => name
  | DirNode name _ _ => name
  end.

Definition node_stat (n : Node) : option (Z * Z) :=
  match n with
  | FileNode _ st => st
  | DirNode _ st _ => st
  end.

Definition node_is_dir (n : Node) : bool :=
  match n with
  | FileNode _ _ => false
  | DirNode _ _ _ => true
  end.

(** The [FileInfo] built for an item that answered [stat]. *)
Definition file_info (item : PurePath.t) (is_dir : bool) (st : Z * Z)
  : IndexService.FileInfo :=
  {| IndexService.fi_path := PurePath.to_str item;
     IndexService.fi_name := PurePath.name item;
     IndexService.fi_parent_path := PurePath.to_str (PurePath.parent item);
     IndexService.fi_file_type := if is_dir then "directory" else "file";
     IndexService.fi_extension := if is_dir then None else Some (PurePath.suffix item);
     IndexService.fi_size := if is_dir then 0 else fst st;
     IndexService.fi_mtime := snd st |}.

(** One turn of the loop of [_scan_recursive_sync], with the recursion
    into a directory that answered [stat]. *)
Fixpoint scan_item (ignore_patterns : list string) (path : PurePath.t) (n : Node)
  : list IndexService.FileInfo :=
  let item := PurePath.child path (node_name n) in
  if _should_ignore ignore_patterns item then []
  else
    match n with
    | FileNode _ None => []
    | FileNode _ (Some st) => [file_info item false st]
    | DirNode _ None _ => []
    | DirNode _ (Some st) entries =>
        file_info item true st
        :: match entries with
           | None => []
           | Some l => flat_map (scan_item ignore_patterns item) l
           end
    end.

Definition _scan_recursive_sync (ignore_patterns : list string)
           (path : PurePath.t) (entries : option (list Node))
  : list IndexService.FileInfo :=
  match entries with
  | None => []
  | Some l => flat_map (scan_item ignore_patterns path) l
  end.

(** One turn of the first loop of [scan_directory]: the record of a
    direct child, and the child itself when it is a directory to walk. *)
Definition direct_item (ignore_patterns : list string) (path : PurePath.t) (n : Node)
  : list IndexService.FileInfo :=
  let item := PurePath.child path (node_name n) in
  if _should_ignore ignore_patterns item then []
  else
    match node_stat n with
    | None => []
    | Some st => [file_info item (node_is_dir n) st]
    end.

Definition subdir_item (ignore_patterns : list string) (path : PurePath.t) (n : Node)
  : list (PurePath.t * option (list Node)) :=
  let item := PurePath.child path (node_name n) in
  if _should_ignore ignore_patterns item then []
  else
    match n with
    | DirNode _ (Some _) entries => [(item, entries)]
    | _ => []
    end.

(** Python slices [l[:n]] and [l[n:]], also for a negative [n]. *)
Definition slice_to (n : Z) (l : list IndexService.FileInfo) :=
  if n <? 0 then firstn (List.length l - Z.to_nat (- n)) l
  else firstn (Z.to_nat n) l.

Definition slice_from (n : Z) (l : list IndexService.FileInfo) :=
  if n <? 0 then skipn (List.length l - Z.to_nat (- n)) l
  else skipn (Z.to_nat n) l.

(** The [while len(batch) >= self.batch_size] loop: the batches handed to
    [on_batch] and what stays in [batch].  [None] when the fuel runs out. *)
Fixpoint drain (fuel : nat) (batch_size : Z) (batch : list IndexService.FileInfo)
  : option (list (list IndexService.FileInfo) * list IndexService.FileInfo) :=
  match fuel with
  | O => None
  | S fuel' =>
      if Z.of_nat (List.length batch) >=? batch_size then
        match drain fuel' batch_size (slice_from batch_size batch) with
        | Some (calls, rest) => Some (slice_to batch_size batch :: calls, rest)
        | None => None
        end
      else Some ([], batch)
  end.

(** The loop over the finished futures.  The fuel of each [while] loop is
    one more than the length of the batch, which is enough whenever
    [batch_size] is positive; with a [batch_size] of zero or less the loop
    of the source never ends, and the model answers [None]. *)
Fixpoint feed (batch_size : Z) (completed : list (list IndexService.FileInfo))
         (batch : list IndexService.FileInfo)
  : option (list (list IndexService.FileInfo) * list IndexService.FileInfo) :=
  match completed with
  | [] => Some ([], batch)
  | subdir_results :: rest =>
      match drain (S (List.length (batch ++ subdir_results))) batch_size
                  (batch ++ subdir_results) with
      | None => None
      | Some (calls, batch') =>
          match feed batch_size rest batch' with
          | Some (calls', batch'') => Some (calls ++ calls', batch'')
          | None => None
          end
      end
  end.

Inductive ScanOutcome : Type :=
| FileNotFoundError
| NotADirectoryError
| ValueError
| NeverReturns
| Returned (all_results : list IndexService.FileInfo)
           (on_batch_calls : list (list IndexService.FileInfo)).

(** [scan_directory] with an [on_batch] callback and no [on_progress], as
    every caller runs it.  [target] is what [path] names on disk, [None]
    when nothing is there; [as_completed] is the order in which the futures
    of the subdirectories finish.  [ThreadPoolExecutor] raises [ValueError]
    for a number of workers that is not positive. *)
Definition scan_directory (max_workers : Z) (ignore_patterns : list string)
           (batch_size : Z)
           (as_completed : list (list IndexService.FileInfo)
                           -> list (list IndexService.FileInfo))
           (path : PurePath.t) (target : option Node) : ScanOutcome :=
  match target with
  | None => FileNotFoundError
  | Some (FileNode _ _) => NotADirectoryError
  | Some (DirNode _ _ None) => Returned [] []
  | Some (DirNode _ _ (Some entries)) =>
      let direct_items := flat_map (direct_item ignore_patterns path) entries in
      let subdirs := flat_map (subdir_item ignore_patterns path) entries in
      match subdirs with
      | [] => Returned direct_items []
      | _ =>
          if max_workers <=? 0 then ValueError
          else
            let completed :=
              as_completed
                (map (fun d => _scan_recursive_sync ignore_patterns (fst d) (snd d))
                     subdirs) in
            match feed batch_size completed [] with
            | None => NeverReturns
            | Some (calls, batch) =>
                Returned (direct_items ++ List.concat completed)
                         (calls ++ match batch with [] => [] | _ => [batch] end)
            end
      end
  end.

Inductive IndexOutcome : Type :=
| Raised (message : string)
| Hangs
| Counted (total_count : Z) (index_service : IndexService.Service).

(** [scan_with_index_service]: every batch goes to [batch_add_files];
    [clock k] is the time read by the call for batch number [k]. *)
Definition scan_with_index_service (max_workers : Z)
           (ignore_patterns : list string) (batch_size : Z)
           (as_completed : list (list IndexService.FileInfo)
                           -> list (list IndexService.FileInfo))
           (clock : nat -> Z)
           (path : PurePath.t) (target : option Node)
           (index_service : IndexService.Service) : IndexOutcome :=
  match scan_directory max_workers ignore_patterns batch_size as_completed
                       path target with
  | FileNotFoundError =>
      Raised ("Directory not found: " ++ PurePath.to_str path)
  | NotADirectoryError =>
      Raised ("Not a directory: " ++ PurePath.to_str path)
  | ValueError => Raised "max_workers must be greater than 0"
  | NeverReturns => Hangs
  | Returned _ calls =>
      Counted
        (fold_left (fun n batch => n + Z.of_nat (List.length batch)) calls 0)
        (snd (fold_left
                (fun '(k, s) batch =>
                   (S k, IndexService.batch_add_files batch (clock k) s))
                calls (O, index_service)))
  end.

End ParallelScanner.

(* ================================================================== *)
(** * config.py *)
(* ================================================================== *)

Module Settings.

(** The settings the scanner and the endpoints read. *)
Record t := mk {
  ignore_patterns : string;
  scan_workers : Z;
  batch_size : Z;
  default_count : Z;
  max_count : Z
}.

(** [ignore_patterns_list]: the comma-separated setting, each piece
    stripped, empty pieces left out. *)
Definition ignore_patterns_list (settings : t) : list string :=
  map Text.strip
      (filter (fun p => negb (String.eqb (Text.strip p) ""))
              (Text.split "," (ignore_patterns settings))).

(** The values of the class when no environment variable is set. *)
Definition defaults : t :=
  {| ignore_patterns := ".git,node_modules,.venv,__pycache__,.DS_Store";
     scan_workers := 4;
     batch_size := 1000;
     default_count := 100;
     max_count := 10000 |}.

End Settings.

(* ================================================================== *)
(** * routers/admin.py and routers/search.py *)
(* ================================================================== *)

Module Admin.

(** What [add_path] reads from the file system. *)
Record FileSystem := mkFileSystem {
  fs_exists : string -> bool;
  fs_is_dir : string -> bool;
  fs_resolve : string -> PurePath.t
}.

Inductive Task : Type :=
| ScanPath (path : string).

Inductive Response : Type :=
| Json (path status : string)
| HTTPException (status_code : Z).

(** The application state [add_path] acts on: the shared
    [IndexService] and the queue of background tasks. *)
Record App := mkApp {
  index_service : IndexService.Service;
  background_tasks : list Task
}.

(** [POST /paths].  [now1] and [now2] are the clock readings of
    [register_path] and [update_path_status]. *)
Definition add_path (fs : FileSystem) (now1 now2 : Z) (app : App) (path : string)
  : Response * App :=
  if negb (fs_exists fs path) then (HTTPException 404, app)
  else if negb (fs_is_dir fs path) then (HTTPException 400, app)
  else if IndexService.is_path_indexed (fs_resolve fs) (index_service app) path
  then (Json path "already_indexed", app)
  else
    let s1 := IndexService.register_path path now1 (index_service app) in
    let s2 := IndexService.update_path_status path "scanning" now2 s1 in
    (Json path "scanning",
     {| index_service := s2;
        background_tasks := background_tasks app ++ [ScanPath path] |}).

(** [DELETE /paths] *)
Definition remove_path (app : App) (path : string) : Response * App :=
  (Json path "removed",
   {| index_service := IndexService.remove_path path (index_service app);
      background_tasks := background_tasks app |}).

(** The ten patterns of [POST /ignores/defaults]. *)
Definition default_ignores : list string :=
  ["__pycache__"; "*.pyc"; ".git"; ".venv"; ".DS_Store"; "node_modules";
   "venv"; "env"; ".idea"; ".vscode"].

Definition add_default_ignores (s : IndexService.Service) : IndexService.Service :=
  fold_left (fun s pattern => IndexService.add_ignore_pattern pattern s)
            default_ignores s.

(** [POST /rebuild] queues one [_rebuild_path] per target. *)
Inductive RebuildTask : Type :=
| RebuildPath (path : string) (ignore_patterns : option string).

Inductive RebuildResponse : Type :=
| NoPaths
| PathNotFound
| Started (paths : nat).

(** The loop of [rebuild_index] over its targets; [clock k] is the time
    read for target number [k]. *)
Fixpoint mark_scanning (clock : nat -> Z) (k : nat)
         (targets : list IndexService.WatchRow) (s : IndexService.Service)
  : IndexService.Service :=
  match targets with
  | [] => s
  | p :: rest =>
      mark_scanning clock (S k) rest
        (IndexService.update_path_status (IndexService.w_path p) "scanning"
                                         (clock k) s)
  end.

Definition rebuild_index (clock : nat -> Z) (s : IndexService.Service)
           (path ignore_patterns : option string)
  : RebuildResponse * IndexService.Service * list RebuildTask :=
  match IndexService.get_watch_paths s with
  | [] => (NoPaths, s, [])
  | paths =>
      let target_paths :=
        if IndexService.truthy path
        then filter (fun p => String.eqb (IndexService.w_path p)
                                         (IndexService.text_of path)) paths
        else paths in
      match target_paths with
      | [] => (PathNotFound, s, [])
      | _ =>
          (Started (List.length target_paths),
           mark_scanning clock 0 target_paths s,
           map (fun p => RebuildPath (IndexService.w_path p) ignore_patterns)
               target_paths)
      end
  end.

(** [UPDATE watch_paths SET error_message = ? WHERE path = ?] *)
Definition set_error_message (path message : string) (s : IndexService.Service)
  : IndexService.Service :=
  IndexService.with_watch_paths s
    (map (fun w =>
            if String.eqb (IndexService.w_path w) path then
              IndexService.mkWatchRow
                (IndexService.w_id w) (IndexService.w_path w)
                (IndexService.w_enabled w) (IndexService.w_total_files w)
                (IndexService.w_indexed_files w) (IndexService.w_status w)
                (IndexService.w_last_full_scan w) (IndexService.w_last_updated w)
                (Some message)
            else w)
         (IndexService.watch_paths (IndexService.db s))).

(** What a background scan reads from its surroundings: the settings, the
    directory a path names, the order in which the worker futures finish,
    and the clock ([clock] for the batches, [now1] to [now3] for the calls
    around them). *)
Record ScanEnv := mkScanEnv {
  settings : Settings.t;
  on_disk : string -> option ParallelScanner.Node;
  as_completed : list (list IndexService.FileInfo)
                 -> list (list IndexService.FileInfo);
  clock : nat -> Z;
  now1 : Z;
  now2 : Z;
  now3 : Z
}.

(** The scan and what follows it, shared by [_scan_path] and
    [_rebuild_path]; [None] when the scan never returns. *)
Definition scan_and_finish (env : ScanEnv) (patterns : list string) (path : string)
           (s : IndexService.Service) : option IndexService.Service :=
  match ParallelScanner.scan_with_index_service
          (Settings.scan_workers (settings env)) patterns
          (Settings.batch_size (settings env)) (as_completed env)
          (clock env) (PurePath.parse path) (on_disk env path) s with
  | ParallelScanner.Hangs => None
  | ParallelScanner.Raised message =>
      Some (set_error_message path (Text.first 500 message)
              (IndexService.update_path_status path "error" (now2 env) s))
  | ParallelScanner.Counted count s1 =>
      let s2 := IndexService.update_path_stats path (Some count) (Some count)
                                               (now2 env) s1 in
      let s3 := IndexService.update_path_status path "watching" (now3 env) s2 in
      Some (IndexService.rebuild_bigram_index
              (IndexService.rebuild_trigram_index s3))
  end.

(** [_scan_path] *)
Definition _scan_path (env : ScanEnv) (path : string) (s : IndexService.Service)
  : option IndexService.Service :=
  let patterns :=
    Text.unique (Settings.ignore_patterns_list (settings env)
                 ++ IndexService.get_ignore_patterns s) in
  scan_and_finish env patterns path s.

(** [_rebuild_path] *)
Definition _rebuild_path (env : ScanEnv) (path : string)
           (ignore_patterns : option string) (s : IndexService.Service)
  : option IndexService.Service :=
  let s1 := IndexService.remove_path path s in
  let s2 := IndexService.register_path path (now1 env) s1 in
  let s3 := IndexService.update_path_status path "scanning" (now1 env) s2 in
  let patterns :=
    Text.unique (IndexService.get_ignore_patterns s3
                 ++ Settings.ignore_patterns_list (settings env)) in
  let patterns :=
    if IndexService.truthy ignore_patterns
    then patterns
         ++ map Text.strip
              (filter (fun p => negb (String.eqb (Text.strip p) ""))
                      (Text.split "," (IndexService.text_of ignore_patterns)))
    else patterns in
  scan_and_finish env (Text.unique patterns) path s3.

End Admin.

Module SearchRouter.

Definition sort_mapping : list (string * string) :=
  [("date_modified", "mtime"); ("size", "size"); ("path", "path"); ("name", "name")].

(** [dict.get(key, default)] *)
Definition dict_get (m : list (string * string)) (key default : string) : string :=
  match find (fun kv => String.eqb (fst kv) key) m with
  | Some kv => snd kv
  | None => default
  end.

(** The sort argument the endpoint hands to [IndexService.search]. *)
Definition sort_column (sort : string) : string :=
  dict_get sort_mapping sort "name".

(** The query parameters of [GET /], with the names of the source. *)
Record Query := mkQuery {
  q_search : option string;
  q_s : option string;
  q_q : option string;
  q_json : Z;
  q_j : Z;
  q_offset : Z;
  q_o : Z;
  q_count : Z;
  q_c : Z;
  q_sort : string;
  q_ascending : Z;
  q_path_column : Z;
  q_size_column : Z;
  q_date_modified_column : Z;
  q_path : option string;
  q_regex : Z;
  q_r : Z;
  q_case : Z;
  q_i : Z;
  q_file_type : string;
  q_depth : Z
}.

(** Python's [a or b] for an [Optional[str]] and a string. *)
Definition or_else (a : option string) (b : string) : string :=
  if IndexService.truthy a then IndexService.text_of a else b.

(** One element of the [results] array; a column that was not asked for
    has no key. *)
Record ResultItem := mkResultItem {
  r_name : string;
  r_path : option string;
  r_type : string;
  r_size : option Z;
  r_date_modified : option Z
}.

Definition result_item (p : Query) (item : IndexService.FileRow) : ResultItem :=
  {| r_name := IndexService.name item;
     r_path := if q_path_column p =? 0 then None else Some (IndexService.path item);
     r_type := IndexService.file_type item;
     r_size := if q_size_column p =? 0 then None else Some (IndexService.size item);
     r_date_modified :=
       if q_date_modified_column p =? 0 then None
       else Some (IndexService.mtime item) |}.

(** What the endpoint answers.  [RequestValidationError] is the 422 of a
    parameter outside its declared range ([ge=0], [ge=1]);
    [OperationalError] is the exception of a statement that failed.  The
    page of [HTMLResponse] is given by the three values handed to
    [html.format]: the query, the count and the entries behind the rows. *)
Inductive Response : Type :=
| RequestValidationError
| OperationalError
| JSONResponse (totalResults : nat) (results : list ResultItem)
| HTMLResponse (query : string) (count : nat) (rows : list IndexService.FileRow).

(** [result_count], after the aliases and the two bounds. *)
Definition result_count (settings : Settings.t) (p : Query) : Z :=
  let result_count := if q_c p =? 0 then q_count p else q_c p in
  let result_count :=
    if result_count =? 0 then Settings.default_count settings else result_count in
  let result_count := Z.min result_count (Settings.max_count settings) in
  Z.min result_count (Settings.max_count settings).

(** [GET /]: the service object is made for the request, so its cache of
    [_has_trigram_index] starts empty. *)
Definition search (settings : Settings.t) (db : IndexService.Db) (p : Query)
  : Response :=
  if (q_offset p <? 0) || (q_o p <? 0) || (q_count p <? 1) || (q_c p <? 0)
  then RequestValidationError
  else
    let query := or_else (q_search p) (or_else (q_s p) (or_else (q_q p) "")) in
    let use_json := (q_json p =? 1) || (q_j p =? 1) in
    let result_offset := if q_offset p >? 0 then q_offset p else q_o p in
    let index_service :=
      {| IndexService.db := db; IndexService._trigram_available := None |} in
    match fst (IndexService.search
                 index_service query (q_path p)
                 (if negb (String.eqb (q_file_type p) "all")
                  then Some (q_file_type p) else None)
                 (result_count settings p) (q_depth p) result_offset
                 (sort_column (q_sort p)) (q_ascending p =? 1)) with
    | None => OperationalError
    | Some results =>
        if use_json
        then JSONResponse (List.length results) (map (result_item p) results)
        else HTMLResponse query (List.length results) results
    end.

End SearchRouter.

(* ================================================================== *)
(** * watcher.py *)
(* ================================================================== *)

Module IndexEventHandler.

(** A watchdog event: [dest_path] is there for a move. *)
Record FileSystemEvent := mkEvent {
  src_path : string;
  dest_path : option string;
  is_directory : bool
}.

(** A value of [_pending_events]: (event_type, is_directory, timestamp). *)
Definition Pending : Type := string * bool * Z.

(** The handler.  [_pending_events] is a [dict], which keeps its keys in
    the order they were first set; [_timer] tells whether a timer is
    armed.  The index service is shared with the rest of the program and
    is passed beside the handler. *)
Record t := mk {
  _pending_events : list (string * Pending);
  _timer : bool
}.

(** [IndexEventHandler(index_service)] *)
Definition new : t := {| _pending_events := []; _timer := false |}.

(** [d[key] = value]: an existing key keeps its place. *)
Fixpoint dict_set (key : string) (value : Pending) (d : list (string * Pending))
  : list (string * Pending) :=
  match d with
  | [] => [(key, value)]
  | (k, v) :: rest =>
      if String.eqb k key then (k, value) :: rest
      else (k, v) :: dict_set key value rest
  end.

(** [d.get(key)] *)
Definition dict_get (key : string) (d : list (string * Pending)) : option Pending :=
  option_map snd (find (fun kv => String.eqb (fst kv) key) d).

Definition _should_ignore (index_service : IndexService.Service) (path : string)
  : bool :=
  IndexService.is_ignored index_service path.

(** [_queue_event]; [now] is the time read for the timestamp. *)
Definition _queue_event (index_service : IndexService.Service) (now : Z)
           (event_type path : string) (is_directory : bool) (h : t) : t :=
  if _should_ignore index_service path then h
  else {| _pending_events :=
            dict_set path (event_type, is_directory, now) (_pending_events h);
          _timer := true |}.

(** What [_apply_event] reads from the disk: [exists] and [stat], the
    latter [None] when it raises [OSError], else (size, mtime). *)
Record Disk := mkDisk {
  path_exists : string -> bool;
  path_stat : string -> option (Z * Z)
}.

(** [_apply_event]; [now] is the time [add_file] reads. *)
Definition _apply_event (disk : Disk) (now : Z)
           (event_type path : string) (is_directory : bool)
           (index_service : IndexService.Service) : IndexService.Service :=
  let path_obj := PurePath.parse path in
  if String.eqb event_type "deleted" then
    IndexService.remove_file path index_service
  else if String.eqb event_type "created" || String.eqb event_type "modified" then
    if negb (path_exists disk path) then index_service
    else
      match path_stat disk path with
      | None => index_service
      | Some st =>
          IndexService.add_file
            {| IndexService.fi_path := path;
               IndexService.fi_name := PurePath.name path_obj;
               IndexService.fi_parent_path :=
                 PurePath.to_str (PurePath.parent path_obj);
               IndexService.fi_file_type :=
                 if is_directory then "directory" else "file";
               IndexService.fi_extension :=
                 if is_directory then None else Some (PurePath.suffix path_obj);
               IndexService.fi_size := if is_directory then 0 else fst st;
               IndexService.fi_mtime := snd st |}
            now index_service
      end
  else index_service.

(** The loop of [_process_pending_events] over the copied events;
    [clock k] is the time read while event number [k] is applied. *)
Fixpoint apply_events (disk : Disk) (clock : nat -> Z) (k : nat)
         (events : list (string * Pending))
         (index_service : IndexService.Service) : IndexService.Service :=
  match events with
  | [] => index_service
  | (path, (event_type, is_directory, _)) :: rest =>
      apply_events disk clock (S k) rest
        (_apply_event disk (clock k) event_type path is_directory index_service)
  end.

(** [_process_pending_events], run by the timer. *)
Definition _process_pending_events (disk : Disk) (clock : nat -> Z)
           (h : t) (index_service : IndexService.Service)
  : t * IndexService.Service :=
  let events := _pending_events h in
  ({| _pending_events := []; _timer := _timer h |},
   apply_events disk clock 0 events index_service).

(** [flush] *)
Definition flush (disk : Disk) (clock : nat -> Z)
           (h : t) (index_service : IndexService.Service)
  : t * IndexService.Service :=
  _process_pending_events disk clock
    {| _pending_events := _pending_events h; _timer := false |} index_service.

Definition on_created (index_service : IndexService.Service) (now : Z)
           (event : FileSystemEvent) (h : t) : t :=
  _queue_event index_service now "created" (src_path event) (is_directory event) h.

Definition on_deleted (index_service : IndexService.Service) (now : Z)
           (event : FileSystemEvent) (h : t) : t :=
  _queue_event index_service now "deleted" (src_path event) (is_directory event) h.

Definition on_modified (index_service : IndexService.Service) (now : Z)
           (event : FileSystemEvent) (h : t) : t :=
  if negb (is_directory event)
  then _queue_event index_service now "modified" (src_path event)
                    (is_directory event) h
  else h.

(** [on_moved]; [now1] and [now2] are the two timestamps. *)
Definition on_moved (index_service : IndexService.Service) (now1 now2 : Z)
           (event : FileSystemEvent) (h : t) : t :=
  let h1 := _queue_event index_service now1 "deleted" (src_path event)
                         (is_directory event) h in
  match dest_path event with
  | Some dest =>
      _queue_event index_service now2 "created" dest (is_directory event) h1
  | None => h1
  end.

End IndexEventHandler.

(* ================================================================== *)
(** * Predicates and scenarios of the development *)
(* ================================================================== *)

Import IndexService.

(** The depth scenario: entries one, two and three levels below [/r]. *)
Definition depth_entries : list FileInfo :=
  [ mkFileInfo "/r/a" "a" "/r" "directory" None 0 10;
    mkFileInfo "/r/a/b" "b" "/r/a" "directory" None 0 20;
    mkFileInfo "/r/a/b/c" "c" "/r/a/b" "file" (Some "") 7 30 ].

Definition depth_scenario : Service :=
  batch_add_files depth_entries 100 (init_db true).

(** Every row of [watch_paths] has [enabled = 1]: rows are inserted with
    the column default and no statement of the service writes the column. *)
Definition roots_enabled (s : Service) : Prop :=
  Forall (fun w => w_enabled w = 1) (watch_paths (db s)).

(** [root] covers [p]: after [resolve], [p] is [root] or lies under it. *)
Definition covers (resolve : string -> PurePath.t) (root p : string) : Prop :=
  PurePath.to_str (resolve p) = PurePath.to_str (resolve root)
  \/ exists rel, PurePath.relative_to (resolve p) (resolve root) = Some rel.

(** The scenario of the specification: [/r] is registered and the request
    names [/r/sub], on a file system without links where both are
    directories. *)
Definition plain_fs : Admin.FileSystem :=
  {| Admin.fs_exists := fun _ => true;
     Admin.fs_is_dir := fun _ => true;
     Admin.fs_resolve := PurePath.parse |}.

Definition covered_app : Admin.App :=
  {| Admin.index_service := register_path "/r" 1 (init_db true);
     Admin.background_tasks := [] |}.

(** The store of [covered_app]: [/r] is its one watch root. *)
Definition covered_app_service : Service := Admin.index_service covered_app.

(** The patterns of the first scenario of the specification. *)
Definition ignore_scenario : Service :=
  add_ignore_pattern ".git"
    (add_ignore_pattern "__pycache__"
       (add_ignore_pattern "*.pyc"
          (add_ignore_pattern "node_modules" (init_db true)))).

(** Two sibling directories, [/data/a_c] and [/data/abc], each with a file. *)
Definition sibling_scenario : Service :=
  batch_add_files
    [ mkFileInfo "/data/a_c/x.txt" "x.txt" "/data/a_c" "file" (Some ".txt") 1 10;
      mkFileInfo "/data/abc/y.txt" "y.txt" "/data/abc" "file" (Some ".txt") 2 20 ]
    100
    (register_path "/data/abc" 2 (register_path "/data/a_c" 1 (init_db true))).

(** A query without the double quote and without the two [LIKE]
    wildcards. *)
Definition plain_query (q : string) : bool :=
  negb (Text.has_char Text.dquote q)
  && negb (Text.has_char "%" q)
  && negb (Text.has_char "_" q).

(** The documents of the trigram index are not stale: a document filed
    under the id of an entry carries the name of that entry.  Documents
    under ids that no entry has are allowed. *)
Definition docs_fresh (rows : list FileRow) (docs : list (Z * string)) : Prop :=
  forall d e, In d docs -> In e rows -> fst d = id e -> snd d = name e.

(** The names of all entries are ASCII text. *)
Definition ascii_names (s : Service) : Prop :=
  forall e, In e (file_metadata (db s)) -> Text.is_ascii (name e) = true.

(** The state [search] can rely on: ids are unique (the primary key), the
    trigram documents are not stale, and a cached positive answer of
    [_has_trigram_index] is backed by the table. *)
Definition index_sound (s : Service) : Prop :=
  NoDup (map id (file_metadata (db s)))
  /\ (forall docs, file_name_index (db s) = Some docs ->
                   docs_fresh (file_metadata (db s)) docs)
  /\ (_trigram_available s = Some true -> file_name_index (db s) <> None).

(** The two rebuilds, in the order [start_indexing] and the admin tasks
    run them after a scan. *)
Definition rebuild_indexes (s : Service) : Service :=
  rebuild_bigram_index (rebuild_trigram_index s).

(** The corpus of the second and third scenarios of the specification. *)
Definition hello_scenario : Service :=
  batch_add_files
    [ mkFileInfo "/t/hello.txt" "hello.txt" "/t" "file" (Some ".txt") 1 10;
      mkFileInfo "/t/help.md" "help.md" "/t" "file" (Some ".md") 2 20;
      mkFileInfo "/t/world.txt" "world.txt" "/t" "file" (Some ".txt") 3 30 ]
    100 (init_db true).

(** Two entries whose names differ in letter case only. *)
Definition case_scenario : Service :=
  rebuild_indexes
    (batch_add_files
       [ mkFileInfo "/t/Hello.txt" "Hello.txt" "/t" "file" (Some ".txt") 1 10;
         mkFileInfo "/t/hello.md" "hello.md" "/t" "file" (Some ".md") 2 20 ]
       100 (init_db true)).

(** The state entries are created in: besides [index_sound], every
    document of the trigram index lies below the next rowid, so that a new
    entry never meets a document filed under its id. *)
Definition db_grown (d : Db) : Prop :=
  NoDup (map id (file_metadata d))
  /\ forall docs, file_name_index d = Some docs ->
       forall doc, In doc docs ->
         fst doc < next_rowid (map id (file_metadata d))
         /\ forall e, In e (file_metadata d) -> fst doc = id e -> snd doc = name e.

(** Equality of index rows is decidable. *)
Definition posting_eq_dec (a b : Z * string) : {a = b} + {a <> b}.
Proof. decide equality; [apply string_dec | apply Z.eq_dec]. Defined.

(** The rows (rowid, n-gram) an inverted index holds for its documents:
    one per document and distinct n-gram of its text. *)
Definition postings (grams : string -> list string) (docs : list (Z * string))
  : list (Z * string) :=
  flat_map (fun d => map (fun g => (fst d, g)) (Text.unique (grams (snd d)))) docs.

(** An index is consistent with the entries when each entry is linked to
    each n-gram of its name by exactly one row, and every row belongs to an
    entry. *)
Definition ngram_consistent (grams : string -> list string)
           (rows : list FileRow) (index : list (Z * string)) : Prop :=
  (forall e g, In e rows -> In g (grams (name e)) ->
               count_occ posting_eq_dec index (id e, g) = 1%nat)
  /\ (forall i g, In (i, g) index -> exists e, In e rows /\ id e = i).

(** The bigram table against the entries. *)
Definition bigrams_consistent (d : Db) : Prop :=
  ngram_consistent _extract_bigrams (file_metadata d) (file_name_bigrams d).

(** The trigram table, when the database has one, through the postings
    of its documents. *)
Definition trigrams_consistent (d : Db) : Prop :=
  forall docs, file_name_index d = Some docs ->
    ngram_consistent Sqlite.trigram_tokens (file_metadata d)
                     (postings Sqlite.trigram_tokens docs).

(** Ids are unique and the trigram table holds the documents of the
    entries, each once. *)
Definition index_in_step (d : Db) : Prop :=
  NoDup (map id (file_metadata d))
  /\ forall docs, file_name_index d = Some docs ->
       NoDup docs /\ forall x, In x docs <-> In x (map doc_of (file_metadata d)).

(** The calls of the store that write to the database. *)
Inductive StoreCall : Type :=
| AddFile (f : FileInfo) (now : Z)
| BatchAddFiles (files : list FileInfo) (now : Z)
| UpdateFile (p : string) (kwargs : list assignment)
| RemoveFile (p : string)
| RegisterPath (p : string) (now : Z)
| UpdatePathStatus (p status : string) (now : Z)
| UpdatePathStats (p : string) (total_files indexed_files : option Z) (now : Z)
| RemovePath (p : string)
| AddIgnorePattern (pattern : string)
| RemoveIgnorePattern (pattern : string)
| RebuildBigramIndex
| RebuildTrigramIndex
| EnsureBigramIndexPopulated.

Definition call (s : Service) (c : StoreCall) : Service :=
  match c with
  | AddFile f now => add_file f now s
  | BatchAddFiles files now => batch_add_files files now s
  | UpdateFile p kwargs => update_file p kwargs s
  | RemoveFile p => remove_file p s
  | RegisterPath p now => register_path p now s
  | UpdatePathStatus p status now => update_path_status p status now s
  | UpdatePathStats p total_files indexed_files now =>
      update_path_stats p total_files indexed_files now s
  | RemovePath p => remove_path p s
  | AddIgnorePattern pattern => add_ignore_pattern pattern s
  | RemoveIgnorePattern pattern => remove_ignore_pattern pattern s
  | RebuildBigramIndex => rebuild_bigram_index s
  | RebuildTrigramIndex => rebuild_trigram_index s
  | EnsureBigramIndexPopulated => ensure_bigram_index_populated s
  end.

(** A history of calls on a database that [init_db] has just created. *)
Definition history (tokenizer : bool) (calls : list StoreCall) : Service :=
  fold_left call calls (init_db tokenizer).

(** The constraints the schema declares: [id] is the primary key of
    [file_metadata] and of [watch_paths], [path] is [UNIQUE] in both, and
    [pattern] is [UNIQUE] in [ignore_patterns]. *)
Definition schema_holds (d : Db) : Prop :=
  NoDup (map id (file_metadata d))
  /\ NoDup (map path (file_metadata d))
  /\ NoDup (map w_id (watch_paths d))
  /\ NoDup (map w_path (watch_paths d))
  /\ NoDup (ignore_patterns d).

(** A directory [/r] with a file and a subdirectory that holds a file. *)
Definition scan_entries : list ParallelScanner.Node :=
  [ ParallelScanner.FileNode "top.txt" (Some (7, 2));
    ParallelScanner.DirNode "a" (Some (4096, 3))
      (Some [ParallelScanner.FileNode "x.txt" (Some (1, 4))]) ].

Definition scan_tree : ParallelScanner.Node :=
  ParallelScanner.DirNode "r" (Some (4096, 1)) (Some scan_entries).

(** Two surroundings of a background scan, both with the default
    settings and workers that finish in the order they were started: a disk
    on which no path exists, and one on which every path names
    [scan_tree]. *)
Definition empty_disk_env : Admin.ScanEnv :=
  {| Admin.settings := Settings.defaults;
     Admin.on_disk := fun _ => None;
     Admin.as_completed := fun l => l;
     Admin.clock := fun _ => 5;
     Admin.now1 := 1; Admin.now2 := 2; Admin.now3 := 3 |}.

Definition scan_tree_env : Admin.ScanEnv :=
  {| Admin.settings := Settings.defaults;
     Admin.on_disk := fun _ => Some scan_tree;
     Admin.as_completed := fun l => l;
     Admin.clock := fun _ => 5;
     Admin.now1 := 1; Admin.now2 := 2; Admin.now3 := 3 |}.

(** What one pending event of the watcher does to the entry under its
    path: a deletion leaves none; a creation or modification of a path that
    exists and answers [stat] leaves an entry made from the path and the
    [stat] result; anything else leaves what was there. *)
Definition event_outcome (disk : IndexEventHandler.Disk)
           (p : string) (event : IndexEventHandler.Pending)
           (before after : option FileRow) : Prop :=
  let '(event_type, is_directory, _) := event in
  if String.eqb event_type "deleted" then after = None
  else if String.eqb event_type "created" || String.eqb event_type "modified" then
    match IndexEventHandler.path_exists disk p, IndexEventHandler.path_stat disk p with
    | true, Some st =>
        exists row,
          after = Some row
          /\ path row = p
          /\ name row = PurePath.name (PurePath.parse p)
          /\ parent_path row = PurePath.to_str (PurePath.parent (PurePath.parse p))
          /\ file_type row = (if is_directory then "directory" else "file")
          /\ extension row = (if is_directory then None
                              else Some (PurePath.suffix (PurePath.parse p)))
          /\ size row = (if is_directory then 0 else fst st)
          /\ mtime row = snd st
    | _, _ => after = before
    end
  else after = before.

(** The directory [/r/a] of [depth_scenario] is renamed to [/r/b]: the
    event, the handler after it, and a disk that holds the new name only. *)
Definition rename_event : IndexEventHandler.FileSystemEvent :=
  IndexEventHandler.mkEvent "/r/a" (Some "/r/b") true.

Definition rename_handler : IndexEventHandler.t :=
  IndexEventHandler.on_moved depth_scenario 1 2 rename_event IndexEventHandler.new.

Definition rename_disk : IndexEventHandler.Disk :=
  {| IndexEventHandler.path_exists := fun p => String.eqb p "/r/b";
     IndexEventHandler.path_stat := fun _ => Some (4096, 7) |}.

(** The record the scan of [scan_tree] returns for the file in its
    subdirectory. *)
Definition scan_tree_record : FileInfo :=
  mkFileInfo "/r/a/x.txt" "x.txt" "/r/a" "file" (Some ".txt") 1 4.

(** [reaches entries rel n]: the node [n] is found from the listing
    [entries] by following the names [rel], going down only through
    directories that answered [stat] and could be listed. *)
Inductive reaches
  : list ParallelScanner.Node -> list string -> ParallelScanner.Node -> Prop :=
| reaches_here (entries : list ParallelScanner.Node) (n : ParallelScanner.Node) :
    In n entries -> reaches entries [ParallelScanner.node_name n] n
| reaches_below (entries : list ParallelScanner.Node) (name : string)
                (st : Z * Z) (l : list ParallelScanner.Node)
                (rel : list string) (n : ParallelScanner.Node) :
    In (ParallelScanner.DirNode name (Some st) (Some l)) entries ->
    reaches l rel n -> reaches entries (name :: rel) n.

(* ================================================================== *)
(** * Facts about text *)
(* ================================================================== *)

Section TextFacts.

Lemma append_empty_r (s : string) : (s ++ "")%string = s.
Proof. induction s as [|c s IH]; simpl; [reflexivity | now rewrite IH]. Qed.

Lemma append_assoc (a b c : string) :
  ((a ++ b) ++ c)%string = (a ++ (b ++ c))%string.
Proof. induction a as [|x a IH]; simpl; [reflexivity | now rewrite IH]. Qed.

Lemma length_append (a b : string) :
  String.length (a ++ b) = (String.length a + String.length b)%nat.
Proof. induction a as [|x a IH]; simpl; [reflexivity | now rewrite IH]. Qed.

Lemma starts_with_spec (p s : string) :
  Text.starts_with p s = true <-> exists t, s = (p ++ t)%string.
Proof.
  revert s; induction p as [|a p IH]; intros s; simpl.
  - split; [intros _; now exists s | reflexivity].
  - destruct s as [|b s].
    + split; [discriminate | intros [t Ht]; discriminate].
    + rewrite andb_true_iff, Ascii.eqb_eq, IH. split.
      * intros [-> [t ->]]. now exists t.
      * intros [t Ht]. injection Ht as -> ->. split; [reflexivity | now exists t].
Qed.

Lemma contains_spec (q s : string) :
  Text.contains q s = true <-> exists a b, s = (a ++ q ++ b)%string.
Proof.
  induction s as [|c s IH]; simpl.
  - rewrite orb_false_r, starts_with_spec. split.
    + intros [t Ht]. now exists ""%string, t.
    + intros [a [b H]]. destruct a; [now exists b | discriminate].
  - rewrite orb_true_iff, starts_with_spec, IH. split.
    + intros [[t Ht] | [a [b H]]].
      * now exists ""%string, t.
      * exists (String c a), b. simpl. now rewrite H.
    + intros [a [b H]]. destruct a as [|x a]; simpl in H.
      * left. now exists b.
      * right. injection H as _ H. now exists a, b.
Qed.

Lemma fold_case_append (a b : string) :
  Text.fold_case (a ++ b) = (Text.fold_case a ++ Text.fold_case b)%string.
Proof. induction a as [|x a IH]; simpl; [reflexivity | now rewrite IH]. Qed.

Lemma fold_case_length (a : string) :
  String.length (Text.fold_case a) = String.length a.
Proof. induction a as [|x a IH]; simpl; [reflexivity | now rewrite IH]. Qed.

(** A string of folded text splits as the folded text does. *)
Lemma fold_case_split (s : string) (x y : string) :
  Text.fold_case s = (x ++ y)%string ->
  exists a b, s = (a ++ b)%string /\ Text.fold_case a = x /\ Text.fold_case b = y.
Proof.
  revert s; induction x as [|c x IH]; intros s H; simpl in H.
  - exists ""%string, s. auto.
  - destruct s as [|d s]; simpl in H; [discriminate|].
    injection H as Hc H. destruct (IH _ H) as [a [b [-> [Ha Hb]]]].
    exists (String d a), b. simpl. rewrite Ha, Hc. auto.
Qed.

(** [contains_nocase]: some stretch of [s] equals [q] up to letter case. *)
Lemma contains_nocase_spec (q s : string) :
  Text.contains_nocase q s = true <->
  exists a m b, s = (a ++ m ++ b)%string /\ Text.fold_case m = Text.fold_case q.
Proof.
  unfold Text.contains_nocase. rewrite contains_spec. split.
  - intros [x [y H]].
    destruct (fold_case_split _ _ _ H) as [a [r [-> [Ha Hr]]]].
    destruct (fold_case_split _ _ _ Hr) as [m [b [-> [Hm Hb]]]].
    now exists a, m, b.
  - intros [a [m [b [-> Hm]]]].
    exists (Text.fold_case a), (Text.fold_case b).
    now rewrite !fold_case_append, Hm.
Qed.

End TextFacts.

(* ================================================================== *)
(** * Facts about [ORDER BY] and [LIMIT] *)
(* ================================================================== *)

Section RowFacts.
Variable A : Type.
Variable leb : A -> A -> bool.

Lemma insert_row_perm (x : A) (l : list A) :
  Permutation (Sqlite.insert_row leb x l) (x :: l).
Proof.
  induction l as [|y l IH]; simpl; [apply Permutation_refl|].
  destruct (leb x y); [apply Permutation_refl|].
  eapply perm_trans; [apply perm_skip, IH | apply perm_swap].
Qed.

Lemma order_by_perm (l : list A) : Permutation (Sqlite.order_by leb l) l.
Proof.
  induction l as [|x l IH]; simpl; [apply perm_nil|].
  eapply perm_trans; [apply insert_row_perm | now apply perm_skip].
Qed.

Lemma order_by_In (l : list A) (x : A) : In x (Sqlite.order_by leb l) <-> In x l.
Proof.
  split; apply Permutation_in;
    [apply order_by_perm | apply Permutation_sym, order_by_perm].
Qed.

Lemma order_by_length (l : list A) :
  List.length (Sqlite.order_by leb l) = List.length l.
Proof. apply Permutation_length, order_by_perm. Qed.

Lemma limit_In (n : Z) (l : list A) (x : A) : In x (Sqlite.limit n l) -> In x l.
Proof.
  unfold Sqlite.limit. destruct (n <? 0); [trivial|].
  intros H. rewrite <- (firstn_skipn (Z.to_nat n) l). apply in_or_app. now left.
Qed.

Lemma limit_all (n : Z) (l : list A) :
  Z.of_nat (List.length l) <= n -> Sqlite.limit n l = l.
Proof.
  intros H. unfold Sqlite.limit. destruct (n <? 0) eqn:E; [reflexivity|].
  apply firstn_all2. lia.
Qed.

(** A page taken from a window that is at least as long as the page ends:
    the window does not show. *)
Lemma page_of_window (m o : nat) (l : list A) :
  firstn m (skipn o (firstn (m + o) l)) = firstn m (skipn o l).
Proof.
  rewrite skipn_firstn_comm, firstn_firstn.
  replace (Nat.min m (m + o - o)) with m by lia. reflexivity.
Qed.

End RowFacts.

(* ================================================================== *)
(** * The query engine *)
(* ================================================================== *)

Section ResultLoop.
Variables (max_results offset depth : Z) (base : option PurePath.t).

(** The loop of [search] appends to [results] the rows that pass the depth
    test, after leaving out the first [offset - skipped] of them, until
    [max_results] rows are held. *)
Lemma collect_spec (rows : list FileRow) :
  forall (results : list FileRow) (skipped : Z),
    Z.of_nat (List.length results) <= max_results ->
    0 <= skipped <= offset ->
    collect max_results offset base depth rows results skipped =
    results ++
    firstn (Z.to_nat (max_results - Z.of_nat (List.length results)))
           (skipn (Z.to_nat (offset - skipped))
                  (filter (passes_depth base depth) rows)).
Proof.
  induction rows as [|row rest IH]; intros results skipped Hlen Hskip; simpl.
  - now rewrite skipn_nil, firstn_nil, app_nil_r.
  - destruct (Z.of_nat (List.length results) >=? max_results) eqn:Hfull.
    + apply Z.geb_le in Hfull.
      replace (max_results - Z.of_nat (List.length results)) with 0 by lia.
      simpl. now rewrite app_nil_r.
    + rewrite Z.geb_leb in Hfull. apply Z.leb_gt in Hfull.
      unfold passes_depth at 1.
      destruct (depth_rejects base depth row) eqn:Hrej; simpl.
      * now apply IH.
      * destruct (skipped <? offset) eqn:Hoff.
        -- apply Z.ltb_lt in Hoff. rewrite IH by lia.
           replace (Z.to_nat (offset - skipped))
             with (S (Z.to_nat (offset - (skipped + 1)))) by lia.
           reflexivity.
        -- apply Z.ltb_ge in Hoff. rewrite IH.
           ++ replace (offset - skipped) with 0 by lia. simpl.
              rewrite length_app. simpl.
              replace (Z.to_nat (max_results - Z.of_nat (List.length results)))
                with (S (Z.to_nat (max_results
                                   - Z.of_nat (List.length results + 1)))) by lia.
              simpl. now rewrite <- app_assoc.
           ++ rewrite length_app. simpl. lia.
           ++ lia.
Qed.

(** Whatever the bounds, the loop returns only rows it was given and
    that pass the depth test. *)
Lemma collect_In (rows : list FileRow) :
  forall (results : list FileRow) (skipped : Z) (r : FileRow),
    In r (collect max_results offset base depth rows results skipped) ->
    In r results \/ (In r rows /\ depth_rejects base depth r = false).
Proof.
  induction rows as [|row rest IH]; intros results skipped r; simpl.
  - now left.
  - destruct (Z.of_nat (List.length results) >=? max_results); [now left|].
    destruct (depth_rejects base depth row) eqn:Hrej.
    + intros H. destruct (IH _ _ _ H) as [?|[? ?]]; auto.
    + destruct (skipped <? offset); intros H;
        destruct (IH _ _ _ H) as [Hin|[? ?]]; auto.
      apply in_app_or in Hin. destruct Hin as [?|[<-|[]]]; auto.
Qed.

End ResultLoop.

Section Search.
Variables (s : Service) (query : string) (path_filter type_filter : option string).
Variables (max_results depth offset : Z) (sort : string) (ascending : bool).

(** [search] runs the statement built around the lookup chosen by
    [search_lookup] and hands the fetched rows to the result loop. *)
Lemma search_unfold :
  search s query path_filter type_filter max_results depth offset sort ascending =
  (option_map
     (fun rows =>
        collect max_results offset (depth_base path_filter depth) depth rows [] 0)
     (execute (db (snd (search_lookup s query)))
              (build_statement (fst (search_lookup s query)) path_filter type_filter
                               max_results depth offset sort ascending)),
   snd (search_lookup s query)).
Proof. unfold search. now destruct (search_lookup s query). Qed.

(** The branch of [search] on the query, case by case. *)
Lemma search_lookup_cases :
  fst (search_lookup s query) =
  match String.length query with
  | 0%nat => FullScan
  | 1%nat => NameLike ("%" ++ query ++ "%")
  | 2%nat => BigramJoin query
  | _ =>
      if fst (_has_trigram_index s)
      then TrigramMatch (String Text.dquote (query ++ String Text.dquote ""))
      else NameLike ("%" ++ query ++ "%")
  end.
Proof.
  unfold search_lookup.
  destruct query as [|a [|b [|c [|d q]]]]; simpl;
    destruct (_has_trigram_index s) as [available s1]; simpl;
    unfold choose_lookup; simpl;
    rewrite ?andb_false_r, ?andb_true_r; reflexivity.
Qed.

(** The lookup leaves the database as it is; only the cache may be set. *)
Lemma search_lookup_db : db (snd (search_lookup s query)) = db s.
Proof.
  unfold search_lookup, _has_trigram_index.
  destruct query; [reflexivity|].
  destruct (_trigram_available s); reflexivity.
Qed.

(** C2. The lookup of [search] depends on the length of the query and on
    the answer of [_has_trigram_index] only: the whole table for the empty
    query, [name LIKE %q%] for one character, the join with the bigram
    table on [bigram = q] for two characters, and from three characters on
    the FTS match on the quoted query when the trigram index is available
    and [name LIKE %q%] when it is not.  This is the lookup of the
    statement [search] executes. *)
Theorem search_lookup_by_length :
  fst (search_lookup s query) =
  match String.length query with
  | 0%nat => FullScan
  | 1%nat => NameLike ("%" ++ query ++ "%")
  | 2%nat => BigramJoin query
  | _ =>
      if fst (_has_trigram_index s)
      then TrigramMatch (String Text.dquote (query ++ String Text.dquote ""))
      else NameLike ("%" ++ query ++ "%")
  end
  /\ lookup (build_statement (fst (search_lookup s query)) path_filter type_filter
                             max_results depth offset sort ascending)
     = fst (search_lookup s query)
  /\ fst (search s query path_filter type_filter
                  max_results depth offset sort ascending)
     = option_map
         (fun rows =>
            collect max_results offset (depth_base path_filter depth) depth rows [] 0)
         (execute (db s)
                  (build_statement (fst (search_lookup s query)) path_filter
                                   type_filter max_results depth offset sort ascending)).
Proof.
  split; [apply search_lookup_cases | split; [reflexivity|]].
  rewrite search_unfold. cbn [fst]. now rewrite search_lookup_db.
Qed.

End Search.

Section Pagination.
Variables (s : Service) (query : string) (path_filter type_filter : option string).
Variables (max_results depth offset : Z) (sort : string) (ascending : bool).

Lemma filter_passes_no_base (rows : list FileRow) :
  filter (passes_depth None depth) rows = rows.
Proof.
  induction rows as [|r rows IH]; simpl; [reflexivity | now rewrite IH].
Qed.

Lemma limit_prefix (n : Z) (rows : list FileRow) :
  exists rest, rows = Sqlite.limit n rows ++ rest.
Proof.
  unfold Sqlite.limit. destruct (n <? 0).
  - exists []. now rewrite app_nil_r.
  - exists (skipn (Z.to_nat n) rows). now rewrite firstn_skipn.
Qed.

(** C6. With bounds that are not negative, [search] returns at most
    [max_results] rows, and these are the rows that follow the first
    [offset] of the rows that passed the path, type and depth tests, in
    their sorted order: the offset counts filtered rows, not fetched ones.
    The page is complete whenever the depth test is off or the statement
    matches no more rows than the fetch window of 100000. *)
Theorem search_offset_after_filters :
  0 <= max_results -> 0 <= offset ->
  let s1 := snd (search_lookup s query) in
  let st := build_statement (fst (search_lookup s query)) path_filter type_filter
                            max_results depth offset sort ascending in
  let base := depth_base path_filter depth in
  match select_rows (db s1) st with
  | None =>
      fst (search s query path_filter type_filter
                  max_results depth offset sort ascending) = None
  | Some matched =>
      let survivors := filter (passes_depth base depth) matched in
      exists results,
        fst (search s query path_filter type_filter
                    max_results depth offset sort ascending) = Some results
        /\ (List.length results <= Z.to_nat max_results)%nat
        /\ (exists rest, skipn (Z.to_nat offset) survivors = results ++ rest)
        /\ (base = None \/ Z.of_nat (List.length matched) <= 100000 ->
            results = firstn (Z.to_nat max_results)
                             (skipn (Z.to_nat offset) survivors))
  end.
Proof.
  intros Hmax Hoff s1 st base.
  rewrite search_unfold. fold s1 st base. unfold execute. cbn [fst].
  destruct (select_rows (db s1) st) as [matched|]; cbn [option_map];
    [|reflexivity].
  eexists. split; [reflexivity|].
  rewrite collect_spec by (simpl; lia).
  change (List.length (@nil FileRow)) with 0%nat.
  rewrite !Z.sub_0_r. cbn [app].
  split; [apply firstn_le_length|]. split.
  - destruct (limit_prefix (limit_count st) matched) as [tl Htl].
    remember (Sqlite.limit (limit_count st) matched) as window eqn:Hwindow.
    clear Hwindow. subst matched. rewrite filter_app, skipn_app.
    exists (skipn (Z.to_nat max_results)
                  (skipn (Z.to_nat offset) (filter (passes_depth base depth) window))
            ++ skipn (Z.to_nat offset
                      - List.length (filter (passes_depth base depth) window))
                     (filter (passes_depth base depth) tl)).
    now rewrite app_assoc, firstn_skipn.
  - intros Hcomplete. subst base. unfold st, build_statement; cbn [limit_count].
    unfold depth_base in *. rewrite (andb_comm (depth >? 0)).
    destruct (truthy path_filter && (depth >? 0)) eqn:Hdepth.
    + destruct Hcomplete as [Hnone|Hshort]; [discriminate|].
      rewrite limit_all by lia. reflexivity.
    + rewrite !filter_passes_no_base. unfold Sqlite.limit.
      replace (max_results + offset <? 0) with false by (symmetry; apply Z.ltb_ge; lia).
      replace (Z.to_nat (max_results + offset))
        with (Z.to_nat max_results + Z.to_nat offset)%nat by lia.
      apply page_of_window.
Qed.

(** Under a depth bound and a path filter every returned row lies under
    the filter path, at most [depth] components below it. *)
Lemma search_depth_bound (results : list FileRow) (r : FileRow) :
  0 < depth -> truthy path_filter = true ->
  fst (search s query path_filter type_filter
              max_results depth offset sort ascending) = Some results ->
  In r results ->
  exists rel,
    PurePath.relative_to (PurePath.parse (path r))
                         (PurePath.parse (text_of path_filter)) = Some rel
    /\ Z.of_nat (List.length rel) <= depth.
Proof.
  intros Hdepth Hfilter Hsearch Hin.
  rewrite search_unfold in Hsearch. simpl in Hsearch.
  destruct (execute _ _) as [rows|]; [|discriminate].
  injection Hsearch as <-.
  apply collect_In in Hin. destruct Hin as [[]|[_ Hkeep]].
  unfold depth_base in Hkeep. rewrite Hfilter in Hkeep.
  replace (depth >? 0) with true in Hkeep by (symmetry; apply Z.gtb_lt; lia).
  simpl in Hkeep.
  destruct (PurePath.relative_to _ _) as [rel|]; [|discriminate].
  exists rel. split; [reflexivity|].
  rewrite Z.gtb_ltb in Hkeep. apply Z.ltb_ge in Hkeep. exact Hkeep.
Qed.

(** [sort] outside the four column names is read as [name]. *)
Lemma sort_column_default :
  ~ In sort ["name"; "path"; "size"; "mtime"] -> sort_column sort = "name".
Proof.
  intros Hnot. unfold sort_column.
  destruct (existsb (String.eqb sort) ["name"; "path"; "size"; "mtime"]) eqn:E;
    [|reflexivity].
  apply existsb_exists in E. destruct E as [x [Hx Heq]].
  apply String.eqb_eq in Heq. subst x. contradiction.
Qed.

Lemma sort_column_known : exists leb, column_leb (sort_column sort) = Some leb.
Proof.
  unfold sort_column. simpl.
  destruct (String.eqb sort "name") eqn:E1; simpl.
  - apply String.eqb_eq in E1. subst. eexists. reflexivity.
  - destruct (String.eqb sort "path") eqn:E2; simpl.
    + apply String.eqb_eq in E2. subst. eexists. reflexivity.
    + destruct (String.eqb sort "size") eqn:E3; simpl.
      * apply String.eqb_eq in E3. subst. eexists. reflexivity.
      * destruct (String.eqb sort "mtime") eqn:E4; simpl.
        -- apply String.eqb_eq in E4. subst. eexists. reflexivity.
        -- eexists. reflexivity.
Qed.

End Pagination.

(** C7. With [depth > 0] and a path filter, every row [search] returns has
    a path under the filter path with at most [depth] components below it;
    rows for which [relative_to] fails are passed over.  In the scenario with
    entries at depths 1, 2 and 3 under [/r], the empty query with
    [path=/r] and [depth=2] returns exactly the entries at depths 1 and 2. *)
Theorem search_depth_filter :
  (forall (s : Service) (query : string) (path_filter type_filter : option string)
          (max_results depth offset : Z) (sort : string) (ascending : bool)
          (results : list FileRow) (r : FileRow),
      0 < depth -> truthy path_filter = true ->
      fst (search s query path_filter type_filter
                  max_results depth offset sort ascending) = Some results ->
      In r results ->
      exists rel,
        PurePath.relative_to (PurePath.parse (path r))
                             (PurePath.parse (text_of path_filter)) = Some rel
        /\ Z.of_nat (List.length rel) <= depth)
  /\ option_map (map path)
       (fst (search depth_scenario "" (Some "/r") None 100 2 0 "name" true))
     = Some ["/r/a"; "/r/a/b"].
Proof.
  split.
  - intros. eapply search_depth_bound; eassumption.
  - reflexivity.
Qed.

Lemma search_depth_filter_witness :
  exists rel,
    PurePath.relative_to (PurePath.parse "/r/a/b") (PurePath.parse "/r") = Some rel
    /\ Z.of_nat (List.length rel) <= 2.
Proof.
  apply (proj1 search_depth_filter depth_scenario "" (Some "/r") None 100 2 0
               "name" true
               [ mkFileRow 1 "/r/a" "a" "/r" "directory" None 0 10 100;
                 mkFileRow 2 "/r/a/b" "b" "/r/a" "directory" None 0 20 100 ]
               (mkFileRow 2 "/r/a/b" "b" "/r/a" "directory" None 0 20 100)).
  - lia.
  - reflexivity.
  - reflexivity.
  - simpl. auto.
Defined.

Lemma search_offset_after_filters_witness :
  option_map (map path)
    (fst (search depth_scenario "" (Some "/r") None 1 2 1 "name" true))
  = Some ["/r/a/b"].
Proof.
  pose proof (@search_offset_after_filters depth_scenario "" (Some "/r") None
                1 2 1 "name" true ltac:(lia) ltac:(lia)) as H.
  cbv zeta in H.
  change (select_rows
            (db (snd (search_lookup depth_scenario "")))
            (build_statement (fst (search_lookup depth_scenario "")) (Some "/r")
                             None 1 2 1 "name" true))
    with (Some [ mkFileRow 1 "/r/a" "a" "/r" "directory" None 0 10 100;
                 mkFileRow 2 "/r/a/b" "b" "/r/a" "directory" None 0 20 100;
                 mkFileRow 3 "/r/a/b/c" "c" "/r/a/b" "file" (Some "") 7 30 100 ])
    in H.
  destruct H as [results [Hsearch [_ [_ Hpage]]]].
  rewrite Hsearch, Hpage by (right; simpl; lia).
  reflexivity.
Defined.

(** C10. A [sort] argument outside name, path, size and mtime raises
    nothing and gives what [sort = name] gives; the ordering column is
    always one the table has; and the HTTP endpoint maps every sort
    parameter it does not know to name. *)
Theorem search_unknown_sort_is_name :
  forall (s : Service) (query : string) (path_filter type_filter : option string)
         (max_results depth offset : Z) (sort : string) (ascending : bool),
    (~ In sort ["name"; "path"; "size"; "mtime"] ->
     search s query path_filter type_filter max_results depth offset sort ascending
     = search s query path_filter type_filter max_results depth offset "name" ascending)
    /\ (exists leb, column_leb (sort_column sort) = Some leb)
    /\ (~ In sort ["date_modified"; "size"; "path"; "name"] ->
        SearchRouter.sort_column sort = "name").
Proof.
  intros. split; [|split].
  - intros Hnot. unfold search, build_statement.
    rewrite (sort_column_default Hnot). reflexivity.
  - apply sort_column_known.
  - intros Hnot. unfold SearchRouter.sort_column, SearchRouter.dict_get.
    destruct (find _ SearchRouter.sort_mapping) as [kv|] eqn:E; [|reflexivity].
    apply find_some in E. destruct E as [Hin Hkey].
    apply String.eqb_eq in Hkey. exfalso. apply Hnot. rewrite <- Hkey.
    simpl in Hin. simpl.
    destruct Hin as [<-|[<-|[<-|[<-|[]]]]]; simpl; auto.
Qed.

Lemma search_unknown_sort_is_name_witness :
  search depth_scenario "" None None 10 0 0 "date" false
  = search depth_scenario "" None None 10 0 0 "name" false
  /\ SearchRouter.sort_column "mtime" = "name".
Proof.
  split.
  - apply (proj1 (search_unknown_sort_is_name depth_scenario "" None None
                    10 0 0 "date" false)).
    simpl. intros [H|[H|[H|[H|[]]]]]; discriminate H.
  - apply (proj2 (proj2 (search_unknown_sort_is_name depth_scenario "" None None
                           10 0 0 "mtime" false))).
    simpl. intros [H|[H|[H|[H|[]]]]]; discriminate H.
Defined.

(* ================================================================== *)
(** * Entries: the path is a unique key *)
(* ================================================================== *)

Section UniquePath.

(** The number of rows that hold the path [p]. *)
Let path_count (p : string) (rows : list FileRow) : nat :=
  List.length (filter (fun r => String.eqb (path r) p) rows).

(** The row [insert_or_replace] writes. *)
Let new_row (f : FileInfo) (now : Z) (d : Db) : FileRow :=
  mkFileRow (next_rowid (map id (file_metadata d)))
            (fi_path f) (fi_name f) (fi_parent_path f) (fi_file_type f)
            (fi_extension f) (fi_size f) (fi_mtime f) now.

Lemma insert_or_replace_rows (f : FileInfo) (now : Z) (d : Db) :
  file_metadata (insert_or_replace f now d) =
  filter (fun r => negb (String.eqb (path r) (fi_path f))) (file_metadata d)
  ++ [new_row f now d].
Proof. reflexivity. Qed.

Lemma filter_split_length (A : Type) (P : A -> bool) (l : list A) :
  (List.length (filter (fun x => negb (P x)) l) + List.length (filter P l)
   = List.length l)%nat.
Proof.
  induction l as [|x l IH]; simpl; [reflexivity|].
  destruct (P x); simpl; lia.
Qed.

Lemma path_count_insert (f : FileInfo) (now : Z) (d : Db) (p : string) :
  path_count p (file_metadata (insert_or_replace f now d)) =
  if String.eqb (fi_path f) p then 1%nat else path_count p (file_metadata d).
Proof.
  rewrite insert_or_replace_rows. unfold path_count.
  rewrite filter_app, length_app. simpl.
  destruct (String.eqb (fi_path f) p) eqn:E; simpl.
  - apply String.eqb_eq in E. subst p.
    induction (file_metadata d) as [|r rows IH]; simpl; [reflexivity|].
    destruct (String.eqb (path r) (fi_path f)) eqn:E; simpl; [exact IH|].
    rewrite E. exact IH.
  - rewrite Nat.add_0_r. f_equal.
    induction (file_metadata d) as [|r rows IH]; simpl; [reflexivity|].
    destruct (String.eqb (path r) (fi_path f)) eqn:E1; simpl.
    + apply String.eqb_eq in E1. rewrite E1, E. exact IH.
    + now rewrite IH.
Qed.

(** Writing a path that one row holds leaves the number of rows as it was. *)
Lemma insert_or_replace_same_count (f : FileInfo) (now : Z) (d : Db) :
  path_count (fi_path f) (file_metadata d) = 1%nat ->
  List.length (file_metadata (insert_or_replace f now d))
  = List.length (file_metadata d).
Proof.
  intros H. rewrite insert_or_replace_rows, length_app. simpl.
  pose proof (filter_split_length (fun r => String.eqb (path r) (fi_path f))
                                  (file_metadata d)) as Hsplit.
  unfold path_count in H. lia.
Qed.

(** After a batch every path of the batch is held by exactly one row. *)
Lemma batch_paths_once (now : Z) (files done : list FileInfo) :
  forall d,
    (forall g, In g done -> path_count (fi_path g) (file_metadata d) = 1%nat) ->
    forall g, In g (done ++ files) ->
              path_count (fi_path g)
                (file_metadata (fold_left (fun d f => insert_or_replace f now d) files d))
              = 1%nat.
Proof.
  revert done. induction files as [|f files IH]; intros done d Hdone g Hin; simpl.
  - rewrite app_nil_r in Hin. now apply Hdone.
  - apply (IH (done ++ [f])).
    + intros h Hh. rewrite path_count_insert.
      destruct (String.eqb (fi_path f) (fi_path h)) eqn:E; [reflexivity|].
      apply in_app_or in Hh. destruct Hh as [Hh|[<-|[]]]; [now apply Hdone|].
      now rewrite String.eqb_refl in E.
    + now rewrite <- app_assoc.
Qed.

(** A batch whose paths are all held once changes no count. *)
Lemma batch_same_count (now : Z) (all files : list FileInfo) :
  forall d,
    incl files all ->
    (forall g, In g all -> path_count (fi_path g) (file_metadata d) = 1%nat) ->
    List.length
      (file_metadata (fold_left (fun d f => insert_or_replace f now d) files d))
    = List.length (file_metadata d).
Proof.
  induction files as [|f files IH]; intros d Hincl Hall; simpl; [reflexivity|].
  rewrite IH.
  - apply insert_or_replace_same_count, Hall, Hincl. now left.
  - intros g Hg. apply Hincl. now right.
  - intros g Hg. rewrite path_count_insert.
    destruct (String.eqb (fi_path f) (fi_path g)); [reflexivity | now apply Hall].
Qed.

Lemma NoDup_path_count (rows : list FileRow) (old : FileRow) :
  NoDup (map path rows) -> In old rows -> path_count (path old) rows = 1%nat.
Proof.
  unfold path_count. induction rows as [|r rows IH]; intros Hnd Hin; [destruct Hin|].
  simpl in Hnd. apply NoDup_cons_iff in Hnd. destruct Hnd as [Hnot Hnd].
  simpl. destruct Hin as [->|Hin].
  - rewrite String.eqb_refl. simpl. f_equal.
    apply length_zero_iff_nil.
    destruct (filter _ rows) as [|x l] eqn:E; [reflexivity|].
    exfalso. apply Hnot.
    assert (Hx : In x (filter (fun r => String.eqb (path r) (path old)) rows))
      by (rewrite E; now left).
    apply filter_In in Hx. destruct Hx as [Hx Hp].
    apply String.eqb_eq in Hp. rewrite <- Hp. now apply in_map.
  - destruct (String.eqb (path r) (path old)) eqn:E.
    + exfalso. apply Hnot. apply String.eqb_eq in E. rewrite E. now apply in_map.
    + now apply IH.
Qed.

Lemma NoDup_map_filter (A B : Type) (f : A -> B) (P : A -> bool) (l : list A) :
  NoDup (map f l) -> NoDup (map f (filter P l)).
Proof.
  induction l as [|x l IH]; simpl; intros H; [constructor|].
  apply NoDup_cons_iff in H. destruct H as [Hnot H].
  destruct (P x); simpl; [|now apply IH].
  constructor; [|now apply IH].
  intros Hin. apply Hnot. apply in_map_iff in Hin.
  destruct Hin as [y [<- Hy]]. apply filter_In in Hy. apply in_map. tauto.
Qed.

(** [path TEXT UNIQUE] is kept by [INSERT OR REPLACE]. *)
Lemma insert_or_replace_unique (f : FileInfo) (now : Z) (d : Db) :
  NoDup (map path (file_metadata d)) ->
  NoDup (map path (file_metadata (insert_or_replace f now d))).
Proof.
  intros H. rewrite insert_or_replace_rows, map_app. simpl.
  apply NoDup_app; [now apply NoDup_map_filter | repeat constructor; intros [] | ].
  intros p Hp [<-|[]].
  apply in_map_iff in Hp. destruct Hp as [r [Hr Hin]].
  apply filter_In in Hin. destruct Hin as [_ Hne].
  simpl in Hr. rewrite Hr, String.eqb_refl in Hne. discriminate.
Qed.

(** C8. The path is a unique key.  Writing a record whose path an entry
    already holds leaves the number of entries unchanged, the only entry at
    that path is then the new record, and paths stay unique.  Calling
    [batch_add_files] a second time with the same list leaves the count the
    first call produced. *)
Theorem path_is_unique_key :
  (forall (s : Service) (f : FileInfo) (now : Z) (old : FileRow),
      NoDup (map path (file_metadata (db s))) ->
      get_file s (fi_path f) = Some old ->
      get_file_count (add_file f now s) = get_file_count s
      /\ get_file (add_file f now s) (fi_path f)
         = Some (mkFileRow (next_rowid (map id (file_metadata (db s))))
                           (fi_path f) (fi_name f) (fi_parent_path f)
                           (fi_file_type f) (fi_extension f) (fi_size f)
                           (fi_mtime f) now)
      /\ NoDup (map path (file_metadata (db (add_file f now s)))))
  /\ (forall (s : Service) (files : list FileInfo) (now1 now2 : Z),
         get_file_count (batch_add_files files now2 (batch_add_files files now1 s))
         = get_file_count (batch_add_files files now1 s)).
Proof.
  split.
  - intros s f now old Hnd Hold.
    unfold get_file in Hold. apply find_some in Hold. destruct Hold as [Hin Hp].
    apply String.eqb_eq in Hp.
    split; [|split].
    + unfold get_file_count, add_file. simpl.
      apply insert_or_replace_same_count. rewrite <- Hp.
      now apply NoDup_path_count.
    + unfold get_file, add_file. simpl.
      induction (file_metadata (db s)) as [|r rows IH] at 1; simpl.
      * now rewrite String.eqb_refl.
      * destruct (String.eqb (path r) (fi_path f)) eqn:E; simpl; [exact IH|].
        rewrite E. exact IH.
    + unfold add_file. simpl. now apply insert_or_replace_unique.
  - intros s files now1 now2. destruct files as [|f files]; [reflexivity|].
    unfold get_file_count, batch_add_files. cbn [db with_db].
    apply (batch_same_count now2 (all := f :: files)); [apply incl_refl|].
    intros g Hg.
    apply (batch_paths_once now1 (f :: files) []); [intros h []|exact Hg].
Qed.

End UniquePath.

Lemma path_is_unique_key_witness :
  get_file_count
    (add_file (mkFileInfo "/r/a" "a2" "/r" "file" None 5 50) 200 depth_scenario)
  = 3%nat.
Proof.
  rewrite (proj1 (proj1 path_is_unique_key depth_scenario
                        (mkFileInfo "/r/a" "a2" "/r" "file" None 5 50) 200
                        (mkFileRow 1 "/r/a" "a" "/r" "directory" None 0 10 100)
                        ltac:(repeat constructor; simpl; intuition discriminate)
                        eq_refl)).
  reflexivity.
Defined.

(* ================================================================== *)
(** * Watch roots and the admin endpoint *)
(* ================================================================== *)

Section WatchRoots.

Lemma init_db_roots_enabled (tokenizer : bool) : roots_enabled (init_db tokenizer).
Proof. constructor. Qed.

Lemma register_path_roots_enabled (p : string) (now : Z) (s : Service) :
  roots_enabled s -> roots_enabled (register_path p now s).
Proof.
  unfold roots_enabled, register_path. intros H.
  destruct (existsb _ _); [exact H|]. simpl.
  apply Forall_app. split; [exact H | now repeat constructor].
Qed.

Lemma update_path_status_roots_enabled (p status : string) (now : Z) (s : Service) :
  roots_enabled s -> roots_enabled (update_path_status p status now s).
Proof.
  unfold roots_enabled, update_path_status. simpl. intros H.
  apply Forall_map. eapply Forall_impl; [|exact H].
  intros w Hw. now destruct (String.eqb (w_path w) p).
Qed.

Lemma update_path_stats_roots_enabled
      (p : string) (total indexed : option Z) (now : Z) (s : Service) :
  roots_enabled s -> roots_enabled (update_path_stats p total indexed now s).
Proof.
  unfold roots_enabled, update_path_stats. intros H.
  destruct total, indexed; simpl; try exact H;
    (apply Forall_map; eapply Forall_impl; [|exact H];
     intros w Hw; now destruct (String.eqb (w_path w) p)).
Qed.

Lemma remove_path_roots_enabled (p : string) (s : Service) :
  roots_enabled s -> roots_enabled (remove_path p s).
Proof.
  unfold roots_enabled, remove_path. simpl. intros H.
  rewrite Forall_forall in *. intros w Hw. apply filter_In in Hw. now apply H.
Qed.

Lemma find_finds (A : Type) (P : A -> bool) (l : list A) (x : A) :
  In x l -> P x = true -> exists y, find P l = Some y.
Proof.
  induction l as [|a l IH]; intros Hin Hx; [destruct Hin|]. simpl.
  destruct (P a) eqn:E; [now exists a|].
  destruct Hin as [->|Hin]; [congruence | now apply IH].
Qed.

(** An enabled root that covers [p] makes [is_path_indexed] answer yes. *)
Lemma covered_is_indexed (resolve : string -> PurePath.t) (s : Service)
      (p : string) (w : WatchRow) :
  In w (watch_paths (db s)) -> w_enabled w = 1 -> covers resolve (w_path w) p ->
  is_path_indexed resolve s p = true.
Proof.
  intros Hin Hen Hcov. unfold is_path_indexed, get_covering_watch_path.
  match goal with
  | |- context [find ?P ?l] =>
      destruct (@find_finds _ P l w) as [y Hy]
  end.
  - apply order_by_In, filter_In. split; [exact Hin|]. now apply Z.eqb_eq.
  - destruct Hcov as [Heq|[rel Hrel]].
    + rewrite Heq, String.eqb_refl. reflexivity.
    + rewrite Hrel. apply orb_true_r.
  - now rewrite Hy.
Qed.

(** C9. When the requested path exists, is a directory and is covered by
    a registered watch root, [add_path] answers [already_indexed] and leaves
    the application as it was: no row is added to [watch_paths], no status is
    written and no scan is queued. *)
Theorem add_path_already_indexed
        (fs : Admin.FileSystem) (now1 now2 : Z) (app : Admin.App) (p : string)
        (w : WatchRow) :
  roots_enabled (Admin.index_service app) ->
  Admin.fs_exists fs p = true ->
  Admin.fs_is_dir fs p = true ->
  In w (watch_paths (db (Admin.index_service app))) ->
  covers (Admin.fs_resolve fs) (w_path w) p ->
  Admin.add_path fs now1 now2 app p = (Admin.Json p "already_indexed", app).
Proof.
  intros Hen Hex Hdir Hin Hcov. unfold Admin.add_path.
  rewrite Hex, Hdir. simpl.
  rewrite (@covered_is_indexed _ _ _ w); auto.
  unfold roots_enabled in Hen. rewrite Forall_forall in Hen. now apply Hen.
Qed.

End WatchRoots.

Lemma add_path_already_indexed_witness :
  Admin.add_path plain_fs 2 3 covered_app "/r/sub"
  = (Admin.Json "/r/sub" "already_indexed", covered_app).
Proof.
  apply (@add_path_already_indexed plain_fs 2 3 covered_app "/r/sub"
           (mkWatchRow 1 "/r" 1 0 0 "idle" None (Some 1) None)).
  - repeat constructor.
  - reflexivity.
  - reflexivity.
  - simpl. auto.
  - right. exists ["sub"]. reflexivity.
Defined.

(* ================================================================== *)
(** * Ignore rules: the store and the crawler *)
(* ================================================================== *)

Example ignore_scenario_answers :
  is_ignored ignore_scenario "/p/node_modules/x" = true
  /\ is_ignored ignore_scenario "/p/a.pyc" = true
  /\ is_ignored ignore_scenario "/p/__pycache__/a" = true
  /\ is_ignored ignore_scenario "/p/main.py" = false.
Proof. repeat split. Qed.

(** C4 does not hold as stated: with those patterns the crawler ignores
    [/p/.gitignore], whose path string contains the pattern [.git], and the
    store does not, since no component of the path is [.git]. *)
Lemma is_ignored_differs_from_crawler :
  ParallelScanner._should_ignore (get_ignore_patterns ignore_scenario)
                                 (PurePath.parse "/p/.gitignore") = true
  /\ is_ignored ignore_scenario "/p/.gitignore" = false.
Proof. split; reflexivity. Qed.

Section IgnoreRules.

Lemma is_ignored_existsb (s : Service) (p : string) :
  is_ignored s p =
  existsb (pattern_ignores (PurePath.to_str (PurePath.parse p))
                           (PurePath.parts (PurePath.parse p)))
          (get_ignore_patterns s).
Proof. unfold is_ignored. now destruct (get_ignore_patterns s). Qed.

(** C4, as the code has it. [is_ignored] holds exactly when some registered
    pattern matches the whole path string as a glob, or has no separator and
    matches one component of the path as a glob.  The crawler's
    [_should_ignore] holds exactly when some pattern that is not empty
    matches the final name as a glob, equals it, or occurs in the path
    string. *)
Theorem is_ignored_rule (s : Service) (p : string) :
  (is_ignored s p = true <->
   exists pattern,
     In pattern (ignore_patterns (db s))
     /\ (Fnmatch.fnmatch (PurePath.to_str (PurePath.parse p)) pattern = true
         \/ (has_separator pattern = false
             /\ exists part,
                 In part (PurePath.parts (PurePath.parse p))
                 /\ Fnmatch.fnmatch part pattern = true)))
  /\ (forall patterns : list string,
         ParallelScanner._should_ignore patterns (PurePath.parse p) = true <->
         exists pattern,
           In pattern patterns /\ pattern <> ""
           /\ (Fnmatch.fnmatch (PurePath.name (PurePath.parse p)) pattern = true
               \/ PurePath.name (PurePath.parse p) = pattern
               \/ Text.contains pattern (PurePath.to_str (PurePath.parse p)) = true)).
Proof.
  split.
  - rewrite is_ignored_existsb, existsb_exists. unfold get_ignore_patterns.
    split.
    + intros [pattern [Hin Hmatch]]. exists pattern.
      apply order_by_In in Hin. split; [exact Hin|].
      unfold pattern_ignores in Hmatch. apply orb_true_iff in Hmatch.
      destruct Hmatch as [H|H]; [now left|right].
      apply andb_true_iff in H. destruct H as [Hsep Hparts].
      apply negb_true_iff in Hsep. split; [exact Hsep|].
      now apply existsb_exists in Hparts.
    + intros [pattern [Hin Hmatch]]. exists pattern.
      split; [now apply order_by_In|].
      unfold pattern_ignores. apply orb_true_iff.
      destruct Hmatch as [H|[Hsep Hparts]]; [now left|right].
      rewrite Hsep. simpl. now apply existsb_exists.
  - intros patterns. unfold ParallelScanner._should_ignore.
    rewrite existsb_exists. split.
    + intros [pattern [Hin Hmatch]]. exists pattern. split; [exact Hin|].
      unfold ParallelScanner.pattern_ignores in Hmatch.
      destruct pattern as [|c pattern]; [discriminate|].
      split; [discriminate|].
      apply orb_true_iff in Hmatch. destruct Hmatch as [H|H]; [|now right; right].
      apply orb_true_iff in H. destruct H as [H|H]; [now left|].
      right; left. now apply String.eqb_eq.
    + intros [pattern [Hin [Hne Hmatch]]]. exists pattern. split; [exact Hin|].
      unfold ParallelScanner.pattern_ignores.
      destruct pattern as [|c pattern]; [contradiction|].
      destruct Hmatch as [H|[H|H]].
      * now rewrite H.
      * rewrite H, String.eqb_refl. apply orb_true_iff. left. apply orb_true_r.
      * rewrite H. apply orb_true_r.
Qed.

End IgnoreRules.

(* ================================================================== *)
(** * Removing a watch root *)
(* ================================================================== *)

Section RemovePath.

(** The two unfoldings of [LIKE] at a pattern that is not empty. *)
Lemma like_any (pattern text : string) :
  Sqlite.like (String "%" pattern) text =
  Sqlite.like pattern text
  || match text with
     | EmptyString => false
     | String _ text' => Sqlite.like (String "%" pattern) text'
     end.
Proof. destruct text; reflexivity. Qed.

Lemma like_one (c : ascii) (pattern text : string) :
  Ascii.eqb c "%" = false ->
  Sqlite.like (String c pattern) text =
  match text with
  | EmptyString => false
  | String d text' =>
      (Ascii.eqb c "_" || Ascii.eqb (Text.lower c) (Text.lower d))
      && Sqlite.like pattern text'
  end.
Proof. intros H. simpl. rewrite H. destruct text; reflexivity. Qed.

Lemma like_percent (text : string) : Sqlite.like "%" text = true.
Proof.
  induction text as [|c text IH]; [reflexivity|].
  rewrite like_any. rewrite IH. apply orb_true_r.
Qed.

(** [r%] matches every text that begins with [r], whatever [r] holds. *)
Lemma like_prefix (r t : string) : Sqlite.like (r ++ "%") (r ++ t) = true.
Proof.
  induction r as [|c r IH]; cbn [append].
  - apply like_percent.
  - destruct (Ascii.eqb c "%") eqn:E.
    + apply Ascii.eqb_eq in E. subst c.
      rewrite like_any, (like_any (r ++ "%") (r ++ t)), IH.
      apply orb_true_r.
    + rewrite like_one by exact E.
      rewrite Ascii.eqb_refl, orb_true_r. exact IH.
Qed.

Lemma delete_where_rows (cond : FileRow -> bool) (d : Db) :
  file_metadata (delete_where cond d)
  = filter (fun r => negb (cond r)) (file_metadata d).
Proof. reflexivity. Qed.

(** What [remove_path] does remove: every entry whose path or parent path
    begins with the root, and the row of the root. *)
Lemma remove_path_deletes_subtree (p : string) (s : Service) :
  (forall r, In r (file_metadata (db (remove_path p s))) ->
             In r (file_metadata (db s))
             /\ Text.starts_with p (path r) = false
             /\ Text.starts_with p (parent_path r) = false)
  /\ (forall w, In w (watch_paths (db (remove_path p s))) ->
                In w (watch_paths (db s)) /\ w_path w <> p).
Proof.
  split.
  - intros r Hin. unfold remove_path in Hin. simpl in Hin.
    apply filter_In in Hin. destruct Hin as [Hin Hkeep].
    split; [exact Hin|].
    apply negb_true_iff, orb_false_iff in Hkeep. destruct Hkeep as [H1 H2].
    split.
    + destruct (Text.starts_with p (path r)) eqn:E; [|reflexivity].
      apply starts_with_spec in E. destruct E as [t Ht].
      rewrite Ht, like_prefix in H1. discriminate.
    + destruct (Text.starts_with p (parent_path r)) eqn:E; [|reflexivity].
      apply starts_with_spec in E. destruct E as [t Ht].
      rewrite Ht, like_prefix in H2. discriminate.
  - intros w Hin. unfold remove_path in Hin. simpl in Hin.
    apply filter_In in Hin. destruct Hin as [Hin Hne].
    split; [exact Hin|]. apply negb_true_iff, String.eqb_neq in Hne. exact Hne.
Qed.

End RemovePath.

(** C5 fails on the code: removing the root [/data/a_c] also deletes the
    entry [/data/abc/y.txt], although neither its path nor its parent path
    begins with [/data/a_c]; the underscore of the root is read by [LIKE] as a
    wildcard. *)
Theorem remove_path_deletes_unrelated_entry :
  Text.starts_with "/data/a_c" "/data/abc/y.txt" = false
  /\ Text.starts_with "/data/a_c" "/data/abc" = false
  /\ get_file sibling_scenario "/data/abc/y.txt"
     = Some (mkFileRow 2 "/data/abc/y.txt" "y.txt" "/data/abc" "file"
                       (Some ".txt") 2 20 100)
  /\ get_file (remove_path "/data/a_c" sibling_scenario) "/data/abc/y.txt" = None
  /\ get_file_count (remove_path "/data/a_c" sibling_scenario) = 0%nat.
Proof. repeat split. Qed.

(* ================================================================== *)
(** * N-grams, [LIKE] and phrases *)
(* ================================================================== *)

Section NGrams.

Lemma take_spec (n : nat) :
  forall s w, Text.take n s = Some w <->
              String.length w = n /\ Text.starts_with w s = true.
Proof.
  induction n as [|n IH]; intros s w; simpl.
  - split.
    + intros H. injection H as <-. now split.
    + intros [Hlen _]. destruct w; [reflexivity | discriminate].
  - destruct s as [|c s].
    + split; [discriminate|]. intros [Hlen Hpre].
      destruct w; [discriminate | discriminate Hpre].
    + destruct (Text.take n s) as [v|] eqn:E.
      * apply IH in E. destruct E as [Hlen Hpre]. split.
        -- intros H. injection H as <-. simpl.
           rewrite Hlen, Ascii.eqb_refl, Hpre. now split.
        -- intros [Hw Hstart]. destruct w as [|d w]; [discriminate|].
           simpl in Hw, Hstart. apply andb_true_iff in Hstart.
           destruct Hstart as [Hd Hstart]. apply Ascii.eqb_eq in Hd. subst d.
           assert (Hv : Text.take n s = Some w)
             by (apply IH; split; [now injection Hw | exact Hstart]).
           assert (Hv' : Text.take n s = Some v) by (apply IH; now split).
           congruence.
      * split; [discriminate|]. intros [Hw Hstart].
        destruct w as [|d w]; [discriminate|].
        simpl in Hw, Hstart. apply andb_true_iff in Hstart.
        destruct Hstart as [_ Hstart].
        assert (Hv : Text.take n s = Some w)
          by (apply IH; split; [now injection Hw | exact Hstart]).
        congruence.
Qed.

Lemma take_none (n : nat) :
  forall s, Text.take n s = None <-> (String.length s < n)%nat.
Proof.
  induction n as [|n IH]; intros s; simpl.
  - split; [discriminate | lia].
  - destruct s as [|c s]; simpl.
    + split; [lia | reflexivity].
    + specialize (IH s). destruct (Text.take n s).
      * split; [discriminate|]. intros H.
        assert (Hn : Some s0 = None) by (apply IH; lia). discriminate Hn.
      * split; [|reflexivity]. intros _.
        assert ((String.length s < n)%nat) by now apply IH. lia.
Qed.

Lemma starts_with_length (w s : string) :
  Text.starts_with w s = true -> (String.length w <= String.length s)%nat.
Proof.
  intros H. apply starts_with_spec in H. destruct H as [t ->].
  rewrite length_append. lia.
Qed.

Lemma contains_length (w s : string) :
  Text.contains w s = true -> (String.length w <= String.length s)%nat.
Proof.
  intros H. apply contains_spec in H. destruct H as [a [b ->]].
  rewrite !length_append. lia.
Qed.

(** The windows of [n] characters of [s] are the substrings of [s] of
    length [n]. *)
Lemma windows_In (n : nat) (w s : string) :
  In w (Text.windows n s) <-> String.length w = n /\ Text.contains w s = true.
Proof.
  induction s as [|c s IH].
  - cbn [Text.windows Text.contains]. rewrite orb_false_r.
    destruct (Text.take n "") as [v|] eqn:E.
    + assert (Hv := E). apply take_spec in Hv. split.
      * intros [<-|[]]. exact Hv.
      * intros Hw. left. apply take_spec in Hw. congruence.
    + split; [intros []|]. intros Hw. apply take_spec in Hw. congruence.
  - cbn [Text.windows Text.contains].
    destruct (Text.take n (String c s)) as [v|] eqn:E.
    + assert (Hv := E). apply take_spec in Hv. destruct Hv as [Hlen Hpre].
      simpl In. rewrite IH, orb_true_iff. split.
      * intros [<-|[Hw Hc]]; [split; auto | split; auto].
      * intros [Hw [Hc|Hc]]; [left | right; now split].
        assert (Hw' : Text.take n (String c s) = Some w)
          by (apply take_spec; now split).
        congruence.
    + split; [intros []|]. intros [Hw Hc].
      apply take_none in E.
      assert (Hle : (String.length w <= String.length (String c s))%nat).
      { apply contains_length. cbn [Text.contains]. exact Hc. }
      lia.
Qed.

End NGrams.

Section Matching.

Lemma has_char_cons (c d : ascii) (s : string) :
  Text.has_char c (String d s) = false ->
  Ascii.eqb d c = false /\ Text.has_char c s = false.
Proof.
  simpl. intros H. apply orb_false_iff in H. destruct H as [H1 H2].
  split; [now rewrite Ascii.eqb_sym | exact H2].
Qed.

(** A pattern [q%] whose [q] has no wildcard matches the texts that begin
    with [q] up to letter case. *)
Lemma like_literal_prefix (q : string) :
  Text.has_char "%" q = false -> Text.has_char "_" q = false ->
  forall s, Sqlite.like (q ++ "%") s
            = Text.starts_with (Text.fold_case q) (Text.fold_case s).
Proof.
  induction q as [|c q IH]; intros Hp Hu s; cbn [append Text.fold_case].
  - now rewrite like_percent.
  - apply has_char_cons in Hp. destruct Hp as [Hcp Hp].
    apply has_char_cons in Hu. destruct Hu as [Hcu Hu].
    rewrite like_one by exact Hcp.
    destruct s as [|d s]; [reflexivity|].
    cbn [Text.fold_case Text.starts_with].
    now rewrite Hcu, IH.
Qed.

(** [name LIKE %q%] for a query without wildcard: [q] occurs in the name
    up to letter case. *)
Lemma like_contains (q : string) :
  Text.has_char "%" q = false -> Text.has_char "_" q = false ->
  forall s, Sqlite.like ("%" ++ q ++ "%") s = Text.contains_nocase q s.
Proof.
  intros Hp Hu s. unfold Text.contains_nocase.
  change ("%" ++ q ++ "%")%string with (String "%" (q ++ "%")).
  induction s as [|d s IH]; rewrite like_any, like_literal_prefix by assumption.
  - reflexivity.
  - cbn [Text.fold_case Text.contains]. now rewrite IH.
Qed.

(** The quoted query is one string token when the query has no double
    quote. *)
Lemma parse_quoted (q : string) :
  Text.has_char Text.dquote q = false ->
  Sqlite.parse_phrase (String Text.dquote (q ++ String Text.dquote "")) = Some q.
Proof.
  intros H. unfold Sqlite.parse_phrase. rewrite Ascii.eqb_refl.
  induction q as [|c q IH]; cbn [append Sqlite.phrase_body].
  - now rewrite Ascii.eqb_refl.
  - apply has_char_cons in H. destruct H as [Hc H].
    rewrite Hc, (IH H). reflexivity.
Qed.

End Matching.

(* ================================================================== *)
(** * The n-gram indexes *)
(* ================================================================== *)

Section Lookups.

Lemma same_id_same_row (rows : list FileRow) (a b : FileRow) :
  NoDup (map id rows) -> In a rows -> In b rows -> id a = id b -> a = b.
Proof.
  induction rows as [|r rows IH]; intros Hnd Ha Hb Hid; [destruct Ha|].
  simpl in Hnd. apply NoDup_cons_iff in Hnd. destruct Hnd as [Hnot Hnd].
  destruct Ha as [<-|Ha], Hb as [<-|Hb]; auto.
  - exfalso. apply Hnot. rewrite Hid. now apply in_map.
  - exfalso. apply Hnot. rewrite <- Hid. now apply in_map.
Qed.

Lemma filter_all (A : Type) (P : A -> bool) (l : list A) :
  (forall x, In x l -> P x = true) -> filter P l = l.
Proof.
  induction l as [|x l IH]; intros H; simpl; [reflexivity|].
  rewrite (H x) by now left. f_equal. apply IH. intros y Hy. apply H. now right.
Qed.

(** A search without filters, depth or offset, and with room for every
    row, returns the rows of its lookup, sorted. *)
Lemma search_unfiltered (t : Service) (q : string) (max_results : Z)
      (sort : string) (ascending : bool) (rows : list FileRow) :
  run_lookup (db (snd (search_lookup t q))) (fst (search_lookup t q)) = Some rows ->
  Z.of_nat (List.length rows) <= max_results ->
  exists results,
    fst (search t q None None max_results 0 0 sort ascending) = Some results
    /\ forall e, In e results <-> In e rows.
Proof.
  intros Hrun Hlen. rewrite search_unfold. cbn [fst].
  unfold execute, select_rows, build_statement.
  cbn [lookup order_column order_ascending limit_count path_like type_eq truthy
       andb depth_base].
  rewrite Hrun. destruct (sort_column_known sort) as [leb Hleb]. rewrite Hleb.
  cbn [option_map].
  rewrite filter_all by reflexivity.
  change (0 >? 0) with false. cbn [andb].
  rewrite limit_all by (rewrite order_by_length; lia).
  rewrite collect_spec by (simpl; lia).
  change (List.length (@nil FileRow)) with 0%nat.
  rewrite !Z.sub_0_r. cbn [app Z.to_nat skipn].
  rewrite filter_passes_no_base.
  rewrite firstn_all2 by (rewrite order_by_length; lia).
  eexists. split; [reflexivity|]. intros e. apply order_by_In.
Qed.

(** The bigrams of a name are its substrings of two characters. *)
Lemma extract_bigrams_In (g n : string) :
  In g (_extract_bigrams n) <-> String.length g = 2%nat /\ Text.contains g n = true.
Proof.
  unfold _extract_bigrams. destruct (Nat.ltb (String.length n) 2) eqn:E.
  - apply Nat.ltb_lt in E. split; [intros []|]. intros [Hg Hc].
    apply contains_length in Hc. lia.
  - apply windows_In.
Qed.

(** The rows [rebuild_bigram_index] writes. *)
Lemma rebuilt_bigrams_In (rows : list FileRow) (i : Z) (g : string) :
  In (i, g) (flat_map bigram_rows_of rows) <->
  exists r, In r rows /\ id r = i /\ In g (_extract_bigrams (name r)).
Proof.
  rewrite in_flat_map. split.
  - intros [r [Hr Hin]]. exists r. split; [exact Hr|].
    unfold bigram_rows_of in Hin. apply in_map_iff in Hin.
    destruct Hin as [bg [Heq Hbg]]. injection Heq as <- <-.
    split; [reflexivity|]. unfold Text.unique in Hbg. now apply nodup_In in Hbg.
  - intros [r [Hr [<- Hg]]]. exists r. split; [exact Hr|].
    unfold bigram_rows_of. apply in_map_iff. exists g. split; [reflexivity|].
    unfold Text.unique. now apply nodup_In.
Qed.

(** The join of the entries with the bigram table on [bigram = q]. *)
Lemma bigram_join_In (d : Db) (q : string) (rows : list FileRow) (e : FileRow) :
  run_lookup d (BigramJoin q) = Some rows ->
  (In e rows <->
   In e (file_metadata d) /\ In (id e, q) (file_name_bigrams d)).
Proof.
  simpl. intros H. injection H as <-.
  rewrite nodup_In, in_flat_map. split.
  - intros [m [Hm Hin]]. apply in_flat_map in Hin.
    destruct Hin as [[i g] [Hb Hin]]. simpl in Hin.
    destruct (Z.eqb (id m) i && String.eqb g q) eqn:E; [|destruct Hin].
    destruct Hin as [<-|[]].
    apply andb_true_iff in E. destruct E as [Hi Hg].
    apply Z.eqb_eq in Hi. apply String.eqb_eq in Hg. subst. now split.
  - intros [He Hb]. exists e. split; [exact He|].
    apply in_flat_map. exists (id e, q). split; [exact Hb|]. simpl.
    rewrite Z.eqb_refl, String.eqb_refl. now left.
Qed.

Lemma bigram_join_length (d : Db) (q : string) (rows : list FileRow) :
  run_lookup d (BigramJoin q) = Some rows ->
  (List.length rows <= List.length (file_metadata d))%nat.
Proof.
  intros H. apply NoDup_incl_length.
  - simpl in H. injection H as <-. apply NoDup_nodup.
  - intros e He. now apply (bigram_join_In e H) in He.
Qed.

End Lookups.

Section TrigramLookup.
Variable pm : string -> bool.

Lemma doc_eqb_eq (a b : Z * string) : doc_eqb a b = true <-> a = b.
Proof.
  destruct a as [i n], b as [j m]. unfold doc_eqb. simpl.
  rewrite andb_true_iff, Z.eqb_eq, String.eqb_eq. split.
  - now intros [-> ->].
  - intros H. injection H as -> ->. now split.
Qed.

(** What is left of the index after [DELETE FROM file_name_index]: no
    document of a row of the content table. *)
Lemma fts_delete_all_In (rows : list FileRow) :
  forall docs d,
    In d (fts_delete_all rows docs) ->
    In d docs /\ forall r, In r rows -> d <> doc_of r.
Proof.
  unfold fts_delete_all.
  induction rows as [|r rows IH]; intros docs d Hin; simpl in Hin.
  - split; [exact Hin | intros r []].
  - apply IH in Hin. destruct Hin as [Hin Hrest].
    unfold fts_delete in Hin. apply filter_In in Hin. destruct Hin as [Hin Hne].
    split; [exact Hin|]. intros r' [<-|Hr']; [|now apply Hrest].
    intros ->. rewrite (proj2 (doc_eqb_eq _ _) eq_refl) in Hne. discriminate.
Qed.

Lemma flat_map_nil (A B : Type) (f : A -> list B) (l : list A) :
  (forall x, In x l -> f x = []) -> flat_map f l = [].
Proof.
  induction l as [|x l IH]; intros H; simpl; [reflexivity|].
  rewrite (H x) by now left. apply IH. intros y Hy. apply H. now right.
Qed.

Lemma flat_map_filter (A : Type) (f : A -> list A) (P : A -> bool) (l : list A) :
  (forall x, In x l -> f x = if P x then [x] else []) -> flat_map f l = filter P l.
Proof.
  induction l as [|x l IH]; intros H; simpl; [reflexivity|].
  rewrite (H x) by now left.
  rewrite IH by (intros y Hy; apply H; now right).
  now destruct (P x).
Qed.

(** Among the documents of the entries, an entry joins its own only. *)
Lemma join_own_doc (rows : list FileRow) (m : FileRow) :
  NoDup (map id rows) -> In m rows ->
  flat_map (fun fi => if Z.eqb (id m) (fst fi) && pm (snd fi) then [m] else [])
           (map doc_of rows)
  = if pm (name m) then [m] else [].
Proof.
  induction rows as [|r rows IH]; intros Hnd Hin; [destruct Hin|].
  simpl in Hnd. apply NoDup_cons_iff in Hnd. destruct Hnd as [Hnot Hnd].
  cbn [map flat_map doc_of fst snd].
  destruct Hin as [->|Hin].
  - rewrite Z.eqb_refl. cbn [andb].
    rewrite flat_map_nil; [now rewrite app_nil_r|].
    intros fi Hfi. apply in_map_iff in Hfi. destruct Hfi as [r [<- Hr]]. simpl.
    destruct (Z.eqb (id m) (id r)) eqn:E; [|reflexivity].
    exfalso. apply Hnot. apply Z.eqb_eq in E. rewrite E. now apply in_map.
  - destruct (Z.eqb (id m) (id r)) eqn:E.
    + exfalso. apply Hnot. apply Z.eqb_eq in E. rewrite <- E. now apply in_map.
    + cbn [andb app]. now apply IH.
Qed.

(** After [rebuild_trigram_index] on an index without stale documents,
    the join with the index selects the entries whose own name matches. *)
Lemma join_rebuilt_index (rows : list FileRow) (docs : list (Z * string)) :
  NoDup (map id rows) -> docs_fresh rows docs ->
  flat_map
    (fun m =>
       flat_map (fun fi => if Z.eqb (id m) (fst fi) && pm (snd fi) then [m] else [])
                (fts_delete_all rows docs ++ map doc_of rows))
    rows
  = filter (fun r => pm (name r)) rows.
Proof.
  intros Hnd Hfresh. apply flat_map_filter. intros m Hm.
  rewrite flat_map_app, join_own_doc by assumption.
  rewrite flat_map_nil; [reflexivity|].
  intros fi Hfi. apply fts_delete_all_In in Hfi. destruct Hfi as [Hin Hgone].
  destruct (Z.eqb (id m) (fst fi)) eqn:E; [|reflexivity].
  exfalso. apply Z.eqb_eq in E. apply (Hgone m Hm).
  destruct fi as [i n]. unfold doc_of. simpl in E. subst i. f_equal.
  now apply (Hfresh (id m, n) m).
Qed.

End TrigramLookup.

Section Rebuild.
Variable s : Service.

Let rebuilt : Service := rebuild_indexes s.

Lemma rebuilt_rows : file_metadata (db rebuilt) = file_metadata (db s).
Proof.
  unfold rebuilt, rebuild_indexes, rebuild_bigram_index, rebuild_trigram_index,
    _has_trigram_index.
  destruct (_trigram_available s) as [[|]|]; simpl;
    destruct (file_name_index (db s)); reflexivity.
Qed.

Lemma rebuilt_bigrams :
  file_name_bigrams (db rebuilt) = flat_map bigram_rows_of (file_metadata (db s)).
Proof.
  unfold rebuilt, rebuild_indexes, rebuild_bigram_index, rebuild_trigram_index,
    _has_trigram_index.
  destruct (_trigram_available s) as [[|]|]; simpl;
    destruct (file_name_index (db s)); reflexivity.
Qed.

(** After the two rebuilds the trigram index is either in use and holds,
    besides documents of no entry, the documents of the entries, or it is
    not in use. *)
Lemma rebuilt_trigram :
  (_trigram_available s = Some true -> file_name_index (db s) <> None) ->
  (fst (_has_trigram_index rebuilt) = true
   /\ exists docs,
       file_name_index (db s) = Some docs
       /\ file_name_index (db rebuilt)
          = Some (fts_delete_all (file_metadata (db s)) docs
                  ++ map doc_of (file_metadata (db s))))
  \/ fst (_has_trigram_index rebuilt) = false.
Proof.
  intros Hcache.
  unfold rebuilt, rebuild_indexes, rebuild_bigram_index, rebuild_trigram_index,
    _has_trigram_index.
  destruct (_trigram_available s) as [[|]|] eqn:Ecache; simpl.
  - destruct (file_name_index (db s)) as [docs|] eqn:Eindex.
    + left. simpl. rewrite Ecache. split; [reflexivity|]. now exists docs.
    + exfalso. now apply Hcache.
  - right. now rewrite Ecache.
  - destruct (file_name_index (db s)) as [docs|] eqn:Eindex; simpl.
    + left. split; [reflexivity|]. exists docs. split; reflexivity.
    + right. reflexivity.
Qed.

End Rebuild.

Example bigram_query_scenario :
  option_map (map name)
    (fst (search (rebuild_indexes hello_scenario) "he" None None 100 0 0 "name" true))
  = Some ["hello.txt"; "help.md"].
Proof. reflexivity. Qed.

Example trigram_query_scenario :
  option_map (map name)
    (fst (search (rebuild_indexes hello_scenario) "hel" None None 100 0 0 "name" true))
  = Some ["hello.txt"; "help.md"].
Proof. reflexivity. Qed.


Section NGramSearch.
Variables (s : Service) (q : string) (max_results : Z) (sort : string)
          (ascending : bool).
Hypothesis Hsound : index_sound s.
Hypothesis Hroom : Z.of_nat (get_file_count s) <= max_results.

Let t : Service := rebuild_indexes s.

Lemma plain_query_chars :
  plain_query q = true ->
  Text.has_char Text.dquote q = false
  /\ Text.has_char "%" q = false /\ Text.has_char "_" q = false.
Proof.
  unfold plain_query. intros H.
  apply andb_true_iff in H. destruct H as [H H3].
  apply andb_true_iff in H. destruct H as [H1 H2].
  now rewrite negb_true_iff in H1, H2, H3.
Qed.

Lemma filter_length_le (P : FileRow -> bool) (rows : list FileRow) :
  (List.length (filter P rows) <= List.length rows)%nat.
Proof.
  induction rows as [|r rows IH]; simpl; [lia|]. destruct (P r); simpl; lia.
Qed.

(** Two characters: the bigram join finds the entries whose name contains
    the query. *)
Lemma bigram_search_after_rebuild :
  String.length q = 2%nat ->
  exists results,
    fst (search t q None None max_results 0 0 sort ascending) = Some results
    /\ forall e, In e results <->
                 In e (file_metadata (db s)) /\ Text.contains q (name e) = true.
Proof.
  intros Hlen. destruct Hsound as [Hnd _].
  pose proof (rebuilt_rows s) as Hrows. pose proof (rebuilt_bigrams s) as Hbig.
  cbv zeta in Hrows, Hbig. fold t in Hrows, Hbig.
  assert (Hlk : fst (search_lookup t q) = BigramJoin q)
    by (rewrite search_lookup_cases, Hlen; reflexivity).
  destruct (run_lookup (db t) (BigramJoin q)) as [rows|] eqn:Hrun;
    [|discriminate Hrun].
  destruct (@search_unfiltered t q max_results sort ascending rows)
    as [results [Hsearch Hin]].
  - now rewrite Hlk, search_lookup_db.
  - pose proof (bigram_join_length Hrun) as Hle. rewrite Hrows in Hle.
    unfold get_file_count in Hroom. lia.
  - exists results. split; [exact Hsearch|]. intros e.
    rewrite Hin, (bigram_join_In e Hrun), Hrows, Hbig, rebuilt_bigrams_In.
    split.
    + intros [He [r [Hr [Hid Hg]]]]. split; [exact He|].
      assert (r = e) by now apply (@same_id_same_row (file_metadata (db s))).
      subst r. now apply extract_bigrams_In in Hg.
    + intros [He Hc]. split; [exact He|]. exists e.
      split; [exact He|]. split; [reflexivity|]. now apply extract_bigrams_In.
Qed.

(** Three characters, none of them a double quote or a [LIKE] wildcard:
    the trigram match, and the [LIKE] scan that stands in for it, find the
    entries whose name contains the query up to letter case. *)
Lemma trigram_search_after_rebuild :
  String.length q = 3%nat -> plain_query q = true ->
  exists results,
    fst (search t q None None max_results 0 0 sort ascending) = Some results
    /\ forall e, In e results <->
                 In e (file_metadata (db s))
                 /\ Text.contains_nocase q (name e) = true.
Proof.
  intros Hlen Hplain. destruct Hsound as [Hnd [Hfresh Hcache]].
  apply plain_query_chars in Hplain. destruct Hplain as [Hq [Hp Hu]].
  pose proof (rebuilt_rows s) as Hrows. cbv zeta in Hrows. fold t in Hrows.
  destruct (rebuilt_trigram s Hcache) as [[Hav [docs [Hdocs Hidx]]]|Hav];
    fold t in Hav; try fold t in Hidx.
  - assert (Hlk : fst (search_lookup t q)
                  = TrigramMatch (String Text.dquote (q ++ String Text.dquote "")))
      by (rewrite search_lookup_cases, Hlen, Hav; reflexivity).
    destruct (@search_unfiltered t q max_results sort ascending
                (filter (fun r => Sqlite.phrase_match q (name r))
                        (file_metadata (db s))))
      as [results [Hsearch Hin]].
    + rewrite Hlk, search_lookup_db. unfold run_lookup.
      rewrite Hidx, (parse_quoted _ Hq), Hrows.
      now rewrite join_rebuilt_index by auto.
    + pose proof (filter_length_le (fun r => Sqlite.phrase_match q (name r))
                                   (file_metadata (db s))).
      unfold get_file_count in Hroom. lia.
    + exists results. split; [exact Hsearch|]. intros e.
      rewrite Hin, filter_In. unfold Sqlite.phrase_match. rewrite Hlen.
      reflexivity.
  - assert (Hlk : fst (search_lookup t q) = NameLike ("%" ++ q ++ "%"))
      by (rewrite search_lookup_cases, Hlen, Hav; reflexivity).
    destruct (@search_unfiltered t q max_results sort ascending
                (filter (fun r => Sqlite.like ("%" ++ q ++ "%") (name r))
                        (file_metadata (db s))))
      as [results [Hsearch Hin]].
    + rewrite Hlk, search_lookup_db. unfold run_lookup. now rewrite Hrows.
    + pose proof (filter_length_le
                    (fun r => Sqlite.like ("%" ++ q ++ "%") (name r))
                    (file_metadata (db s))).
      unfold get_file_count in Hroom. lia.
    + exists results. split; [exact Hsearch|]. intros e.
      rewrite Hin, filter_In. now rewrite like_contains.
Qed.

End NGramSearch.

Section Growth.

Lemma next_rowid_above (ids : list Z) (i : Z) : In i ids -> i < next_rowid ids.
Proof.
  unfold next_rowid. induction ids as [|j ids IH]; intros Hin; [destruct Hin|].
  simpl. destruct Hin as [->|Hin]; [lia|]. specialize (IH Hin). lia.
Qed.

Lemma next_rowid_mono (ids ids' : list Z) :
  incl ids ids' -> next_rowid ids <= next_rowid ids'.
Proof.
  unfold next_rowid. induction ids as [|j ids IH]; intros Hincl; simpl.
  - assert (0 <= fold_right Z.max 0 ids').
    { clear. induction ids'; simpl; lia. }
    lia.
  - assert (Hj : j < next_rowid ids') by (apply next_rowid_above, Hincl; now left).
    unfold next_rowid in Hj.
    assert (fold_right Z.max 0 ids + 1 <= fold_right Z.max 0 ids' + 1).
    { apply IH. intros x Hx. apply Hincl. now right. }
    lia.
Qed.

Lemma init_db_grown (tokenizer : bool) : db_grown (db (init_db tokenizer)).
Proof.
  split; [constructor|]. simpl. intros docs H doc Hin.
  destruct tokenizer; [|discriminate]. injection H as <-. destruct Hin.
Qed.

Lemma insert_or_replace_grown (f : FileInfo) (now : Z) (d : Db) :
  db_grown d -> db_grown (insert_or_replace f now d).
Proof.
  intros [Hnd Hdocs].
  set (keep := filter (fun r => negb (String.eqb (path r) (fi_path f)))
                      (file_metadata d)).
  set (n := next_rowid (map id (file_metadata d))).
  assert (Hkeep : forall r, In r keep -> In r (file_metadata d))
    by (intros r Hr; now apply filter_In in Hr).
  assert (Hbelow : forall r, In r keep -> id r < n).
  { intros r Hr. apply next_rowid_above, in_map. now apply Hkeep. }
  assert (Hn : n < next_rowid (map id (file_metadata (insert_or_replace f now d)))).
  { apply next_rowid_above. simpl. rewrite map_app. apply in_or_app. right.
    now left. }
  split.
  - simpl. rewrite map_app. simpl.
    apply NoDup_app; [now apply NoDup_map_filter | repeat constructor; intros [] | ].
    intros i Hi [<-|[]]. apply in_map_iff in Hi. destruct Hi as [r [Hr Hin]].
    apply Hbelow in Hin. fold n in Hr. lia.
  - intros docs' Hidx doc Hin. simpl in Hidx. unfold after_insert in Hidx.
    destruct (file_name_index d) as [docs|] eqn:E; [|discriminate].
    simpl in Hidx. injection Hidx as <-. unfold fts_insert in Hin.
    apply in_app_or in Hin. destruct Hin as [Hin|[<-|[]]].
    + destruct (Hdocs docs eq_refl doc Hin) as [Hlt Hname]. fold n in Hlt.
      split; [lia|]. intros e He Hid. simpl in He.
      apply in_app_or in He. destruct He as [He|[<-|[]]].
      * apply Hname; [now apply Hkeep | exact Hid].
      * simpl in Hid. fold n in Hid. lia.
    + split; [exact Hn|]. intros e He Hid. simpl in He, Hid.
      apply in_app_or in He. destruct He as [He|[<-|[]]]; [|reflexivity].
      apply Hbelow in He. fold n in Hid. lia.
Qed.

Lemma batch_grown (now : Z) (files : list FileInfo) :
  forall d, db_grown d ->
            db_grown (fold_left (fun d f => insert_or_replace f now d) files d).
Proof.
  induction files as [|f files IH]; intros d H; simpl; [exact H|].
  apply IH. now apply insert_or_replace_grown.
Qed.

(** Entries created by [batch_add_files] on a new database, whatever the
    list, leave the indexes in a state [search] can rely on. *)
Lemma batch_add_files_sound (files : list FileInfo) (now : Z) (tokenizer : bool) :
  index_sound (batch_add_files files now (init_db tokenizer)).
Proof.
  assert (Hg : db_grown (db (batch_add_files files now (init_db tokenizer)))).
  { destruct files as [|f files]; [apply init_db_grown|].
    unfold batch_add_files. cbn [db with_db].
    apply batch_grown, init_db_grown. }
  destruct Hg as [Hnd Hdocs]. split; [exact Hnd|]. split.
  - intros docs Hidx doc e Hdoc He. now apply (Hdocs docs Hidx doc Hdoc).
  - destruct files; discriminate.
Qed.

End Growth.



(** The three conditions of the statement above are needed.  Without the
    trigram tokenizer the [LIKE] scan reads an underscore of the query as a
    wildcard. *)
Example like_scan_reads_wildcard :
  option_map (map name)
    (fst (search
            (rebuild_indexes
               (add_file (mkFileInfo "/t/a" "abc" "/t" "file" None 0 0) 1
                         (init_db false)))
            "a_c" None None 100 0 0 "name" true))
  = Some ["abc"]
  /\ Text.contains_nocase "a_c" "abc" = false.
Proof. split; reflexivity. Qed.

(** A double quote inside the query ends the quoted phrase early, and the
    [MATCH] expression is no longer one string. *)
Example quote_ends_phrase :
  fst (search
         (rebuild_indexes
            (add_file (mkFileInfo "/t/a" "abc" "/t" "file" None 0 0) 1
                      (init_db true)))
         (String "a" (String Text.dquote "c")) None None 100 0 0 "name" true)
  = None.
Proof. reflexivity. Qed.

(** A document left behind by a replaced row meets a later entry that
    takes the same rowid; the rebuild does not remove it, and the entry
    [xyz] is then found under [abc]. *)
Example stale_document_joins_later_entry :
  let a := mkFileInfo "/t/a" "abc" "/t" "file" None 0 0 in
  let x := mkFileInfo "/t/x" "xyz" "/t" "file" None 0 0 in
  let s := rebuild_indexes
             (add_file x 4
                (remove_file "/t/a" (add_file a 2 (add_file a 1 (init_db true))))) in
  file_name_index (db s) = Some [(1, "abc"); (1, "xyz")]
  /\ option_map (map name) (fst (search s "abc" None None 100 0 0 "name" true))
     = Some ["xyz"].
Proof. split; reflexivity. Qed.

(* ================================================================== *)
(** * Consistency of the n-gram indexes with the entries *)
(* ================================================================== *)

(** C3 does not hold as stated: [add_file] on a new database writes the
    entry and no bigram row, so the bigram [ab] of the name [ab] has no row. *)
Lemma add_file_writes_no_bigram :
  get_file (add_file (mkFileInfo "/t/ab" "ab" "/t" "file" None 0 0) 1 (init_db true))
           "/t/ab"
  = Some (mkFileRow 1 "/t/ab" "ab" "/t" "file" None 0 0 1)
  /\ _extract_bigrams "ab" = ["ab"]
  /\ file_name_bigrams
       (db (add_file (mkFileInfo "/t/ab" "ab" "/t" "file" None 0 0) 1 (init_db true)))
     = []
  /\ ~ bigrams_consistent
       (db (add_file (mkFileInfo "/t/ab" "ab" "/t" "file" None 0 0) 1 (init_db true))).
Proof.
  repeat split.
  intros [Hone _].
  specialize (Hone (mkFileRow 1 "/t/ab" "ab" "/t" "file" None 0 0 1) "ab").
  simpl in Hone. assert (H : 0%nat = 1%nat) by (apply Hone; auto).
  discriminate H.
Qed.

Section Postings.
Variable grams : string -> list string.

Lemma postings_In (docs : list (Z * string)) (i : Z) (g : string) :
  In (i, g) (postings grams docs) <->
  exists n, In (i, n) docs /\ In g (grams n).
Proof.
  unfold postings. rewrite in_flat_map. split.
  - intros [[j n] [Hd Hin]]. simpl in Hin. apply in_map_iff in Hin.
    destruct Hin as [g' [Heq Hg]]. injection Heq as <- <-.
    exists n. split; [exact Hd|]. unfold Text.unique in Hg.
    now apply nodup_In in Hg.
  - intros [n [Hd Hg]]. exists (i, n). split; [exact Hd|]. simpl.
    apply in_map_iff. exists g. split; [reflexivity|].
    unfold Text.unique. now apply nodup_In.
Qed.

Lemma NoDup_tagged (i : Z) (l : list string) :
  NoDup l -> NoDup (map (fun g => (i, g)) l).
Proof.
  induction l as [|x l IH]; intros H; simpl; [constructor|].
  apply NoDup_cons_iff in H. destruct H as [Hnot H].
  constructor; [|now apply IH].
  intros Hin. apply Hnot. apply in_map_iff in Hin.
  destruct Hin as [y [Heq Hy]]. now injection Heq as <-.
Qed.

Lemma postings_NoDup (docs : list (Z * string)) :
  NoDup (map fst docs) -> NoDup (postings grams docs).
Proof.
  induction docs as [|[i n] docs IH]; intros Hnd; [constructor|].
  simpl in Hnd. apply NoDup_cons_iff in Hnd. destruct Hnd as [Hnot Hnd].
  change (postings grams ((i, n) :: docs))
    with (map (fun g => (i, g)) (Text.unique (grams n)) ++ postings grams docs).
  apply NoDup_app.
  - apply NoDup_tagged, NoDup_nodup.
  - now apply IH.
  - intros [j g] Hblock Hrest. apply in_map_iff in Hblock.
    destruct Hblock as [g' [Heq _]]. injection Heq as <- <-.
    apply postings_In in Hrest. destruct Hrest as [m [Hm _]].
    apply Hnot. change i with (fst (i, m)). now apply in_map.
Qed.

(** The postings of the documents of the entries are consistent with
    the entries. *)
Lemma postings_consistent (rows : list FileRow) (docs : list (Z * string)) :
  NoDup (map id rows) -> NoDup docs ->
  (forall x, In x docs <-> In x (map doc_of rows)) ->
  ngram_consistent grams rows (postings grams docs).
Proof.
  intros Hids Hnd Hsame.
  assert (Hperm : Permutation docs (map doc_of rows)).
  { apply NoDup_Permutation; [exact Hnd | | exact Hsame].
    apply (NoDup_map_inv fst). now rewrite map_map. }
  assert (Hfst : NoDup (map fst docs)).
  { apply (Permutation_NoDup (l := map fst (map doc_of rows))).
    - apply Permutation_sym, Permutation_map, Hperm.
    - now rewrite map_map. }
  split.
  - intros e g He Hg. apply NoDup_count_occ'; [now apply postings_NoDup|].
    apply postings_In. exists (name e). split; [|exact Hg].
    apply Hsame. change (id e, name e) with (doc_of e). now apply in_map.
  - intros i g Hin. apply postings_In in Hin. destruct Hin as [n [Hd _]].
    apply Hsame, in_map_iff in Hd. destruct Hd as [e [Heq He]].
    exists e. split; [exact He|]. unfold doc_of in Heq. now injection Heq.
Qed.

End Postings.

Section BigramRebuild.

Lemma rebuilt_bigrams_postings (rows : list FileRow) :
  flat_map bigram_rows_of rows = postings _extract_bigrams (map doc_of rows).
Proof.
  unfold postings. induction rows as [|r rows IH]; simpl; [reflexivity|].
  now rewrite IH.
Qed.

(** After [rebuild_bigram_index] the bigram table is consistent with the
    entries. *)
Lemma rebuild_bigram_index_consistent (s : Service) :
  NoDup (map id (file_metadata (db s))) ->
  bigrams_consistent (db (rebuild_bigram_index s)).
Proof.
  intros Hids. unfold bigrams_consistent, rebuild_bigram_index. simpl.
  rewrite rebuilt_bigrams_postings. apply postings_consistent.
  - exact Hids.
  - apply (NoDup_map_inv fst). now rewrite map_map.
  - tauto.
Qed.

End BigramRebuild.

Section TriggerSteps.

Lemma in_step_consistent (d : Db) : index_in_step d -> trigrams_consistent d.
Proof.
  intros [Hids Hdocs] docs Hidx. destruct (Hdocs docs Hidx) as [Hnd Hsame].
  now apply postings_consistent.
Qed.

Lemma init_db_in_step (tokenizer : bool) : index_in_step (db (init_db tokenizer)).
Proof.
  split; [constructor|]. simpl. intros docs H.
  destruct tokenizer; [|discriminate]. injection H as <-.
  split; [constructor | tauto].
Qed.

(** The insert trigger: a record under a path no entry holds. *)
Lemma insert_in_step (f : FileInfo) (now : Z) (d : Db) :
  index_in_step d ->
  (forall r, In r (file_metadata d) -> path r <> fi_path f) ->
  index_in_step (insert_or_replace f now d).
Proof.
  intros [Hids Hdocs] Hnew.
  assert (Hrows : file_metadata (insert_or_replace f now d)
                  = file_metadata d
                    ++ [mkFileRow (next_rowid (map id (file_metadata d)))
                                  (fi_path f) (fi_name f) (fi_parent_path f)
                                  (fi_file_type f) (fi_extension f) (fi_size f)
                                  (fi_mtime f) now]).
  { simpl. f_equal. apply filter_all. intros r Hr.
    apply negb_true_iff, String.eqb_neq. now apply Hnew. }
  assert (Hfree : forall r, In r (file_metadata d) ->
                            id r <> next_rowid (map id (file_metadata d))).
  { intros r Hr Heq.
    pose proof (next_rowid_above (map id (file_metadata d)) (id r)
                                 (in_map id _ _ Hr)). lia. }
  split.
  - rewrite Hrows, map_app. simpl.
    apply NoDup_app; [exact Hids | repeat constructor; intros [] | ].
    intros i Hi [<-|[]]. apply in_map_iff in Hi. destruct Hi as [r [Hr Hin]].
    now apply (Hfree r).
  - intros docs' Hidx. rewrite Hrows. simpl in Hidx. unfold after_insert in Hidx.
    destruct (file_name_index d) as [docs|] eqn:E; [|discriminate].
    simpl in Hidx. injection Hidx as <-.
    destruct (Hdocs docs eq_refl) as [Hnd Hsame]. unfold fts_insert. split.
    + apply NoDup_app; [exact Hnd | repeat constructor; intros [] | ].
      intros x Hx [<-|[]]. apply Hsame, in_map_iff in Hx.
      destruct Hx as [r [Hr Hin]]. unfold doc_of in Hr. simpl in Hr.
      injection Hr as Hr _. now apply (Hfree r).
    + intros x. rewrite map_app, !in_app_iff, Hsame. reflexivity.
Qed.

Lemma batch_in_step (now : Z) (files : list FileInfo) :
  forall d,
    index_in_step d ->
    NoDup (map fi_path files) ->
    (forall f r, In f files -> In r (file_metadata d) -> path r <> fi_path f) ->
    index_in_step (fold_left (fun d f => insert_or_replace f now d) files d).
Proof.
  induction files as [|f files IH]; intros d Hstep Hnd Hnew; simpl; [exact Hstep|].
  simpl in Hnd. apply NoDup_cons_iff in Hnd. destruct Hnd as [Hnot Hnd].
  apply IH; [|exact Hnd|].
  - apply insert_in_step; [exact Hstep|]. intros r Hr. apply Hnew; [now left|exact Hr].
  - intros g r Hg Hr. simpl in Hr. apply in_app_or in Hr.
    destruct Hr as [Hr|[<-|[]]].
    + apply filter_In in Hr. apply Hnew; [now right | tauto].
    + simpl. intros Heq. apply Hnot. rewrite Heq. now apply in_map.
Qed.

Lemma batch_keeps_bigrams (now : Z) (files : list FileInfo) :
  forall d,
    file_name_bigrams (fold_left (fun d f => insert_or_replace f now d) files d)
    = file_name_bigrams d.
Proof.
  induction files as [|f files IH]; intros d; simpl; [reflexivity|]. now rewrite IH.
Qed.

Lemma fold_after_delete (gone : list FileRow) :
  forall index,
    fold_left (fun index old => after_delete old index) gone index
    = option_map (fts_delete_all gone) index.
Proof.
  unfold fts_delete_all.
  induction gone as [|r gone IH]; intros index; simpl.
  - now destruct index.
  - rewrite IH. now destruct index.
Qed.

Lemma fts_delete_all_keeps (gone : list FileRow) :
  forall docs x,
    In x docs -> (forall r, In r gone -> x <> doc_of r) ->
    In x (fts_delete_all gone docs).
Proof.
  unfold fts_delete_all.
  induction gone as [|r gone IH]; intros docs x Hin Hne; simpl; [exact Hin|].
  apply IH.
  - apply filter_In. split; [exact Hin|]. apply negb_true_iff.
    destruct (doc_eqb x (doc_of r)) eqn:E; [|reflexivity].
    apply doc_eqb_eq in E. exfalso. apply (Hne r); [now left | exact E].
  - intros r' Hr'. apply Hne. now right.
Qed.

Lemma fts_delete_all_NoDup (gone : list FileRow) :
  forall docs, NoDup docs -> NoDup (fts_delete_all gone docs).
Proof.
  unfold fts_delete_all.
  induction gone as [|r gone IH]; intros docs H; simpl; [exact H|].
  apply IH. now apply NoDup_filter.
Qed.

(** The delete trigger. *)
Lemma delete_in_step (cond : FileRow -> bool) (d : Db) :
  index_in_step d -> index_in_step (delete_where cond d).
Proof.
  intros [Hids Hdocs]. split.
  - simpl. now apply NoDup_map_filter.
  - intros docs' Hidx. simpl in Hidx. rewrite fold_after_delete in Hidx.
    destruct (file_name_index d) as [docs|] eqn:E; [|discriminate].
    simpl in Hidx. injection Hidx as <-.
    destruct (Hdocs docs eq_refl) as [Hnd Hsame].
    split; [now apply fts_delete_all_NoDup|].
    intros x. simpl. rewrite in_map_iff. split.
    + intros Hx. apply fts_delete_all_In in Hx. destruct Hx as [Hx Hne].
      apply Hsame, in_map_iff in Hx. destruct Hx as [r [<- Hr]].
      exists r. split; [reflexivity|]. apply filter_In. split; [exact Hr|].
      destruct (cond r) eqn:Ec; [|reflexivity].
      exfalso. apply (Hne r); [|reflexivity]. apply filter_In. now split.
    + intros [r [<- Hr]]. apply filter_In in Hr. destruct Hr as [Hr Hkeep].
      apply fts_delete_all_keeps.
      * apply Hsame. now apply in_map.
      * intros r' Hr' Heq. apply filter_In in Hr'. destruct Hr' as [Hr' Hc].
        assert (r = r').
        { apply (@same_id_same_row (file_metadata d)); auto.
          unfold doc_of in Heq. now injection Heq. }
        subst r'. rewrite Hc in Hkeep. discriminate.
Qed.

End TriggerSteps.

Section UpdateTrigger.
Variables (p : string) (kwargs : list assignment).

(** The row an [UPDATE ... WHERE path = p] leaves in place of [r]. *)
Let updated (r : FileRow) : FileRow :=
  if String.eqb (path r) p then fold_left assign kwargs r else r.

(** The update trigger on the documents, for one row of the table. *)
Let retoken (docs : list (Z * string)) (r : FileRow) : list (Z * string) :=
  if String.eqb (path r) p
  then fts_insert (doc_of (fold_left assign kwargs r)) (fts_delete (doc_of r) docs)
  else docs.

Lemma assign_keeps_id (r : FileRow) : id (fold_left assign kwargs r) = id r.
Proof.
  revert r. induction kwargs as [|a kw IH]; intros r; simpl; [reflexivity|].
  rewrite IH. now destruct a.
Qed.

Lemma updated_id (r : FileRow) : id (updated r) = id r.
Proof.
  unfold updated. destruct (String.eqb (path r) p); [apply assign_keeps_id|reflexivity].
Qed.

Lemma update_rows_spec (rows : list FileRow) :
  forall index,
    update_rows p kwargs rows index
    = (map updated rows,
       match index with
       | Some docs => Some (fold_left retoken rows docs)
       | None => None
       end).
Proof.
  induction rows as [|r rows IH]; intros index; simpl.
  - now destruct index.
  - unfold updated at 1, retoken at 1 2.
    destruct (String.eqb (path r) p); rewrite IH; destruct index; reflexivity.
Qed.

Lemma retoken_in_step (todo : list FileRow) :
  forall (done : list FileRow) (docs : list (Z * string)),
    NoDup (map id (done ++ todo)) ->
    NoDup docs ->
    (forall x, In x docs <-> In x (map doc_of (done ++ todo))) ->
    NoDup (fold_left retoken todo docs)
    /\ forall x, In x (fold_left retoken todo docs)
                 <-> In x (map doc_of (done ++ map updated todo)).
Proof.
  induction todo as [|r todo IH]; intros done docs Hids Hnd Hsame; simpl.
  - split; [exact Hnd | exact Hsame].
  - assert (Hfree : forall r0, In r0 (done ++ todo) -> id r0 <> id r).
    { intros r0 Hr0 Heq. rewrite map_app in Hids. simpl in Hids.
      apply NoDup_remove_2 in Hids. apply Hids. rewrite <- map_app, <- Heq.
      now apply in_map. }
    unfold retoken at 2 4, updated at 1. destruct (String.eqb (path r) p) eqn:E.
    + set (r' := fold_left assign kwargs r).
      assert (Hid : id r' = id r) by apply assign_keeps_id.
      destruct (IH (done ++ [r'])
                   (fts_insert (doc_of r') (fts_delete (doc_of r) docs)))
        as [Hnd' Hsame'].
      * rewrite <- app_assoc. simpl. rewrite map_app in Hids |- *. simpl.
        now rewrite Hid.
      * unfold fts_insert, fts_delete.
        apply NoDup_app; [now apply NoDup_filter | repeat constructor; intros [] | ].
        intros x Hx [<-|[]]. apply filter_In in Hx. destruct Hx as [Hx Hne].
        apply Hsame, in_map_iff in Hx. destruct Hx as [r0 [Hr0 Hin]].
        apply in_app_or in Hin. destruct Hin as [Hin|[<-|Hin]].
        -- apply (Hfree r0); [apply in_or_app; now left|].
           unfold doc_of in Hr0. injection Hr0 as Hr0 _. congruence.
        -- rewrite <- Hr0, (proj2 (doc_eqb_eq _ _) eq_refl) in Hne. discriminate.
        -- apply (Hfree r0); [apply in_or_app; now right|].
           unfold doc_of in Hr0. injection Hr0 as Hr0 _. congruence.
      * intros x. unfold fts_insert, fts_delete.
        rewrite in_app_iff, filter_In, Hsame, <- app_assoc, !map_app, !in_app_iff.
        simpl. split.
        -- intros [[[Hx|[Hx|Hx]] Hne]|[Hx|[]]]; auto.
           rewrite <- Hx, (proj2 (doc_eqb_eq _ _) eq_refl) in Hne. discriminate.
        -- intros [Hx|[Hx|Hx]]; [left | right; exact Hx | left].
           ++ split; [now left|]. apply negb_true_iff.
              destruct (doc_eqb x (doc_of r)) eqn:Ex; [|reflexivity].
              apply doc_eqb_eq in Ex. subst x. apply in_map_iff in Hx.
              destruct Hx as [r0 [Hr0 Hin]]. exfalso.
              apply (Hfree r0); [apply in_or_app; now left|].
              unfold doc_of in Hr0. now injection Hr0.
           ++ split; [now right; right|]. apply negb_true_iff.
              destruct (doc_eqb x (doc_of r)) eqn:Ex; [|reflexivity].
              apply doc_eqb_eq in Ex. subst x. apply in_map_iff in Hx.
              destruct Hx as [r0 [Hr0 Hin]]. exfalso.
              apply (Hfree r0); [apply in_or_app; now right|].
              unfold doc_of in Hr0. now injection Hr0.
      * split; [exact Hnd'|]. intros x. rewrite Hsame', <- app_assoc. reflexivity.
    + destruct (IH (done ++ [r]) docs) as [Hnd' Hsame'].
      * now rewrite <- app_assoc.
      * exact Hnd.
      * intros x. rewrite Hsame, <- app_assoc. reflexivity.
      * split; [exact Hnd'|]. intros x. rewrite Hsame', <- app_assoc. reflexivity.
Qed.

Lemma update_file_cases (s : Service) :
  update_file p kwargs s = s
  \/ update_file p kwargs s
     = with_db s
         {| file_metadata :=
              fst (update_rows p kwargs (file_metadata (db s))
                               (file_name_index (db s)));
            file_name_index :=
              snd (update_rows p kwargs (file_metadata (db s))
                               (file_name_index (db s)));
            file_name_bigrams := file_name_bigrams (db s);
            watch_paths := watch_paths (db s);
            ignore_patterns := ignore_patterns (db s) |}.
Proof.
  unfold update_file. destruct kwargs; [now left|right].
  now destruct (update_rows _ _ _ _).
Qed.

(** The update trigger. *)
Lemma update_in_step (s : Service) :
  index_in_step (db s) -> index_in_step (db (update_file p kwargs s)).
Proof.
  intros Hstep. destruct (update_file_cases s) as [->| ->]; [exact Hstep|].
  rewrite update_rows_spec. cbn [db with_db file_metadata file_name_index fst snd].
  destruct Hstep as [Hids Hdocs]. split.
  - cbn [file_metadata]. rewrite map_map.
    rewrite (map_ext _ id updated_id). exact Hids.
  - cbn [file_metadata file_name_index]. intros docs' Hidx.
    destruct (file_name_index (db s)) as [docs|] eqn:E; [|discriminate].
    injection Hidx as <-. destruct (Hdocs docs eq_refl) as [Hnd Hsame].
    apply (retoken_in_step (file_metadata (db s)) []); assumption.
Qed.

Lemma update_keeps_bigrams (s : Service) :
  file_name_bigrams (db (update_file p kwargs s)) = file_name_bigrams (db s).
Proof.
  now destruct (update_file_cases s) as [->| ->].
Qed.

End UpdateTrigger.

(** Writing a path that an entry holds: the replaced row fires no delete
    trigger, and its trigram document stays behind under an id that no
    entry has. *)
Example replace_leaves_document :
  let f := mkFileInfo "/t/ab" "abc" "/t" "file" None 0 0 in
  let s := add_file f 2 (add_file f 1 (init_db true)) in
  map id (file_metadata (db s)) = [2]
  /\ file_name_index (db s) = Some [(1, "abc"); (2, "abc")].
Proof. split; reflexivity. Qed.

Section Consistency.
Variable s : Service.
Hypothesis Hstep : index_in_step (db s).

Lemma get_file_none (p : string) :
  get_file s p = None -> forall r, In r (file_metadata (db s)) -> path r <> p.
Proof.
  intros H r Hr Heq. unfold get_file in H.
  apply (find_none _ _ H) in Hr. rewrite Heq, String.eqb_refl in Hr. discriminate.
Qed.

Lemma add_file_in_step (f : FileInfo) (now : Z) :
  get_file s (fi_path f) = None -> index_in_step (db (add_file f now s)).
Proof.
  intros H. unfold add_file. cbn [db with_db].
  apply insert_in_step; [exact Hstep | exact (get_file_none H)].
Qed.

Lemma batch_add_files_in_step (files : list FileInfo) (now : Z) :
  NoDup (map fi_path files) ->
  (forall f, In f files -> get_file s (fi_path f) = None) ->
  index_in_step (db (batch_add_files files now s)).
Proof.
  intros Hnd Hnew. destruct files as [|f files]; [exact Hstep|].
  unfold batch_add_files. cbn [db with_db].
  apply batch_in_step; [exact Hstep | exact Hnd |].
  intros g r Hg Hr. exact (get_file_none (Hnew g Hg) r Hr).
Qed.

Lemma remove_file_in_step (p : string) : index_in_step (db (remove_file p s)).
Proof. unfold remove_file. cbn [db with_db]. now apply delete_in_step. Qed.

End Consistency.

(** C3, as the code has it. The bigram table is written by
    [rebuild_bigram_index] only: after it the table is consistent with the
    entries, and [add_file], [batch_add_files], [update_file] and
    [remove_file] leave its rows as they are.  The trigram table follows the
    entries through the triggers: from a state where it holds the documents
    of the entries, it is consistent again after [add_file] and
    [batch_add_files] of paths no entry holds (distinct within the batch),
    after [update_file] on columns other than the keys, and after
    [remove_file]. *)
Theorem ngram_indexes_consistency (s : Service) :
  index_in_step (db s) ->
  bigrams_consistent (db (rebuild_bigram_index s))
  /\ (forall f now,
         file_name_bigrams (db (add_file f now s)) = file_name_bigrams (db s))
  /\ (forall files now,
         file_name_bigrams (db (batch_add_files files now s))
         = file_name_bigrams (db s))
  /\ (forall p kwargs,
         file_name_bigrams (db (update_file p kwargs s)) = file_name_bigrams (db s))
  /\ (forall p,
         file_name_bigrams (db (remove_file p s)) = file_name_bigrams (db s))
  /\ (forall f now,
         get_file s (fi_path f) = None ->
         index_in_step (db (add_file f now s))
         /\ trigrams_consistent (db (add_file f now s)))
  /\ (forall files now,
         NoDup (map fi_path files) ->
         (forall f, In f files -> get_file s (fi_path f) = None) ->
         index_in_step (db (batch_add_files files now s))
         /\ trigrams_consistent (db (batch_add_files files now s)))
  /\ (forall p kwargs,
         index_in_step (db (update_file p kwargs s))
         /\ trigrams_consistent (db (update_file p kwargs s)))
  /\ (forall p,
         index_in_step (db (remove_file p s))
         /\ trigrams_consistent (db (remove_file p s))).
Proof.
  intros Hstep.
  split; [apply rebuild_bigram_index_consistent, Hstep|].
  split; [reflexivity|].
  split.
  { intros files now. destruct files as [|f files]; [reflexivity|].
    unfold batch_add_files. cbn [db with_db]. apply batch_keeps_bigrams. }
  split; [intros p kwargs; apply update_keeps_bigrams|].
  split; [reflexivity|].
  split.
  { intros f now Hnew.
    split; [|apply in_step_consistent]; now apply add_file_in_step. }
  split.
  { intros files now Hnd Hnew.
    split; [|apply in_step_consistent]; now apply batch_add_files_in_step. }
  split.
  { intros p kwargs.
    split; [|apply in_step_consistent]; now apply update_in_step. }
  intros p. split; [|apply in_step_consistent]; now apply remove_file_in_step.
Qed.

Lemma hello_scenario_in_step : index_in_step (db hello_scenario).
Proof.
  apply batch_add_files_in_step.
  - apply init_db_in_step.
  - repeat constructor; simpl; intuition discriminate.
  - reflexivity.
Qed.

Lemma ngram_indexes_consistency_witness :
  bigrams_consistent (db (rebuild_bigram_index hello_scenario)).
Proof.
  exact (proj1 (ngram_indexes_consistency hello_scenario hello_scenario_in_step)).
Defined.

(* ================================================================== *)
(** * Entries: reading back what was written *)
(* ================================================================== *)

Section RoundTrip.

Lemma find_filter_implied (A : Type) (P Q : A -> bool) (l : list A) :
  (forall x, P x = true -> Q x = true) -> find P (filter Q l) = find P l.
Proof.
  intros H. induction l as [|x l IH]; [reflexivity|]. simpl.
  destruct (P x) eqn:HP.
  - rewrite (H x HP). simpl. now rewrite HP.
  - destruct (Q x); simpl; [rewrite HP|]; exact IH.
Qed.

Lemma find_filter_excluded (A : Type) (P Q : A -> bool) (l : list A) :
  (forall x, P x = true -> Q x = false) -> find P (filter Q l) = None.
Proof.
  intros H. induction l as [|x l IH]; [reflexivity|]. simpl.
  destruct (Q x) eqn:HQ; [|exact IH]. simpl.
  destruct (P x) eqn:HP; [|exact IH]. rewrite (H x HP) in HQ. discriminate.
Qed.

Lemma find_app_none (A : Type) (P : A -> bool) (l l' : list A) :
  find P l = None -> find P (l ++ l') = find P l'.
Proof.
  induction l as [|x l IH]; [reflexivity|]. simpl.
  destruct (P x); [discriminate | exact IH].
Qed.

Lemma find_app_some (A : Type) (P : A -> bool) (l l' : list A) (x : A) :
  find P l = Some x -> find P (l ++ l') = Some x.
Proof.
  induction l as [|y l IH]; [discriminate|]. simpl.
  destruct (P y); [now intros | exact IH].
Qed.

Lemma eqb_other (a b q : string) :
  q <> b -> String.eqb a q = true -> negb (String.eqb a b) = true.
Proof.
  intros Hne H. apply String.eqb_eq in H. subst a.
  destruct (String.eqb q b) eqn:E; [|reflexivity].
  apply String.eqb_eq in E. contradiction.
Qed.

Lemma get_file_add_file_same (s : Service) (f : FileInfo) (now : Z) :
  get_file (add_file f now s) (fi_path f)
  = Some (mkFileRow (next_rowid (map id (file_metadata (db s))))
                    (fi_path f) (fi_name f) (fi_parent_path f)
                    (fi_file_type f) (fi_extension f) (fi_size f)
                    (fi_mtime f) now).
Proof.
  unfold get_file, add_file, insert_or_replace. cbn [db with_db file_metadata].
  rewrite find_app_none.
  - simpl. now rewrite String.eqb_refl.
  - apply find_filter_excluded. intros x Hx. now rewrite Hx.
Qed.

Lemma get_file_add_file_other (s : Service) (f : FileInfo) (now : Z) (q : string) :
  q <> fi_path f -> get_file (add_file f now s) q = get_file s q.
Proof.
  intros Hne. unfold get_file, add_file, insert_or_replace.
  cbn [db with_db file_metadata].
  destruct (find (fun r => String.eqb (path r) q) (file_metadata (db s))) eqn:E.
  - apply find_app_some. rewrite find_filter_implied; [exact E|].
    intros x Hx. eapply eqb_other; [exact Hne | exact Hx].
  - rewrite find_app_none.
    + simpl. destruct (String.eqb (fi_path f) q) eqn:E'; [|reflexivity].
      apply String.eqb_eq in E'. now subst q.
    + rewrite find_filter_implied; [exact E|].
      intros x Hx. eapply eqb_other; [exact Hne | exact Hx].
Qed.

Lemma get_file_remove_file_same (s : Service) (p : string) :
  get_file (remove_file p s) p = None.
Proof.
  unfold get_file, remove_file, delete_where. cbn [db with_db file_metadata].
  apply find_filter_excluded. intros x Hx. now rewrite Hx.
Qed.

Lemma get_file_remove_file_other (s : Service) (p q : string) :
  q <> p -> get_file (remove_file p s) q = get_file s q.
Proof.
  intros Hne. unfold get_file, remove_file, delete_where.
  cbn [db with_db file_metadata].
  apply find_filter_implied. intros x Hx. eapply eqb_other; [exact Hne | exact Hx].
Qed.

End RoundTrip.

(** X1. An entry written by [add_file] is the one [get_file] reads back
    under its path, whatever the store held before; [remove_file] leaves no
    entry under its path; and neither call changes what [get_file] answers
    for any other path. *)
Theorem get_file_reads_back (s : Service) (f : FileInfo) (now : Z) (p : string) :
  get_file (add_file f now s) (fi_path f)
  = Some (mkFileRow (next_rowid (map id (file_metadata (db s))))
                    (fi_path f) (fi_name f) (fi_parent_path f)
                    (fi_file_type f) (fi_extension f) (fi_size f)
                    (fi_mtime f) now)
  /\ get_file (remove_file p s) p = None
  /\ get_file (remove_file (fi_path f) (add_file f now s)) (fi_path f) = None
  /\ (forall q, q <> fi_path f -> get_file (add_file f now s) q = get_file s q)
  /\ (forall q, q <> p -> get_file (remove_file p s) q = get_file s q).
Proof.
  split; [apply get_file_add_file_same|].
  split; [apply get_file_remove_file_same|].
  split; [apply get_file_remove_file_same|].
  split; intros q Hq.
  - now apply get_file_add_file_other.
  - now apply get_file_remove_file_other.
Qed.

(* ================================================================== *)
(** * The constraints of the schema *)
(* ================================================================== *)

Section Schema.

Lemma NoDup_snoc (A : Type) (l : list A) (x : A) :
  NoDup l -> ~ In x l -> NoDup (l ++ [x]).
Proof.
  intros Hnd Hx. apply (Permutation_NoDup (l := x :: l)).
  - apply Permutation_cons_append.
  - now constructor.
Qed.

Lemma insert_or_replace_ids (f : FileInfo) (now : Z) (d : Db) :
  NoDup (map id (file_metadata d)) ->
  NoDup (map id (file_metadata (insert_or_replace f now d))).
Proof.
  intros Hnd. unfold insert_or_replace. cbn [file_metadata].
  rewrite map_app. apply NoDup_snoc.
  - now apply NoDup_map_filter.
  - cbn [map id]. intros Hin. apply in_map_iff in Hin.
    destruct Hin as [r [Hid Hr]]. apply filter_In in Hr. destruct Hr as [Hr _].
    assert (Hlt : id r < next_rowid (map id (file_metadata d)))
      by (apply next_rowid_above; now apply in_map).
    lia.
Qed.

Lemma insert_or_replace_schema (f : FileInfo) (now : Z) (d : Db) :
  schema_holds d -> schema_holds (insert_or_replace f now d).
Proof.
  intros (Hid & Hpath & Hwid & Hwpath & Hpat).
  split; [now apply insert_or_replace_ids|].
  split; [now apply insert_or_replace_unique|].
  now repeat split.
Qed.

Lemma batch_schema (now : Z) (files : list FileInfo) :
  forall d, schema_holds d ->
            schema_holds (fold_left (fun d f => insert_or_replace f now d) files d).
Proof.
  induction files as [|f files IH]; intros d H; [exact H|].
  simpl. apply IH. now apply insert_or_replace_schema.
Qed.

Lemma delete_where_schema (cond : FileRow -> bool) (d : Db) :
  schema_holds d -> schema_holds (delete_where cond d).
Proof.
  intros (Hid & Hpath & Hwid & Hwpath & Hpat). unfold delete_where.
  split; [now apply NoDup_map_filter|].
  split; [now apply NoDup_map_filter|].
  now repeat split.
Qed.

Lemma fold_assign_keys (kwargs : list assignment) :
  forall r, id (fold_left assign kwargs r) = id r
            /\ path (fold_left assign kwargs r) = path r.
Proof.
  induction kwargs as [|a kwargs IH]; intros r; [now split|].
  simpl. destruct (IH (assign r a)) as [H1 H2]. rewrite H1, H2.
  now destruct a.
Qed.

Lemma update_rows_keys (p : string) (kwargs : list assignment)
      (rows : list FileRow) :
  forall index,
    map id (fst (update_rows p kwargs rows index)) = map id rows
    /\ map path (fst (update_rows p kwargs rows index)) = map path rows.
Proof.
  induction rows as [|r rows IH]; intros index; [now split|].
  simpl. destruct (String.eqb (path r) p).
  - destruct (update_rows p kwargs rows
                          (after_update r (fold_left assign kwargs r) index))
      as [rest' index'] eqn:E.
    specialize (IH (after_update r (fold_left assign kwargs r) index)).
    rewrite E in IH. simpl in IH. destruct IH as [H1 H2].
    destruct (fold_assign_keys kwargs r) as [K1 K2].
    simpl. now rewrite H1, H2, K1, K2.
  - destruct (update_rows p kwargs rows index) as [rest' index'] eqn:E.
    specialize (IH index). rewrite E in IH. simpl in IH. destruct IH as [H1 H2].
    simpl. now rewrite H1, H2.
Qed.

Lemma update_file_schema (p : string) (kwargs : list assignment) (s : Service) :
  schema_holds (db s) -> schema_holds (db (update_file p kwargs s)).
Proof.
  intros H. unfold update_file. destruct kwargs as [|a kwargs]; [exact H|].
  destruct (update_rows_keys p (a :: kwargs) (file_metadata (db s))
                             (file_name_index (db s))) as [K1 K2].
  destruct (update_rows p (a :: kwargs) (file_metadata (db s))
                        (file_name_index (db s))) as [rows index].
  simpl in K1, K2. destruct H as (Hid & Hpath & Hrest).
  unfold schema_holds. cbn [db with_db file_metadata watch_paths ignore_patterns].
  rewrite K1, K2. now repeat split.
Qed.

Lemma register_path_schema (p : string) (now : Z) (s : Service) :
  schema_holds (db s) -> schema_holds (db (register_path p now s)).
Proof.
  intros H. unfold register_path.
  destruct (existsb (fun w => String.eqb (w_path w) p) (watch_paths (db s))) eqn:E;
    [exact H|].
  destruct H as (Hid & Hpath & Hwid & Hwpath & Hpat).
  unfold schema_holds.
  cbn [db with_db with_watch_paths file_metadata watch_paths ignore_patterns].
  split; [exact Hid|]. split; [exact Hpath|].
  rewrite !map_app. cbn [map w_id w_path].
  split; [|split; [|exact Hpat]].
  - apply NoDup_snoc; [exact Hwid|]. intros Hin.
    apply next_rowid_above in Hin. lia.
  - apply NoDup_snoc; [exact Hwpath|]. intros Hin.
    apply in_map_iff in Hin. destruct Hin as [w [Hw Hin]].
    assert (Hex : existsb (fun w => String.eqb (w_path w) p) (watch_paths (db s))
                  = true).
    { apply existsb_exists. exists w. split; [exact Hin|].
      rewrite Hw. apply String.eqb_refl. }
    rewrite Hex in E. discriminate.
Qed.

Lemma map_keys_kept (g : WatchRow -> WatchRow) (ws : list WatchRow) :
  (forall w, w_id (g w) = w_id w /\ w_path (g w) = w_path w) ->
  map w_id (map g ws) = map w_id ws /\ map w_path (map g ws) = map w_path ws.
Proof.
  intros H. rewrite !map_map. split; apply map_ext; intros w; apply H.
Qed.

Lemma update_path_status_schema (p status : string) (now : Z) (s : Service) :
  schema_holds (db s) -> schema_holds (db (update_path_status p status now s)).
Proof.
  intros (Hid & Hpath & Hwid & Hwpath & Hpat).
  unfold schema_holds, update_path_status.
  cbn [db with_db with_watch_paths file_metadata watch_paths ignore_patterns].
  match goal with
  | |- context [map w_id (map ?g ?ws)] =>
      destruct (@map_keys_kept g ws) as [K1 K2]
  end.
  { intros w. now destruct (String.eqb (w_path w) p). }
  rewrite K1, K2. now repeat split.
Qed.

Lemma update_path_stats_schema (p : string) (total indexed : option Z) (now : Z)
      (s : Service) :
  schema_holds (db s) -> schema_holds (db (update_path_stats p total indexed now s)).
Proof.
  intros H.
  assert (Hgen : forall g : WatchRow -> WatchRow,
             (forall w, w_id (g w) = w_id w /\ w_path (g w) = w_path w) ->
             schema_holds (db (with_watch_paths s (map g (watch_paths (db s)))))).
  { intros g Hg. destruct H as (Hid & Hpath & Hwid & Hwpath & Hpat).
    unfold schema_holds.
    cbn [db with_db with_watch_paths file_metadata watch_paths ignore_patterns].
    destruct (map_keys_kept g (watch_paths (db s)) Hg) as [K1 K2].
    rewrite K1, K2. now repeat split. }
  unfold update_path_stats.
  destruct total, indexed; try exact H; apply Hgen; intros w;
    now destruct (String.eqb (w_path w) p).
Qed.

Lemma remove_path_schema (p : string) (s : Service) :
  schema_holds (db s) -> schema_holds (db (remove_path p s)).
Proof.
  intros H. unfold remove_path.
  match goal with
  | |- context [delete_where ?c (db s)] =>
      pose proof (delete_where_schema c H) as Hd;
      set (d := delete_where c (db s)) in *
  end.
  destruct Hd as (Hid & Hpath & Hwid & Hwpath & Hpat).
  unfold schema_holds. cbn [db with_db file_metadata watch_paths ignore_patterns].
  split; [exact Hid|]. split; [exact Hpath|].
  split; [now apply NoDup_map_filter|].
  split; [now apply NoDup_map_filter | exact Hpat].
Qed.

Lemma add_ignore_pattern_schema (pattern : string) (s : Service) :
  schema_holds (db s) -> schema_holds (db (add_ignore_pattern pattern s)).
Proof.
  intros H. unfold add_ignore_pattern.
  destruct (existsb (String.eqb pattern) (ignore_patterns (db s))) eqn:E;
    [exact H|].
  destruct H as (Hid & Hpath & Hwid & Hwpath & Hpat).
  unfold schema_holds.
  cbn [db with_db with_ignore_patterns file_metadata watch_paths ignore_patterns].
  repeat (split; [assumption|]).
  apply NoDup_snoc; [exact Hpat|]. intros Hin.
  assert (Hex : existsb (String.eqb pattern) (ignore_patterns (db s)) = true).
  { apply existsb_exists. exists pattern. split; [exact Hin|].
    apply String.eqb_refl. }
  rewrite Hex in E. discriminate.
Qed.

Lemma remove_ignore_pattern_schema (pattern : string) (s : Service) :
  schema_holds (db s) -> schema_holds (db (remove_ignore_pattern pattern s)).
Proof.
  intros (Hid & Hpath & Hwid & Hwpath & Hpat).
  unfold schema_holds, remove_ignore_pattern.
  cbn [db with_db with_ignore_patterns file_metadata watch_paths ignore_patterns].
  repeat (split; [assumption|]).
  now apply NoDup_filter.
Qed.

Lemma rebuild_trigram_index_tables (s : Service) :
  file_metadata (db (rebuild_trigram_index s)) = file_metadata (db s)
  /\ file_name_bigrams (db (rebuild_trigram_index s)) = file_name_bigrams (db s)
  /\ watch_paths (db (rebuild_trigram_index s)) = watch_paths (db s)
  /\ ignore_patterns (db (rebuild_trigram_index s)) = ignore_patterns (db s).
Proof.
  unfold rebuild_trigram_index, _has_trigram_index.
  destruct (_trigram_available s) as [[|]|];
    cbn [negb db]; destruct (file_name_index (db s)); cbn; now repeat split.
Qed.

Lemma rebuild_trigram_index_schema (s : Service) :
  schema_holds (db s) -> schema_holds (db (rebuild_trigram_index s)).
Proof.
  destruct (rebuild_trigram_index_tables s) as (E1 & _ & E3 & E4).
  unfold schema_holds. now rewrite E1, E3, E4.
Qed.

Lemma ensure_bigram_index_populated_schema (s : Service) :
  schema_holds (db s) -> schema_holds (db (ensure_bigram_index_populated s)).
Proof.
  intros H. unfold ensure_bigram_index_populated.
  match goal with |- context [if ?b then _ else _] => destruct b end; exact H.
Qed.

Lemma call_schema (c : StoreCall) (s : Service) :
  schema_holds (db s) -> schema_holds (db (call s c)).
Proof.
  intros H. destruct c; simpl.
  - now apply insert_or_replace_schema.
  - unfold batch_add_files. destruct files as [|f files]; [exact H|].
    cbn [db with_db]. now apply batch_schema.
  - now apply update_file_schema.
  - now apply delete_where_schema.
  - now apply register_path_schema.
  - now apply update_path_status_schema.
  - now apply update_path_stats_schema.
  - now apply remove_path_schema.
  - now apply add_ignore_pattern_schema.
  - now apply remove_ignore_pattern_schema.
  - exact H.
  - now apply rebuild_trigram_index_schema.
  - now apply ensure_bigram_index_populated_schema.
Qed.

Lemma batch_watch_paths (now : Z) (files : list FileInfo) :
  forall d, watch_paths (fold_left (fun d f => insert_or_replace f now d) files d)
            = watch_paths d.
Proof.
  induction files as [|f files IH]; intros d; [reflexivity|].
  simpl. now rewrite IH.
Qed.

Lemma call_roots_enabled (c : StoreCall) (s : Service) :
  roots_enabled s -> roots_enabled (call s c).
Proof.
  intros H. destruct c; simpl; try exact H.
  - unfold batch_add_files. destruct files as [|f files]; [exact H|].
    unfold roots_enabled. cbn [db with_db]. now rewrite batch_watch_paths.
  - unfold update_file. destruct kwargs; [exact H|].
    now destruct (update_rows _ _ _ _).
  - now apply register_path_roots_enabled.
  - now apply update_path_status_roots_enabled.
  - now apply update_path_stats_roots_enabled.
  - now apply remove_path_roots_enabled.
  - unfold add_ignore_pattern. now destruct (existsb _ _).
  - unfold roots_enabled.
    now rewrite (proj1 (proj2 (proj2 (rebuild_trigram_index_tables s)))).
  - unfold ensure_bigram_index_populated.
    match goal with |- context [if ?b then _ else _] => destruct b end; exact H.
Qed.

Lemma fold_call_invariant (calls : list StoreCall) :
  forall s, schema_holds (db s) /\ roots_enabled s ->
            schema_holds (db (fold_left call calls s))
            /\ roots_enabled (fold_left call calls s).
Proof.
  induction calls as [|c calls IH]; intros s H; [exact H|].
  simpl. apply IH. destruct H as [H1 H2].
  split; [now apply call_schema | now apply call_roots_enabled].
Qed.

End Schema.

(** X2. Whatever calls are made on a store that [init_db] created, the
    constraints of the schema hold afterwards: no two entries share an id
    or a path, no two watch roots share an id or a path, no ignore pattern
    is stored twice, and every watch root is enabled. *)
Theorem history_keeps_schema (tokenizer : bool) (calls : list StoreCall) :
  schema_holds (db (history tokenizer calls))
  /\ roots_enabled (history tokenizer calls).
Proof.
  unfold history. apply fold_call_invariant. split.
  - unfold schema_holds. simpl. repeat split; constructor.
  - apply init_db_roots_enabled.
Qed.

(* ================================================================== *)
(** * [ORDER BY] sorts *)
(* ================================================================== *)

Section Sorting.
Variable A : Type.
Variable leb : A -> A -> bool.
Hypothesis leb_total : forall a b, leb a b = true \/ leb b a = true.
Hypothesis leb_trans :
  forall a b c, leb a b = true -> leb b c = true -> leb a c = true.

Let le (a b : A) : Prop := leb a b = true.

Lemma insert_row_sorted (x : A) (l : list A) :
  StronglySorted le l -> StronglySorted le (Sqlite.insert_row leb x l).
Proof.
  induction l as [|y l IH]; intros Hs; simpl.
  - constructor; constructor.
  - inversion Hs as [|? ? Hl Hy]; subst.
    destruct (leb x y) eqn:E.
    + constructor; [exact Hs|]. constructor; [exact E|].
      apply Forall_forall. intros z Hz.
      apply (leb_trans E). exact (proj1 (Forall_forall _ _) Hy z Hz).
    + constructor; [now apply IH|].
      apply Forall_forall. intros z Hz.
      apply (Permutation_in _ (insert_row_perm leb x l)) in Hz.
      destruct Hz as [<-|Hz].
      * destruct (leb_total x y) as [H|H]; [congruence | exact H].
      * exact (proj1 (Forall_forall _ _) Hy z Hz).
Qed.

Lemma order_by_sorted (l : list A) : StronglySorted le (Sqlite.order_by leb l).
Proof.
  induction l as [|x l IH]; simpl; [constructor | now apply insert_row_sorted].
Qed.

End Sorting.

Section SortedParts.
Variable A : Type.
Variable R : A -> A -> Prop.

Lemma sorted_app_l (l1 l2 : list A) :
  StronglySorted R (l1 ++ l2) -> StronglySorted R l1.
Proof.
  induction l1 as [|x l1 IH]; intros H; [constructor|].
  simpl in H. inversion H as [|? ? Hl Hx]; subst.
  constructor; [now apply IH|].
  apply Forall_app in Hx. tauto.
Qed.

Lemma sorted_drop_middle (l1 l2 : list A) (x : A) :
  StronglySorted R (l1 ++ x :: l2) -> StronglySorted R (l1 ++ l2).
Proof.
  induction l1 as [|y l1 IH]; intros H; simpl in *.
  - now inversion H.
  - inversion H as [|? ? Hl Hy]; subst.
    constructor; [now apply IH|].
    apply Forall_app in Hy. destruct Hy as [H1 H2].
    apply Forall_app. split; [exact H1|]. now inversion H2.
Qed.

Lemma sorted_firstn (n : nat) (l : list A) :
  StronglySorted R l -> StronglySorted R (firstn n l).
Proof.
  intros H. rewrite <- (firstn_skipn n l) in H. exact (sorted_app_l _ _ H).
Qed.

End SortedParts.

Section TextOrder.

Lemma ascii_compare_trans (a b c : ascii) (o : comparison) :
  Ascii.compare a b = o -> Ascii.compare b c = o -> Ascii.compare a c = o.
Proof.
  unfold Ascii.compare. intros H1 H2. destruct o.
  - apply N.compare_eq_iff in H1, H2. apply N.compare_eq_iff. congruence.
  - apply N.compare_lt_iff in H1, H2. apply N.compare_lt_iff.
    exact (N.lt_trans _ _ _ H1 H2).
  - apply N.compare_gt_iff in H1, H2. apply N.compare_gt_iff.
    exact (N.lt_trans _ _ _ H2 H1).
Qed.

Lemma ascii_compare_eq (a b : ascii) : Ascii.compare a b = Eq -> a = b.
Proof. apply Ascii.compare_eq_iff. Qed.

Lemma string_compare_not_gt_trans (a : string) :
  forall b c, String.compare a b <> Gt -> String.compare b c <> Gt ->
              String.compare a c <> Gt.
Proof.
  induction a as [|x a IH]; intros b c H1 H2.
  - destruct c; simpl; discriminate.
  - destruct b as [|y b]; [simpl in H1; congruence|].
    destruct c as [|z c]; [simpl in H2; congruence|].
    simpl in *.
    destruct (Ascii.compare x y) eqn:Exy; [| |congruence].
    + apply ascii_compare_eq in Exy. subst y.
      destruct (Ascii.compare x z) eqn:Exz; [|discriminate|congruence].
      now apply (IH b c).
    + destruct (Ascii.compare y z) eqn:Eyz; [| |congruence].
      * apply ascii_compare_eq in Eyz. subst z. rewrite Exy. discriminate.
      * rewrite (ascii_compare_trans _ _ _ Exy Eyz). discriminate.
Qed.

Lemma string_leb_trans (a b c : string) :
  String.leb a b = true -> String.leb b c = true -> String.leb a c = true.
Proof.
  unfold String.leb. intros H1 H2.
  assert (Hab : String.compare a b <> Gt)
    by (destruct (String.compare a b); congruence).
  assert (Hbc : String.compare b c <> Gt)
    by (destruct (String.compare b c); congruence).
  pose proof (string_compare_not_gt_trans a b c Hab Hbc) as Hac.
  destruct (String.compare a c); congruence.
Qed.

End TextOrder.

(* ================================================================== *)
(** * The order and the filters of the search results *)
(* ================================================================== *)

Section SortedSearch.

Lemma z_leb_total (a b : Z) : Z.leb a b = true \/ Z.leb b a = true.
Proof. rewrite !Z.leb_le. lia. Qed.

Lemma z_leb_trans (a b c : Z) :
  Z.leb a b = true -> Z.leb b c = true -> Z.leb a c = true.
Proof. rewrite !Z.leb_le. lia. Qed.

Lemma column_leb_cases (column : string) (leb : FileRow -> FileRow -> bool) :
  column_leb column = Some leb ->
  leb = (fun a b => String.leb (name a) (name b))
  \/ leb = (fun a b => String.leb (path a) (path b))
  \/ leb = (fun a b => Z.leb (size a) (size b))
  \/ leb = (fun a b => Z.leb (mtime a) (mtime b)).
Proof.
  unfold column_leb. intros H.
  destruct (String.eqb column "name"); [injection H as <-; tauto|].
  destruct (String.eqb column "path"); [injection H as <-; tauto|].
  destruct (String.eqb column "size"); [injection H as <-; tauto|].
  destruct (String.eqb column "mtime"); [injection H as <-; tauto|].
  discriminate.
Qed.

Lemma direction_total (column : string) (leb : FileRow -> FileRow -> bool)
      (ascending : bool) (a b : FileRow) :
  column_leb column = Some leb ->
  direction ascending leb a b = true \/ direction ascending leb b a = true.
Proof.
  intros H. apply column_leb_cases in H.
  destruct H as [-> | [-> | [-> | ->]]]; destruct ascending; simpl;
    first [apply String.leb_total | apply z_leb_total].
Qed.

Lemma direction_trans (column : string) (leb : FileRow -> FileRow -> bool)
      (ascending : bool) (a b c : FileRow) :
  column_leb column = Some leb ->
  direction ascending leb a b = true -> direction ascending leb b c = true ->
  direction ascending leb a c = true.
Proof.
  intros H. apply column_leb_cases in H.
  destruct H as [-> | [-> | [-> | ->]]]; destruct ascending; simpl; intros H1 H2;
    first [ exact (string_leb_trans _ _ _ H1 H2)
          | exact (string_leb_trans _ _ _ H2 H1)
          | exact (z_leb_trans _ _ _ H1 H2)
          | exact (z_leb_trans _ _ _ H2 H1) ].
Qed.

Lemma collect_sorted (R : FileRow -> FileRow -> Prop)
      (max_results offset : Z) (base : option PurePath.t) (depth : Z)
      (rows : list FileRow) :
  forall (results : list FileRow) (skipped : Z),
    StronglySorted R (results ++ rows) ->
    StronglySorted R (collect max_results offset base depth rows results skipped).
Proof.
  induction rows as [|row rows IH]; intros results skipped H; simpl.
  - now rewrite app_nil_r in H.
  - destruct (Z.of_nat (List.length results) >=? max_results).
    { exact (sorted_app_l _ _ H). }
    destruct (depth_rejects base depth row).
    { apply IH. exact (sorted_drop_middle _ _ _ H). }
    destruct (skipped <? offset).
    { apply IH. exact (sorted_drop_middle _ _ _ H). }
    apply IH. now rewrite <- app_assoc.
Qed.

Lemma limit_sorted (R : FileRow -> FileRow -> Prop) (n : Z) (rows : list FileRow) :
  StronglySorted R rows -> StronglySorted R (Sqlite.limit n rows).
Proof.
  intros H. unfold Sqlite.limit. destruct (n <? 0); [exact H|].
  now apply sorted_firstn.
Qed.

Lemma collect_length (max_results offset : Z) (base : option PurePath.t)
      (depth : Z) (rows : list FileRow) :
  forall (results : list FileRow) (skipped : Z),
    Z.of_nat (List.length results) <= Z.max 0 max_results ->
    Z.of_nat (List.length
                (collect max_results offset base depth rows results skipped))
    <= Z.max 0 max_results.
Proof.
  induction rows as [|row rows IH]; intros results skipped H; simpl; [exact H|].
  destruct (Z.of_nat (List.length results) >=? max_results) eqn:E; [exact H|].
  destruct (depth_rejects base depth row); [now apply IH|].
  destruct (skipped <? offset); [now apply IH|].
  apply IH. rewrite length_app. simpl.
  rewrite Z.geb_leb in E. apply Z.leb_gt in E. lia.
Qed.

Lemma execute_rows (s : Service) (st : Statement) (rows : list FileRow) (r : FileRow) :
  execute (db s) st = Some rows -> In r rows ->
  (exists candidates, run_lookup (db s) (lookup st) = Some candidates
                      /\ In r candidates)
  /\ sql_where st r = true.
Proof.
  unfold execute, select_rows. intros H Hr.
  destruct (run_lookup (db s) (lookup st)) as [candidates|]; [|discriminate].
  destruct (column_leb (order_column st)) as [leb|]; [|discriminate].
  simpl in H. injection H as <-.
  apply limit_In in Hr. apply order_by_In in Hr. apply filter_In in Hr.
  split; [exists candidates|]; tauto.
Qed.

Lemma run_lookup_entries (d : Db) (lk : Lookup) (rows : list FileRow) (r : FileRow) :
  run_lookup d lk = Some rows -> In r rows -> In r (file_metadata d).
Proof.
  destruct lk; simpl; intros H Hr.
  - now injection H as <-.
  - injection H as <-. apply filter_In in Hr. tauto.
  - injection H as <-. apply nodup_In in Hr. apply in_flat_map in Hr.
    destruct Hr as [m [Hm Hr]]. apply in_flat_map in Hr.
    destruct Hr as [b [_ Hr]].
    destruct (Z.eqb (id m) (fst b) && String.eqb (snd b) bigram);
      [|contradiction].
    destruct Hr as [<-|[]]. exact Hm.
  - destruct (file_name_index d) as [docs|]; [|discriminate].
    destruct (Sqlite.parse_phrase expr) as [phrase|]; [|discriminate].
    injection H as <-. apply in_flat_map in Hr.
    destruct Hr as [m [Hm Hr]]. apply in_flat_map in Hr.
    destruct Hr as [fi [_ Hr]].
    destruct (Z.eqb (id m) (fst fi) && Sqlite.phrase_match phrase (snd fi));
      [|contradiction].
    destruct Hr as [<-|[]]. exact Hm.
Qed.

End SortedSearch.

(** X3. The rows [search] returns come in the requested order: each row
    is at or before every later one in the column [sort] names ([name]
    when it names none), ascending or descending as asked; neither the
    depth filter nor the offset disturbs the order. *)
Theorem search_results_sorted
        (s : Service) (query : string) (path_filter type_filter : option string)
        (max_results depth offset : Z) (sort : string) (ascending : bool)
        (results : list FileRow) (leb : FileRow -> FileRow -> bool) :
  fst (search s query path_filter type_filter
              max_results depth offset sort ascending) = Some results ->
  column_leb (sort_column sort) = Some leb ->
  StronglySorted (fun a b => direction ascending leb a b = true) results.
Proof.
  intros H Hleb. rewrite search_unfold in H. cbn [fst] in H.
  unfold execute, select_rows in H.
  destruct (run_lookup _ _) as [candidates|]; [|discriminate].
  cbn [order_column build_statement] in H. rewrite Hleb in H.
  cbn [option_map] in H. injection H as <-.
  apply collect_sorted. cbn [app]. apply limit_sorted.
  cbn [order_ascending build_statement].
  apply order_by_sorted.
  - intros a b. eapply direction_total; exact Hleb.
  - intros a b c. eapply direction_trans; exact Hleb.
Qed.

Lemma search_results_sorted_witness :
  StronglySorted
    (fun a b => direction false (fun a b => Z.leb (size a) (size b)) a b = true)
    [ mkFileRow 3 "/r/a/b/c" "c" "/r/a/b" "file" (Some "") 7 30 100;
      mkFileRow 1 "/r/a" "a" "/r" "directory" None 0 10 100;
      mkFileRow 2 "/r/a/b" "b" "/r/a" "directory" None 0 20 100 ].
Proof.
  apply (@search_results_sorted depth_scenario "" None None 10 0 0 "size" false);
    reflexivity.
Defined.

(** X4. Every row [search] returns is an entry of the store that passes
    the filters that were given: its path matches [path_filter%] under
    [LIKE] when a path filter is given, and its type is [type_filter] when
    a type filter other than [all] is given.  The number of rows never
    exceeds [max_results]. *)
Theorem search_results_filtered
        (s : Service) (query : string) (path_filter type_filter : option string)
        (max_results depth offset : Z) (sort : string) (ascending : bool)
        (results : list FileRow) :
  fst (search s query path_filter type_filter
              max_results depth offset sort ascending) = Some results ->
  Z.of_nat (List.length results) <= Z.max 0 max_results
  /\ forall r, In r results ->
       In r (file_metadata (db s))
       /\ (truthy path_filter = true ->
           Sqlite.like (text_of path_filter ++ "%") (path r) = true)
       /\ (truthy type_filter = true -> text_of type_filter <> "all" ->
           file_type r = text_of type_filter).
Proof.
  intros H. rewrite search_unfold in H. cbn [fst] in H.
  destruct (execute _ _) as [rows|] eqn:E; [|discriminate].
  cbn [option_map] in H. injection H as <-.
  split; [apply collect_length; simpl; lia|].
  intros r Hr. apply collect_In in Hr. destruct Hr as [[]|[Hr _]].
  destruct (@execute_rows _ _ _ _ E Hr) as [[candidates [Hrun Hc]] Hw].
  split.
  { rewrite <- (search_lookup_db s query). exact (@run_lookup_entries _ _ _ _ Hrun Hc). }
  unfold sql_where in Hw. cbn [path_like type_eq build_statement] in Hw.
  apply andb_prop in Hw. destruct Hw as [Hp Ht]. split.
  - intros Htruthy. now rewrite Htruthy in Hp.
  - intros Htruthy Hall. rewrite Htruthy in Ht.
    destruct (String.eqb (text_of type_filter) "all") eqn:Eall.
    { apply String.eqb_eq in Eall. contradiction. }
    cbn [andb negb] in Ht. destruct type_filter as [t|]; [|discriminate].
    now apply String.eqb_eq in Ht.
Qed.

Lemma search_results_filtered_witness :
  Z.of_nat (List.length
              [mkFileRow 3 "/r/a/b/c" "c" "/r/a/b" "file" (Some "") 7 30 100])
  <= Z.max 0 10
  /\ forall r,
       In r [mkFileRow 3 "/r/a/b/c" "c" "/r/a/b" "file" (Some "") 7 30 100] ->
       In r (file_metadata (db depth_scenario))
       /\ (truthy (Some "/r/a") = true ->
           Sqlite.like (text_of (Some "/r/a") ++ "%") (path r) = true)
       /\ (truthy (Some "file") = true -> text_of (Some "file") <> "all" ->
           file_type r = text_of (Some "file")).
Proof.
  apply (@search_results_filtered depth_scenario "" (Some "/r/a") (Some "file")
                                  10 0 0 "name" true).
  reflexivity.
Defined.

(* ================================================================== *)
(** * Watch roots: cover, registration and status *)
(* ================================================================== *)

Section CoveringRoot.

Lemma find_sorted_first (A : Type) (R : A -> A -> Prop) (P : A -> bool)
      (l : list A) (x : A) :
  StronglySorted R l -> find P l = Some x ->
  forall y, In y l -> P y = true -> y = x \/ R x y.
Proof.
  induction l as [|z l IH]; intros Hs Hf y Hy HP; [contradiction|].
  inversion Hs as [|? ? Hl Hz]; subst. simpl in Hf.
  destruct (P z) eqn:E.
  - injection Hf as <-. destruct Hy as [->|Hy]; [now left|].
    right. exact (proj1 (Forall_forall _ _) Hz y Hy).
  - destruct Hy as [->|Hy]; [congruence|]. now apply IH.
Qed.

Lemma covers_test (resolve : string -> PurePath.t) (root p : string) :
  (String.eqb (PurePath.to_str (resolve p)) (PurePath.to_str (resolve root))
   || match PurePath.relative_to (resolve p) (resolve root) with
      | Some _ => true
      | None => false
      end) = true
  <-> covers resolve root p.
Proof.
  unfold covers. rewrite orb_true_iff, String.eqb_eq. split.
  - intros [H|H]; [now left|]. right.
    destruct (PurePath.relative_to _ _) as [rel|]; [now exists rel | discriminate].
  - intros [H|[rel H]]; [now left|]. right. now rewrite H.
Qed.

End CoveringRoot.

(** X5. [get_covering_watch_path] answers with an enabled watch root that
    covers the path, and among the enabled roots that cover it no other has
    a longer path string; it answers [None] exactly when no enabled root
    covers the path. *)
Theorem covering_root_is_longest
        (resolve : string -> PurePath.t) (s : Service) (p : string) :
  match get_covering_watch_path resolve s p with
  | Some root =>
      (exists w, In w (watch_paths (db s)) /\ w_path w = root /\ w_enabled w = 1)
      /\ covers resolve root p
      /\ forall w, In w (watch_paths (db s)) -> w_enabled w = 1 ->
                   covers resolve (w_path w) p ->
                   (String.length (w_path w) <= String.length root)%nat
  | None =>
      forall w, In w (watch_paths (db s)) -> w_enabled w = 1 ->
                ~ covers resolve (w_path w) p
  end.
Proof.
  unfold get_covering_watch_path.
  set (leb := fun a b : WatchRow =>
                Nat.leb (String.length (w_path b)) (String.length (w_path a))).
  set (enabled := filter (fun w => Z.eqb (w_enabled w) 1) (watch_paths (db s))).
  set (test := fun row : WatchRow =>
                 String.eqb (PurePath.to_str (resolve p))
                            (PurePath.to_str (resolve (w_path row)))
                 || match PurePath.relative_to (resolve p) (resolve (w_path row)) with
                    | Some _ => true
                    | None => false
                    end).
  assert (Hin : forall w, In w (Sqlite.order_by leb enabled)
                          <-> In w (watch_paths (db s)) /\ w_enabled w = 1).
  { intros w. rewrite order_by_In. unfold enabled. rewrite filter_In.
    now rewrite Z.eqb_eq. }
  assert (Hsorted : StronglySorted (fun a b => leb a b = true)
                                   (Sqlite.order_by leb enabled)).
  { apply order_by_sorted.
    - intros a b. unfold leb. rewrite !Nat.leb_le. lia.
    - intros a b c. unfold leb. rewrite !Nat.leb_le. lia. }
  destruct (find test (Sqlite.order_by leb enabled)) as [x|] eqn:E; cbn [option_map].
  - pose proof (find_some _ _ E) as [Hx Htest].
    apply Hin in Hx. split; [exists x; tauto|].
    split; [now apply covers_test|].
    intros w Hw Hen Hcov.
    assert (Hw' : In w (Sqlite.order_by leb enabled)) by (apply Hin; tauto).
    apply covers_test in Hcov.
    destruct (find_sorted_first test Hsorted E w Hw' Hcov) as [->|Hle]; [lia|].
    unfold leb in Hle. now apply Nat.leb_le in Hle.
  - intros w Hw Hen Hcov.
    assert (Hw' : In w (Sqlite.order_by leb enabled)) by (apply Hin; tauto).
    apply covers_test in Hcov.
    pose proof (find_none _ _ E w Hw') as Hf. unfold test in Hf. congruence.
Qed.

Section RootStatus.

Lemma existsb_path_found (p : string) (ws : list WatchRow) :
  existsb (fun w => String.eqb (w_path w) p) ws = true
  <-> exists w, In w ws /\ w_path w = p.
Proof.
  rewrite existsb_exists. split; intros [w [Hw H]]; exists w; split; try exact Hw.
  - now apply String.eqb_eq.
  - now apply String.eqb_eq.
Qed.

Lemma register_path_known (p : string) (now : Z) (s : Service) :
  (exists w, In w (watch_paths (db s)) /\ w_path w = p) ->
  register_path p now s = s.
Proof.
  intros H. apply existsb_path_found in H. unfold register_path. now rewrite H.
Qed.

Lemma register_path_registers (p : string) (now : Z) (s : Service) :
  exists w, In w (watch_paths (db (register_path p now s))) /\ w_path w = p.
Proof.
  unfold register_path.
  destruct (existsb (fun w => String.eqb (w_path w) p) (watch_paths (db s))) eqn:E.
  - now apply existsb_path_found.
  - eexists. split; [cbn; apply in_or_app; right; left; reflexivity|reflexivity].
Qed.

Lemma update_path_status_rows (p status : string) (now : Z) (s : Service)
      (w' : WatchRow) :
  In w' (watch_paths (db (update_path_status p status now s))) <->
  exists w, In w (watch_paths (db s))
            /\ w' = if String.eqb (w_path w) p
                    then mkWatchRow (w_id w) (w_path w) (w_enabled w)
                                    (w_total_files w) (w_indexed_files w) status
                                    (w_last_full_scan w) (Some now)
                                    (w_error_message w)
                    else w.
Proof.
  unfold update_path_status. cbn [db with_db with_watch_paths watch_paths].
  rewrite in_map_iff. split; intros [w [H1 H2]]; exists w; split; auto.
Qed.

Lemma update_path_status_paths (p status : string) (now : Z) (s : Service) :
  map w_path (watch_paths (db (update_path_status p status now s)))
  = map w_path (watch_paths (db s)).
Proof.
  unfold update_path_status. cbn [db with_db with_watch_paths watch_paths].
  rewrite map_map. apply map_ext. intros w.
  now destruct (String.eqb (w_path w) p).
Qed.

Lemma update_path_status_entries (p status : string) (now : Z) (s : Service) :
  file_metadata (db (update_path_status p status now s)) = file_metadata (db s).
Proof. reflexivity. Qed.

Lemma ready_false_when_scanning (s : Service) (w : WatchRow) :
  In w (watch_paths (db s)) -> w_status w = "scanning" ->
  st_ready (get_status s) = false.
Proof.
  intros Hw Hst. unfold get_status. cbn [st_ready].
  assert (H : existsb (fun p => String.eqb (w_status p) "scanning")
                      (get_watch_paths s) = true).
  { apply existsb_exists. exists w. split.
    - unfold get_watch_paths. now apply order_by_In.
    - now rewrite Hst. }
  rewrite H. cbn [negb]. now rewrite andb_false_r.
Qed.

End RootStatus.

(** X6. Registering a path that is already a watch root changes nothing,
    so the status, the counters and the time stamps of its row are kept;
    a path that is not registered gets one new row at the end of the table,
    enabled, idle, with both counters at zero; and in either case the path
    is a watch root afterwards, so that registering twice is registering
    once. *)
Theorem register_path_once (s : Service) (p : string) (now now' : Z) :
  ((exists w, In w (watch_paths (db s)) /\ w_path w = p) ->
   register_path p now s = s)
  /\ ((forall w, In w (watch_paths (db s)) -> w_path w <> p) ->
      watch_paths (db (register_path p now s))
      = watch_paths (db s)
        ++ [mkWatchRow (next_rowid (map w_id (watch_paths (db s)))) p 1 0 0
                       "idle" None (Some now) None])
  /\ register_path p now' (register_path p now s) = register_path p now s
  /\ file_metadata (db (register_path p now s)) = file_metadata (db s).
Proof.
  split; [apply register_path_known|].
  split.
  { intros Hnew. unfold register_path.
    destruct (existsb (fun w => String.eqb (w_path w) p) (watch_paths (db s)))
      eqn:E; [|reflexivity].
    apply existsb_path_found in E. destruct E as [w [Hw Hp]].
    now destruct (Hnew w Hw). }
  split; [apply register_path_known, register_path_registers|].
  unfold register_path. now destruct (existsb _ _).
Qed.

(** X7. When [POST /paths] accepts a path (it exists, is a directory and
    no enabled root covers it), it answers [scanning], queues one scan of
    that path behind the tasks already queued, leaves the entries alone,
    and the path is a watch root in status [scanning], so that
    [get_status] reports the service as not ready. *)
Theorem add_path_starts_scan
        (fs : Admin.FileSystem) (now1 now2 : Z) (app : Admin.App) (p : string) :
  Admin.fs_exists fs p = true ->
  Admin.fs_is_dir fs p = true ->
  is_path_indexed (Admin.fs_resolve fs) (Admin.index_service app) p = false ->
  exists app',
    Admin.add_path fs now1 now2 app p = (Admin.Json p "scanning", app')
    /\ Admin.background_tasks app'
       = Admin.background_tasks app ++ [Admin.ScanPath p]
    /\ (exists w, In w (get_watch_paths (Admin.index_service app'))
                  /\ w_path w = p /\ w_status w = "scanning"
                  /\ w_last_updated w = Some now2)
    /\ st_ready (get_status (Admin.index_service app')) = false
    /\ file_metadata (db (Admin.index_service app'))
       = file_metadata (db (Admin.index_service app)).
Proof.
  intros Hex Hdir Hidx. unfold Admin.add_path. rewrite Hex, Hdir, Hidx.
  cbn [negb]. eexists. split; [reflexivity|]. cbn [Admin.background_tasks
                                                     Admin.index_service].
  split; [reflexivity|].
  destruct (register_path_registers p now1 (Admin.index_service app))
    as [w [Hw Hp]].
  assert (Hrow : In (mkWatchRow (w_id w) (w_path w) (w_enabled w)
                                (w_total_files w) (w_indexed_files w) "scanning"
                                (w_last_full_scan w) (Some now2)
                                (w_error_message w))
                    (watch_paths
                       (db (update_path_status p "scanning" now2
                              (register_path p now1 (Admin.index_service app)))))).
  { apply update_path_status_rows. exists w. split; [exact Hw|].
    now rewrite Hp, String.eqb_refl. }
  split.
  { eexists. split; [unfold get_watch_paths; apply order_by_In; exact Hrow|].
    now repeat split. }
  split.
  { now apply (ready_false_when_scanning _ _ Hrow). }
  rewrite update_path_status_entries.
  unfold register_path. now destruct (existsb _ _).
Qed.

Lemma add_path_starts_scan_witness :
  exists app',
    Admin.add_path plain_fs 2 3 covered_app "/q" = (Admin.Json "/q" "scanning", app')
    /\ Admin.background_tasks app'
       = Admin.background_tasks covered_app ++ [Admin.ScanPath "/q"]
    /\ (exists w, In w (get_watch_paths (Admin.index_service app'))
                  /\ w_path w = "/q" /\ w_status w = "scanning"
                  /\ w_last_updated w = Some 3)
    /\ st_ready (get_status (Admin.index_service app')) = false
    /\ file_metadata (db (Admin.index_service app'))
       = file_metadata (db (Admin.index_service covered_app)).
Proof.
  apply (@add_path_starts_scan plain_fs 2 3 covered_app "/q"); reflexivity.
Defined.

Section RebuildEndpoint.

Lemma mark_scanning_paths (clock : nat -> Z) (targets : list WatchRow) :
  forall k s,
    map w_path (watch_paths (db (Admin.mark_scanning clock k targets s)))
    = map w_path (watch_paths (db s))
    /\ file_metadata (db (Admin.mark_scanning clock k targets s))
       = file_metadata (db s).
Proof.
  induction targets as [|t targets IH]; intros k s; [now split|].
  simpl. destruct (IH (S k) (update_path_status (w_path t) "scanning" (clock k) s))
    as [H1 H2].
  rewrite H1, H2, update_path_status_paths. now split.
Qed.

Lemma mark_scanning_rows (clock : nat -> Z) (targets : list WatchRow) :
  forall k s w',
    In w' (watch_paths (db (Admin.mark_scanning clock k targets s))) ->
    (In (w_path w') (map w_path targets) /\ w_status w' = "scanning")
    \/ (~ In (w_path w') (map w_path targets) /\ In w' (watch_paths (db s))).
Proof.
  induction targets as [|t targets IH]; intros k s w' Hw'.
  - right. split; [intros []|exact Hw'].
  - simpl in Hw'. apply IH in Hw'. destruct Hw' as [[Hin Hst]|[Hnot Hw']].
    + left. split; [now right | exact Hst].
    + apply update_path_status_rows in Hw'. destruct Hw' as [w [Hw Heq]].
      destruct (String.eqb (w_path w) (w_path t)) eqn:E.
      * left. subst w'. cbn [w_path w_status].
        apply String.eqb_eq in E. split; [left; now symmetry | reflexivity].
      * subst w'. right. split; [|exact Hw].
        intros [Heq|Hin]; [|contradiction].
        rewrite Heq, String.eqb_refl in E. discriminate.
Qed.

End RebuildEndpoint.

(** X8. [POST /rebuild] answers [no_paths] when no watch root is
    registered, and reports a named path as not found when there are roots
    but none of that name, changing nothing in either case.  Otherwise it queues one rebuild task
    per target, in the order of [get_watch_paths], the targets being the
    root of that name or, without a name, all roots; afterwards every
    targeted root is in status [scanning], the other roots and all entries
    are as before, and [get_status] reports the service as not ready. *)
Theorem rebuild_index_outcomes
        (clock : nat -> Z) (s : Service) (p ignore_patterns : option string) :
  let targets :=
    if truthy p
    then filter (fun w => String.eqb (w_path w) (text_of p)) (get_watch_paths s)
    else get_watch_paths s in
  match Admin.rebuild_index clock s p ignore_patterns with
  | (Admin.NoPaths, s', tasks) =>
      watch_paths (db s) = [] /\ s' = s /\ tasks = []
  | (Admin.PathNotFound, s', tasks) =>
      truthy p = true
      /\ watch_paths (db s) <> []
      /\ (forall w, In w (watch_paths (db s)) -> w_path w <> text_of p)
      /\ s' = s /\ tasks = []
  | (Admin.Started n, s', tasks) =>
      targets <> []
      /\ n = List.length targets
      /\ tasks = map (fun w => Admin.RebuildPath (w_path w) ignore_patterns) targets
      /\ map w_path (watch_paths (db s')) = map w_path (watch_paths (db s))
      /\ file_metadata (db s') = file_metadata (db s)
      /\ (forall w', In w' (watch_paths (db s')) ->
                     if existsb (fun w => String.eqb (w_path w) (w_path w')) targets
                     then w_status w' = "scanning"
                     else In w' (watch_paths (db s)))
      /\ st_ready (get_status s') = false
  end.
Proof.
  intros targets. unfold Admin.rebuild_index.
  destruct (get_watch_paths s) as [|w0 ws] eqn:Eroots.
  { split; [|now split]. unfold get_watch_paths in Eroots.
    apply (f_equal (@List.length WatchRow)) in Eroots.
    rewrite order_by_length in Eroots.
    now destruct (watch_paths (db s)). }
  fold targets. destruct targets as [|t ts] eqn:Et.
  { unfold targets in Et. destruct (truthy p) eqn:Ep; [|discriminate].
    split; [reflexivity|].
    split.
    { intros Hnil. unfold get_watch_paths in Eroots. rewrite Hnil in Eroots.
      discriminate. }
    split; [|now split].
    intros w Hw Heq.
    assert (Hin : In w (filter (fun w => String.eqb (w_path w) (text_of p))
                               (w0 :: ws))).
    { apply filter_In. split.
      - rewrite <- Eroots. unfold get_watch_paths. now apply order_by_In.
      - now apply String.eqb_eq. }
    rewrite Et in Hin. contradiction. }
  rewrite <- Et.
  assert (Hsub : forall w, In w targets -> In w (watch_paths (db s))).
  { intros w Hw. apply (order_by_In (fun a b => String.leb (w_path a) (w_path b))).
    fold (get_watch_paths s). rewrite Eroots. unfold targets in Hw.
    destruct (truthy p); [apply filter_In in Hw; tauto | exact Hw]. }
  destruct (mark_scanning_paths clock targets 0 s) as [Hpaths Hentries].
  assert (Hrows : forall w',
             In w' (watch_paths (db (Admin.mark_scanning clock 0 targets s))) ->
             if existsb (fun w => String.eqb (w_path w) (w_path w')) targets
             then w_status w' = "scanning"
             else In w' (watch_paths (db s))).
  { intros w' Hw'. apply mark_scanning_rows in Hw'.
    destruct (existsb (fun w => String.eqb (w_path w) (w_path w')) targets) eqn:E.
    - destruct Hw' as [[_ H]|[Hnot _]]; [exact H|].
      apply existsb_exists in E. destruct E as [w [Hw Heq]].
      apply String.eqb_eq in Heq. destruct Hnot. rewrite <- Heq. now apply in_map.
    - destruct Hw' as [[Hin _]|[_ H]]; [|exact H].
      apply in_map_iff in Hin. destruct Hin as [w [Heq Hw]].
      assert (Hex : existsb (fun w => String.eqb (w_path w) (w_path w')) targets
                    = true).
      { apply existsb_exists. exists w. split; [exact Hw|]. now apply String.eqb_eq. }
      congruence. }
  split; [rewrite Et; discriminate|].
  split; [reflexivity|]. split; [reflexivity|].
  split; [exact Hpaths|]. split; [exact Hentries|]. split; [exact Hrows|].
  assert (Ht : In t targets) by (rewrite Et; now left).
  assert (Hp : In (w_path t)
                  (map w_path
                       (watch_paths (db (Admin.mark_scanning clock 0 targets s))))).
  { rewrite Hpaths. apply in_map. now apply Hsub. }
  apply in_map_iff in Hp. destruct Hp as [w' [Heq Hw']].
  apply (ready_false_when_scanning _ _ Hw').
  specialize (Hrows w' Hw').
  assert (Hex : existsb (fun w => String.eqb (w_path w) (w_path w')) targets = true).
  { apply existsb_exists. exists t. split; [exact Ht|]. now apply String.eqb_eq. }
  now rewrite Hex in Hrows.
Qed.

(* ================================================================== *)
(** * Ignore patterns: the stored set *)
(* ================================================================== *)

Section IgnoreSet.

Lemma existsb_same_members (A : Type) (f : A -> bool) (l l' : list A) :
  (forall x, In x l -> In x l') -> existsb f l = true -> existsb f l' = true.
Proof.
  intros H Hex. apply existsb_exists in Hex. destruct Hex as [x [Hx Hf]].
  apply existsb_exists. exists x. split; [now apply H | exact Hf].
Qed.

Lemma existsb_members (A : Type) (f : A -> bool) (l l' : list A) :
  (forall x, In x l <-> In x l') -> existsb f l = existsb f l'.
Proof.
  intros H. destruct (existsb f l) eqn:E.
  - symmetry. apply (existsb_same_members f l l'); [intros x; apply H | exact E].
  - destruct (existsb f l') eqn:E'; [|reflexivity].
    rewrite (existsb_same_members f l' l) in E; [discriminate| |exact E'].
    intros x. apply H.
Qed.

Lemma add_ignore_pattern_members (p q : string) (s : Service) :
  In q (ignore_patterns (db (add_ignore_pattern p s)))
  <-> q = p \/ In q (ignore_patterns (db s)).
Proof.
  unfold add_ignore_pattern.
  destruct (existsb (String.eqb p) (ignore_patterns (db s))) eqn:E.
  - split; [now right|]. intros [->|H]; [|exact H].
    apply existsb_exists in E. destruct E as [x [Hx Heq]].
    apply String.eqb_eq in Heq. now subst x.
  - cbn [db with_db with_ignore_patterns ignore_patterns]. rewrite in_app_iff.
    simpl. split; [intros [H|[H|[]]]|intros [H|H]]; auto.
Qed.

Lemma remove_ignore_pattern_members (p q : string) (s : Service) :
  In q (ignore_patterns (db (remove_ignore_pattern p s)))
  <-> q <> p /\ In q (ignore_patterns (db s)).
Proof.
  unfold remove_ignore_pattern.
  cbn [db with_db with_ignore_patterns ignore_patterns]. rewrite filter_In.
  split; intros [H1 H2]; split; auto.
  - intros ->. now rewrite String.eqb_refl in H2.
  - destruct (String.eqb q p) eqn:E; [|reflexivity].
    apply String.eqb_eq in E. contradiction.
Qed.

Lemma add_all_members (patterns : list string) (q : string) :
  forall s,
    In q (ignore_patterns
            (db (fold_left (fun s pattern => add_ignore_pattern pattern s)
                           patterns s)))
    <-> In q patterns \/ In q (ignore_patterns (db s)).
Proof.
  induction patterns as [|p patterns IH]; intros s; simpl; [tauto|].
  rewrite IH, add_ignore_pattern_members. split; intros H; intuition auto.
Qed.

Lemma get_ignore_patterns_members (s : Service) (q : string) :
  In q (get_ignore_patterns s) <-> In q (ignore_patterns (db s)).
Proof. apply order_by_In. Qed.

End IgnoreSet.

(** X9. The stored ignore patterns behave as a set that is read in
    sorted order: after [add_ignore_pattern] the patterns are the old ones
    and the new one, after [remove_ignore_pattern] the old ones without the
    removed one, after [POST /ignores/defaults] the old ones and the ten
    defaults; adding a pattern a second time changes nothing; and
    [get_ignore_patterns] lists them in ascending order. *)
Theorem ignore_patterns_are_a_set (s : Service) (p q : string) :
  (In q (get_ignore_patterns (add_ignore_pattern p s))
   <-> q = p \/ In q (get_ignore_patterns s))
  /\ (In q (get_ignore_patterns (remove_ignore_pattern p s))
      <-> q <> p /\ In q (get_ignore_patterns s))
  /\ (In q (get_ignore_patterns (Admin.add_default_ignores s))
      <-> In q Admin.default_ignores \/ In q (get_ignore_patterns s))
  /\ add_ignore_pattern p (add_ignore_pattern p s) = add_ignore_pattern p s
  /\ StronglySorted (fun a b => String.leb a b = true) (get_ignore_patterns s).
Proof.
  rewrite !get_ignore_patterns_members.
  split; [apply add_ignore_pattern_members|].
  split; [apply remove_ignore_pattern_members|].
  split; [apply add_all_members|].
  split.
  - assert (H : existsb (String.eqb p)
                        (ignore_patterns (db (add_ignore_pattern p s))) = true).
    { apply existsb_exists. exists p. split; [|apply String.eqb_refl].
      apply add_ignore_pattern_members. now left. }
    unfold add_ignore_pattern at 1. now rewrite H.
  - apply order_by_sorted.
    + apply String.leb_total.
    + apply string_leb_trans.
Qed.

(** X10. Adding an ignore pattern never makes [is_ignored] answer [False]
    for a path it ignored before: the answer afterwards is the old answer
    or the match of the path against the new pattern. *)
Theorem is_ignored_after_add (s : Service) (pattern p : string) :
  is_ignored (add_ignore_pattern pattern s) p
  = is_ignored s p
    || pattern_ignores (PurePath.to_str (PurePath.parse p))
                       (PurePath.parts (PurePath.parse p)) pattern.
Proof.
  rewrite !is_ignored_existsb.
  set (f := pattern_ignores (PurePath.to_str (PurePath.parse p))
                            (PurePath.parts (PurePath.parse p))).
  rewrite (existsb_members f (get_ignore_patterns (add_ignore_pattern pattern s))
                           (get_ignore_patterns s ++ [pattern])).
  - rewrite existsb_app. simpl. now rewrite orb_false_r.
  - intros x. rewrite in_app_iff, !get_ignore_patterns_members,
      add_ignore_pattern_members. simpl. intuition auto.
Qed.

(* ================================================================== *)
(** * The start-up check of the bigram table *)
(* ================================================================== *)

(** X11. [ensure_bigram_index_populated] rebuilds the bigram table only
    when there are entries and the table has no row at all, and then the
    table is consistent with the entries.  A table that holds any row, even
    a stale one, is left as it is, and so is every other table. *)
Theorem ensure_bigram_index_populated_cases (s : Service) :
  (file_metadata (db s) <> [] -> file_name_bigrams (db s) = [] ->
   ensure_bigram_index_populated s = rebuild_bigram_index s
   /\ (NoDup (map id (file_metadata (db s))) ->
       bigrams_consistent (db (ensure_bigram_index_populated s))))
  /\ (file_name_bigrams (db s) <> [] -> ensure_bigram_index_populated s = s)
  /\ (file_metadata (db s) = [] -> ensure_bigram_index_populated s = s)
  /\ file_metadata (db (ensure_bigram_index_populated s)) = file_metadata (db s)
  /\ file_name_index (db (ensure_bigram_index_populated s))
     = file_name_index (db s).
Proof.
  unfold ensure_bigram_index_populated.
  split.
  { intros Hrows Hempty. rewrite Hempty.
    destruct (file_metadata (db s)) as [|r rows] eqn:E; [contradiction|].
    cbn [List.length Nat.ltb Nat.leb Nat.eqb andb].
    split; [reflexivity|]. intros Hnd. apply rebuild_bigram_index_consistent.
    now rewrite E. }
  split.
  { intros H. destruct (file_name_bigrams (db s)); [contradiction|].
    cbn [List.length Nat.eqb]. now rewrite andb_false_r. }
  split.
  { intros H. now rewrite H. }
  split; match goal with |- context [if ?b then _ else _] => destruct b end;
    reflexivity.
Qed.

(* ================================================================== *)
(** * The scanner: batches *)
(* ================================================================== *)

Section Batches.
Variable batch_size : Z.

Lemma drain_batches :
  0 < batch_size ->
  forall (fuel : nat) (batch : list FileInfo),
    (List.length batch < fuel)%nat ->
    exists calls rest,
      ParallelScanner.drain fuel batch_size batch = Some (calls, rest)
      /\ List.concat calls ++ rest = batch
      /\ Forall (fun c => Z.of_nat (List.length c) = batch_size) calls
      /\ Z.of_nat (List.length rest) < batch_size.
Proof.
  intros Hpos. induction fuel as [|fuel IH]; intros batch Hlen; [lia|].
  simpl. destruct (Z.of_nat (List.length batch) >=? batch_size) eqn:E.
  - rewrite Z.geb_leb in E. apply Z.leb_le in E.
    unfold ParallelScanner.slice_from, ParallelScanner.slice_to.
    assert (Hneg : (batch_size <? 0) = false) by (apply Z.ltb_ge; lia).
    rewrite Hneg.
    destruct (IH (skipn (Z.to_nat batch_size) batch)) as (calls & rest & H1 & H2 & H3 & H4).
    { rewrite length_skipn. lia. }
    rewrite H1. exists (firstn (Z.to_nat batch_size) batch :: calls), rest.
    split; [reflexivity|]. split.
    { simpl. rewrite <- app_assoc, H2. apply firstn_skipn. }
    split; [|exact H4].
    constructor; [|exact H3]. rewrite length_firstn. lia.
  - rewrite Z.geb_leb in E. apply Z.leb_gt in E.
    exists [], batch. repeat split; [constructor | exact E].
Qed.

Lemma feed_batches :
  0 < batch_size ->
  forall (completed : list (list FileInfo)) (batch : list FileInfo),
    Z.of_nat (List.length batch) < batch_size ->
    exists calls rest,
      ParallelScanner.feed batch_size completed batch = Some (calls, rest)
      /\ List.concat calls ++ rest = batch ++ List.concat completed
      /\ Forall (fun c => Z.of_nat (List.length c) = batch_size) calls
      /\ Z.of_nat (List.length rest) < batch_size.
Proof.
  intros Hpos. induction completed as [|c completed IH]; intros batch Hlen.
  - exists [], batch. simpl. rewrite app_nil_r. repeat split; [constructor|exact Hlen].
  - simpl.
    destruct (@drain_batches Hpos (S (List.length (batch ++ c))) (batch ++ c))
      as (calls & rest & H1 & H2 & H3 & H4); [lia|].
    simpl in H1. rewrite H1.
    destruct (IH rest H4) as (calls' & rest' & G1 & G2 & G3 & G4).
    rewrite G1. exists (calls ++ calls'), rest'.
    split; [reflexivity|]. split.
    { rewrite concat_app, <- app_assoc, G2, app_assoc, H2. now rewrite <- app_assoc. }
    split; [|exact G4]. apply Forall_app. now split.
Qed.

Lemma drain_never_ends :
  batch_size <= 0 ->
  forall (fuel : nat) (batch : list FileInfo),
    ParallelScanner.drain fuel batch_size batch = None.
Proof.
  intros Hle. induction fuel as [|fuel IH]; intros batch; [reflexivity|].
  simpl.
  assert (E : (Z.of_nat (List.length batch) >=? batch_size) = true).
  { rewrite Z.geb_leb. apply Z.leb_le. lia. }
  rewrite E. now rewrite IH.
Qed.

End Batches.

(** X12. With a positive batch size the batching loop of [scan_directory]
    ends, and it cuts the stream of finished subdirectory results into
    batches without losing, repeating or reordering a record: the batches
    handed to [on_batch] followed by the remainder are the results in the
    order they arrived, every batch handed over inside the loop has exactly
    [batch_size] records, and the remainder has fewer. *)
Theorem feed_cuts_into_batches
        (batch_size : Z) (completed : list (list FileInfo)) :
  0 < batch_size ->
  exists calls rest,
    ParallelScanner.feed batch_size completed [] = Some (calls, rest)
    /\ List.concat calls ++ rest = List.concat completed
    /\ Forall (fun c => Z.of_nat (List.length c) = batch_size) calls
    /\ Z.of_nat (List.length rest) < batch_size.
Proof.
  intros Hpos.
  assert (Hempty : Z.of_nat (List.length (@nil FileInfo)) < batch_size)
    by (simpl; lia).
  exact (@feed_batches batch_size Hpos completed [] Hempty).
Qed.

Lemma feed_cuts_into_batches_witness :
  exists calls rest,
    ParallelScanner.feed 2
      [ [mkFileInfo "/r/a/x" "x" "/r/a" "file" (Some "") 1 1;
         mkFileInfo "/r/a/y" "y" "/r/a" "file" (Some "") 1 1;
         mkFileInfo "/r/a/z" "z" "/r/a" "file" (Some "") 1 1] ] []
    = Some (calls, rest)
    /\ List.concat calls ++ rest
       = List.concat
           [ [mkFileInfo "/r/a/x" "x" "/r/a" "file" (Some "") 1 1;
              mkFileInfo "/r/a/y" "y" "/r/a" "file" (Some "") 1 1;
              mkFileInfo "/r/a/z" "z" "/r/a" "file" (Some "") 1 1] ]
    /\ Forall (fun c => Z.of_nat (List.length c) = 2) calls
    /\ Z.of_nat (List.length rest) < 2.
Proof.
  apply feed_cuts_into_batches. lia.
Defined.

(* ================================================================== *)
(** * The scanner: what a scan hands over *)
(* ================================================================== *)

Section ScanOutcomes.
Variable max_workers : Z.
Variable ignore_patterns : list string.
Variable batch_size : Z.
Variable as_completed : list (list FileInfo) -> list (list FileInfo).
Variable path : PurePath.t.

Lemma subdir_item_file (n : ParallelScanner.Node) :
  ParallelScanner.node_is_dir n = false ->
  ParallelScanner.subdir_item ignore_patterns path n = [].
Proof.
  intros H. unfold ParallelScanner.subdir_item.
  destruct (ParallelScanner._should_ignore _ _); [reflexivity|].
  destruct n; [reflexivity | discriminate].
Qed.

Lemma no_subdirs (entries : list ParallelScanner.Node) :
  (forall n, In n entries -> ParallelScanner.node_is_dir n = false) ->
  flat_map (ParallelScanner.subdir_item ignore_patterns path) entries = [].
Proof.
  induction entries as [|n entries IH]; intros H; [reflexivity|].
  simpl. rewrite subdir_item_file by (apply H; now left).
  apply IH. intros m Hm. apply H. now right.
Qed.

Lemma feed_never_ends (c : list FileInfo) (completed : list (list FileInfo))
      (batch : list FileInfo) :
  batch_size <= 0 ->
  ParallelScanner.feed batch_size (c :: completed) batch = None.
Proof.
  intros H. cbn [ParallelScanner.feed]. now rewrite drain_never_ends.
Qed.

End ScanOutcomes.

(** X13. With a batch size of zero or less the batching loop never
    ends, whatever it is given: with a positive number of workers, the scan
    of a directory that has at least one subdirectory to walk does not
    return, and neither does [scan_with_index_service]. *)
Theorem scan_never_returns
        (max_workers : Z) (ignore_patterns : list string) (batch_size : Z)
        (as_completed : list (list FileInfo) -> list (list FileInfo))
        (clock : nat -> Z) (path : PurePath.t)
        (name : string) (st : option (Z * Z))
        (entries : list ParallelScanner.Node) (s : Service) :
  batch_size <= 0 ->
  0 < max_workers ->
  (forall l, Permutation l (as_completed l)) ->
  flat_map (ParallelScanner.subdir_item ignore_patterns path) entries <> [] ->
  (forall fuel batch, ParallelScanner.drain fuel batch_size batch = None)
  /\ ParallelScanner.scan_directory
       max_workers ignore_patterns batch_size as_completed path
       (Some (ParallelScanner.DirNode name st (Some entries)))
     = ParallelScanner.NeverReturns
  /\ ParallelScanner.scan_with_index_service
       max_workers ignore_patterns batch_size as_completed clock path
       (Some (ParallelScanner.DirNode name st (Some entries))) s
     = ParallelScanner.Hangs.
Proof.
  intros Hsize Hworkers Hperm Hsub.
  split; [now apply drain_never_ends|].
  assert (Hscan : ParallelScanner.scan_directory
                    max_workers ignore_patterns batch_size as_completed path
                    (Some (ParallelScanner.DirNode name st (Some entries)))
                  = ParallelScanner.NeverReturns).
  { unfold ParallelScanner.scan_directory.
    destruct (flat_map (ParallelScanner.subdir_item ignore_patterns path) entries)
      as [|d ds] eqn:E; [contradiction|].
    assert (Hw : (max_workers <=? 0) = false) by (apply Z.leb_gt; lia).
    rewrite Hw.
    match goal with
    | |- context [as_completed ?l] =>
        pose proof (Hperm l) as Hp; destruct (as_completed l) as [|c completed]
    end.
    - apply Permutation_length in Hp. discriminate.
    - now rewrite feed_never_ends. }
  split; [exact Hscan|].
  unfold ParallelScanner.scan_with_index_service. now rewrite Hscan.
Qed.

Lemma scan_never_returns_witness :
  (forall fuel batch, ParallelScanner.drain fuel 0 batch = None)
  /\ ParallelScanner.scan_directory
       4 [] 0 (fun l => l) (PurePath.parse "/r")
       (Some (ParallelScanner.DirNode "r" (Some (0, 1))
                (Some [ParallelScanner.DirNode "a" (Some (0, 2)) (Some [])])))
     = ParallelScanner.NeverReturns
  /\ ParallelScanner.scan_with_index_service
       4 [] 0 (fun l => l) (fun _ => 5) (PurePath.parse "/r")
       (Some (ParallelScanner.DirNode "r" (Some (0, 1))
                (Some [ParallelScanner.DirNode "a" (Some (0, 2)) (Some [])])))
       (init_db true)
     = ParallelScanner.Hangs.
Proof.
  apply scan_never_returns.
  - lia.
  - lia.
  - intros l. apply Permutation_refl.
  - discriminate.
Defined.

(** X14. A directory without subdirectories is scanned but not indexed:
    [scan_directory] returns the records of its files and hands no batch to
    [on_batch], so [scan_with_index_service] counts zero and leaves the
    store as it was. *)
Theorem scan_flat_directory
        (max_workers : Z) (ignore_patterns : list string) (batch_size : Z)
        (as_completed : list (list FileInfo) -> list (list FileInfo))
        (clock : nat -> Z) (path : PurePath.t)
        (name : string) (st : option (Z * Z))
        (entries : list ParallelScanner.Node) (s : Service) :
  (forall n, In n entries -> ParallelScanner.node_is_dir n = false) ->
  ParallelScanner.scan_directory
    max_workers ignore_patterns batch_size as_completed path
    (Some (ParallelScanner.DirNode name st (Some entries)))
  = ParallelScanner.Returned
      (flat_map (ParallelScanner.direct_item ignore_patterns path) entries) []
  /\ ParallelScanner.scan_with_index_service
       max_workers ignore_patterns batch_size as_completed clock path
       (Some (ParallelScanner.DirNode name st (Some entries))) s
     = ParallelScanner.Counted 0 s.
Proof.
  intros Hflat.
  assert (Hscan : ParallelScanner.scan_directory
                    max_workers ignore_patterns batch_size as_completed path
                    (Some (ParallelScanner.DirNode name st (Some entries)))
                  = ParallelScanner.Returned
                      (flat_map (ParallelScanner.direct_item ignore_patterns path)
                                entries) []).
  { unfold ParallelScanner.scan_directory. now rewrite no_subdirs. }
  split; [exact Hscan|].
  unfold ParallelScanner.scan_with_index_service. now rewrite Hscan.
Qed.

Lemma scan_flat_directory_witness :
  ParallelScanner.scan_directory
    4 [] 1000 (fun l => l) (PurePath.parse "/r")
    (Some (ParallelScanner.DirNode "r" (Some (0, 1))
             (Some [ParallelScanner.FileNode "a.txt" (Some (7, 2))])))
  = ParallelScanner.Returned
      (flat_map (ParallelScanner.direct_item [] (PurePath.parse "/r"))
                [ParallelScanner.FileNode "a.txt" (Some (7, 2))]) []
  /\ ParallelScanner.scan_with_index_service
       4 [] 1000 (fun l => l) (fun _ => 5) (PurePath.parse "/r")
       (Some (ParallelScanner.DirNode "r" (Some (0, 1))
                (Some [ParallelScanner.FileNode "a.txt" (Some (7, 2))])))
       (init_db true)
     = ParallelScanner.Counted 0 (init_db true).
Proof.
  apply scan_flat_directory.
  intros n [<-|[]]. reflexivity.
Defined.

Section BatchWrites.

(** A run of [add_file] calls, each with its own clock reading. *)
Let adds (l : list (FileInfo * Z)) (s : Service) : Service :=
  fold_left (fun s ft => add_file (fst ft) (snd ft) s) l s.

Lemma adds_frame (l : list (FileInfo * Z)) (q : string) :
  forall s, (forall ft, In ft l -> fi_path (fst ft) <> q) ->
            get_file (adds l s) q = get_file s q.
Proof.
  induction l as [|ft l IH]; intros s H; [reflexivity|].
  unfold adds in *. simpl. rewrite IH.
  - apply get_file_add_file_other. intros ->. apply (H ft); [now left|reflexivity].
  - intros ft' Hft'. apply H. now right.
Qed.

Lemma adds_present (l : list (FileInfo * Z)) :
  forall s ft, In ft l ->
               exists row, get_file (adds l s) (fi_path (fst ft)) = Some row.
Proof.
  induction l as [|ft0 l IH]; intros s ft Hft; [contradiction|].
  unfold adds in *. simpl.
  destruct (in_dec string_dec (fi_path (fst ft)) (map (fun x => fi_path (fst x)) l))
    as [Hin|Hnot].
  - apply in_map_iff in Hin. destruct Hin as [ft' [Heq Hft']].
    destruct (IH (add_file (fst ft0) (snd ft0) s) ft' Hft') as [row Hrow].
    exists row. now rewrite <- Heq.
  - destruct Hft as [->|Hft].
    + eexists. rewrite adds_frame.
      * apply get_file_add_file_same.
      * intros ft' Hft' Heq. apply Hnot. rewrite <- Heq.
        now apply (in_map (fun x => fi_path (fst x))).
    + destruct Hnot. now apply (in_map (fun x => fi_path (fst x))).
Qed.

Lemma with_db_same (s : Service) : with_db s (db s) = s.
Proof. now destruct s. Qed.

Lemma batch_as_adds (now : Z) (files : list FileInfo) :
  forall s, batch_add_files files now s = adds (map (fun f => (f, now)) files) s.
Proof.
  assert (H : forall s, with_db s (fold_left (fun d f => insert_or_replace f now d)
                                             files (db s))
                        = adds (map (fun f => (f, now)) files) s).
  { induction files as [|f files IH]; intros s; [apply with_db_same|].
    unfold adds in *. simpl. rewrite <- IH. reflexivity. }
  intros s. destruct files as [|f files]; [reflexivity|]. apply H.
Qed.

Lemma adds_app (l l' : list (FileInfo * Z)) (s : Service) :
  adds (l ++ l') s = adds l' (adds l s).
Proof. unfold adds. apply fold_left_app. Qed.

Lemma write_batches_as_adds (clock : nat -> Z) (calls : list (list FileInfo)) :
  forall k s,
    exists l,
      snd (fold_left (fun '(k, s) batch =>
                        (S k, batch_add_files batch (clock k) s))
                     calls (k, s))
      = adds l s
      /\ map fst l = List.concat calls.
Proof.
  induction calls as [|c calls IH]; intros k s; [now exists []|].
  simpl. destruct (IH (S k) (batch_add_files c (clock k) s)) as [l [H1 H2]].
  exists (map (fun f => (f, clock k)) c ++ l). split.
  - rewrite H1, adds_app. now rewrite batch_as_adds.
  - rewrite map_app, map_map, H2. simpl. now rewrite map_id.
Qed.

Lemma write_batches_effect (clock : nat -> Z) (calls : list (list FileInfo))
      (s : Service) :
  let s' := snd (fold_left (fun '(k, s) batch =>
                              (S k, batch_add_files batch (clock k) s))
                           calls (O, s)) in
  (forall r, In r (List.concat calls) ->
             exists row, get_file s' (fi_path r) = Some row)
  /\ (forall q, (forall r, In r (List.concat calls) -> fi_path r <> q) ->
                get_file s' q = get_file s q).
Proof.
  intros s'. destruct (write_batches_as_adds clock calls O s) as [l [H1 H2]].
  subst s'. rewrite H1. split.
  - intros r Hr. rewrite <- H2 in Hr. apply in_map_iff in Hr.
    destruct Hr as [ft [<- Hft]]. now apply adds_present.
  - intros q Hq. apply adds_frame. intros ft Hft. apply Hq.
    rewrite <- H2. now apply in_map.
Qed.

Lemma count_batches (calls : list (list FileInfo)) :
  forall n, fold_left (fun n batch => n + Z.of_nat (List.length batch)) calls n
            = n + Z.of_nat (List.length (List.concat calls)).
Proof.
  induction calls as [|c calls IH]; intros n; simpl; [lia|].
  rewrite IH, length_app. lia.
Qed.

Lemma Permutation_concat (A : Type) (l l' : list (list A)) :
  Permutation l l' -> Permutation (List.concat l) (List.concat l').
Proof.
  induction 1 as [|x l l' _ IH|x y l|l l' l'' _ IH1 _ IH2]; simpl.
  - constructor.
  - now apply Permutation_app_head.
  - rewrite !app_assoc. apply Permutation_app_tail, Permutation_app_comm.
  - now transitivity (List.concat l').
Qed.

End BatchWrites.

Lemma write_batches_roots (clock : nat -> Z) (calls : list (list FileInfo)) :
  forall k s,
    watch_paths (db (snd (fold_left (fun '(k, s) batch =>
                                       (S k, batch_add_files batch (clock k) s))
                                    calls (k, s))))
    = watch_paths (db s).
Proof.
  induction calls as [|c calls IH]; intros k s; [reflexivity|].
  simpl. rewrite IH. unfold batch_add_files. destruct c as [|f c]; [reflexivity|].
  cbn [db with_db]. apply batch_watch_paths.
Qed.

Lemma scan_subdirectories_effect
        (max_workers : Z) (ignore_patterns : list string) (batch_size : Z)
        (as_completed : list (list FileInfo) -> list (list FileInfo))
        (clock : nat -> Z) (path : PurePath.t)
        (name : string) (st : option (Z * Z))
        (entries : list ParallelScanner.Node) (s : Service) :
  0 < batch_size ->
  0 < max_workers ->
  (forall l, Permutation l (as_completed l)) ->
  let direct_items :=
    flat_map (ParallelScanner.direct_item ignore_patterns path) entries in
  let walks :=
    map (fun d => ParallelScanner._scan_recursive_sync
                    ignore_patterns (fst d) (snd d))
        (flat_map (ParallelScanner.subdir_item ignore_patterns path) entries) in
  exists all_results calls s',
    ParallelScanner.scan_directory
      max_workers ignore_patterns batch_size as_completed path
      (Some (ParallelScanner.DirNode name st (Some entries)))
    = ParallelScanner.Returned all_results calls
    /\ ParallelScanner.scan_with_index_service
         max_workers ignore_patterns batch_size as_completed clock path
         (Some (ParallelScanner.DirNode name st (Some entries))) s
       = ParallelScanner.Counted (Z.of_nat (List.length (List.concat walks))) s'
    /\ (exists completed,
           Permutation walks completed
           /\ all_results = direct_items ++ List.concat completed
           /\ List.concat calls = List.concat completed)
    /\ Forall (fun c => c <> [] /\ Z.of_nat (List.length c) <= batch_size) calls
    /\ (forall r, In r (List.concat walks) ->
                  exists row, get_file s' (fi_path r) = Some row)
    /\ (forall q, (forall r, In r (List.concat walks) -> fi_path r <> q) ->
                  get_file s' q = get_file s q)
    /\ watch_paths (db s') = watch_paths (db s).
Proof.
  intros Hsize Hworkers Hperm direct_items walks.
  assert (Hgen : exists calls completed,
             ParallelScanner.scan_directory
               max_workers ignore_patterns batch_size as_completed path
               (Some (ParallelScanner.DirNode name st (Some entries)))
             = ParallelScanner.Returned (direct_items ++ List.concat completed) calls
             /\ Permutation walks completed
             /\ List.concat calls = List.concat completed
             /\ Forall (fun c => c <> [] /\ Z.of_nat (List.length c) <= batch_size)
                       calls).
  { unfold ParallelScanner.scan_directory. fold direct_items.
    subst walks.
    destruct (flat_map (ParallelScanner.subdir_item ignore_patterns path) entries)
      as [|d ds].
    { exists [], []. simpl. rewrite app_nil_r. repeat split; constructor. }
    assert (Hw : (max_workers <=? 0) = false) by (apply Z.leb_gt; lia).
    rewrite Hw.
    match goal with
    | |- context [as_completed ?l] =>
        pose proof (Hperm l) as Hp; set (completed := as_completed l) in *
    end.
    assert (Hempty : Z.of_nat (List.length (@nil FileInfo)) < batch_size)
      by (simpl; lia).
    destruct (@feed_batches batch_size Hsize completed [] Hempty)
      as (calls & rest & H1 & H2 & H3 & H4).
    cbn [app] in H2.
    rewrite H1.
    exists (calls ++ match rest with [] => [] | _ => [rest] end), completed.
    split; [reflexivity|]. split; [exact Hp|]. split.
    - rewrite concat_app, <- H2. f_equal. destruct rest; simpl;
        [reflexivity | now rewrite app_nil_r].
    - apply Forall_app. split.
      + eapply Forall_impl; [|exact H3]. intros c Hc. cbv beta in Hc.
        split; [|lia]. intros ->. simpl in Hc. lia.
      + destruct rest as [|r rest]; constructor; [|constructor].
        split; [discriminate | lia]. }
  destruct Hgen as (calls & completed & Hscan & Hp & Hcalls & Hall).
  exists (direct_items ++ List.concat completed), calls.
  eexists. split; [exact Hscan|].
  assert (Hsame : Permutation (List.concat walks) (List.concat calls)).
  { rewrite Hcalls. now apply Permutation_concat. }
  split.
  { unfold ParallelScanner.scan_with_index_service. rewrite Hscan.
    rewrite count_batches. rewrite (Permutation_length Hsame).
    reflexivity. }
  split; [exists completed; now repeat split|].
  split; [exact Hall|].
  destruct (write_batches_effect clock calls s) as [H1 H2].
  split; [|split].
  - intros r Hr. apply H1. now apply (Permutation_in _ Hsame).
  - intros q Hq. apply H2. intros r Hr. apply Hq.
    now apply (Permutation_in _ (Permutation_sym Hsame)).
  - apply write_batches_roots.
Qed.

(** X15. [scan_with_index_service] writes the contents of the
    subdirectories and nothing else.  With a positive batch size and a
    positive number of workers, the scan of a directory returns the records
    of the direct children followed by those found in the subdirectories,
    but the batches handed to the store hold exactly the latter, in the
    order the workers finished, none empty and none over the batch size.
    The count returned is the number of records found in subdirectories;
    each of their paths has an entry afterwards, and [get_file] answers as
    before for every other path, the direct children included. *)
Theorem scan_indexes_subdirectories_only
        (max_workers : Z) (ignore_patterns : list string) (batch_size : Z)
        (as_completed : list (list FileInfo) -> list (list FileInfo))
        (clock : nat -> Z) (path : PurePath.t)
        (name : string) (st : option (Z * Z))
        (entries : list ParallelScanner.Node) (s : Service) :
  0 < batch_size ->
  0 < max_workers ->
  (forall l, Permutation l (as_completed l)) ->
  let direct_items :=
    flat_map (ParallelScanner.direct_item ignore_patterns path) entries in
  let walks :=
    map (fun d => ParallelScanner._scan_recursive_sync
                    ignore_patterns (fst d) (snd d))
        (flat_map (ParallelScanner.subdir_item ignore_patterns path) entries) in
  exists all_results calls s',
    ParallelScanner.scan_directory
      max_workers ignore_patterns batch_size as_completed path
      (Some (ParallelScanner.DirNode name st (Some entries)))
    = ParallelScanner.Returned all_results calls
    /\ ParallelScanner.scan_with_index_service
         max_workers ignore_patterns batch_size as_completed clock path
         (Some (ParallelScanner.DirNode name st (Some entries))) s
       = ParallelScanner.Counted (Z.of_nat (List.length (List.concat walks))) s'
    /\ (exists completed,
           Permutation walks completed
           /\ all_results = direct_items ++ List.concat completed
           /\ List.concat calls = List.concat completed)
    /\ Forall (fun c => c <> [] /\ Z.of_nat (List.length c) <= batch_size) calls
    /\ (forall r, In r (List.concat walks) ->
                  exists row, get_file s' (fi_path r) = Some row)
    /\ (forall q, (forall r, In r (List.concat walks) -> fi_path r <> q) ->
                  get_file s' q = get_file s q).
Proof.
  intros Hsize Hworkers Hperm direct_items walks.
  destruct (@scan_subdirectories_effect
              max_workers ignore_patterns batch_size as_completed clock path
              name st entries s Hsize Hworkers Hperm)
    as (all_results & calls & s' & H1 & H2 & H3 & H4 & H5 & H6 & _).
  exists all_results, calls, s'. now repeat split.
Qed.

Lemma scan_indexes_subdirectories_only_witness :
  let direct_items :=
    flat_map (ParallelScanner.direct_item [] (PurePath.parse "/r")) scan_entries in
  let walks :=
    map (fun d => ParallelScanner._scan_recursive_sync [] (fst d) (snd d))
        (flat_map (ParallelScanner.subdir_item [] (PurePath.parse "/r"))
                  scan_entries) in
  exists all_results calls s',
    ParallelScanner.scan_directory
      4 [] 1000 (fun l => l) (PurePath.parse "/r")
      (Some (ParallelScanner.DirNode "r" (Some (4096, 1)) (Some scan_entries)))
    = ParallelScanner.Returned all_results calls
    /\ ParallelScanner.scan_with_index_service
         4 [] 1000 (fun l => l) (fun _ => 9) (PurePath.parse "/r")
         (Some (ParallelScanner.DirNode "r" (Some (4096, 1)) (Some scan_entries)))
         (init_db true)
       = ParallelScanner.Counted (Z.of_nat (List.length (List.concat walks))) s'
    /\ (exists completed,
           Permutation walks completed
           /\ all_results = direct_items ++ List.concat completed
           /\ List.concat calls = List.concat completed)
    /\ Forall (fun c => c <> [] /\ Z.of_nat (List.length c) <= 1000) calls
    /\ (forall r, In r (List.concat walks) ->
                  exists row, get_file s' (fi_path r) = Some row)
    /\ (forall q, (forall r, In r (List.concat walks) -> fi_path r <> q) ->
                  get_file s' q = get_file (init_db true) q).
Proof.
  apply scan_indexes_subdirectories_only;
    [lia | lia | intros l; apply Permutation_refl].
Defined.

(** The scan of [scan_tree]: three records are returned, one is counted
    and written, and neither the file nor the directory directly under
    [/r] has an entry afterwards. *)
Example scan_tree_answers :
  ParallelScanner.scan_directory 4 [] 1000 (fun l => l) (PurePath.parse "/r")
                                 (Some scan_tree)
  = ParallelScanner.Returned
      [ mkFileInfo "/r/top.txt" "top.txt" "/r" "file" (Some ".txt") 7 2;
        mkFileInfo "/r/a" "a" "/r" "directory" None 0 3;
        mkFileInfo "/r/a/x.txt" "x.txt" "/r/a" "file" (Some ".txt") 1 4 ]
      [ [mkFileInfo "/r/a/x.txt" "x.txt" "/r/a" "file" (Some ".txt") 1 4] ]
  /\ match ParallelScanner.scan_with_index_service
            4 [] 1000 (fun l => l) (fun _ => 9) (PurePath.parse "/r")
            (Some scan_tree) (init_db true) with
     | ParallelScanner.Counted n s' =>
         n = 1
         /\ map path (file_metadata (db s')) = ["/r/a/x.txt"]
         /\ get_file s' "/r/top.txt" = None
         /\ get_file s' "/r/a" = None
     | _ => False
     end.
Proof. repeat split. Qed.

(* ================================================================== *)
(** * The scanner: the records of a walk *)
(* ================================================================== *)

Section NodeInduction.
Variable P : ParallelScanner.Node -> Prop.
Hypothesis Hfile : forall name st, P (ParallelScanner.FileNode name st).
Hypothesis Hclosed : forall name st, P (ParallelScanner.DirNode name st None).
Hypothesis Hopen :
  forall name st l, Forall P l -> P (ParallelScanner.DirNode name st (Some l)).

Lemma node_induction : forall n, P n.
Proof.
  fix IH 1. intros [name st|name st [l|]].
  - apply Hfile.
  - apply Hopen. induction l as [|x l IHl]; constructor; [apply IH | exact IHl].
  - apply Hclosed.
Qed.

End NodeInduction.

Section WalkRecords.
Variable ignore_patterns : list string.

(** A record of the walk of the listing [entries] of [path]: it is the
    [FileInfo] built from a node of the tree, found some levels below
    [path], and from what [stat] answered for that node; neither the item
    nor any directory between [path] and the item is ignored. *)
Let walked (entries : list ParallelScanner.Node) (path : PurePath.t)
    (r : FileInfo) : Prop :=
  exists (rel : list string) (n : ParallelScanner.Node) (st : Z * Z),
    reaches entries rel n
    /\ ParallelScanner.node_stat n = Some st
    /\ r = ParallelScanner.file_info
             (PurePath.mk (PurePath.root path) (PurePath.tail path ++ rel))
             (ParallelScanner.node_is_dir n) st
    /\ forall k, (0 < k <= List.length rel)%nat ->
                 ParallelScanner._should_ignore
                   ignore_patterns
                   (PurePath.mk (PurePath.root path)
                                (PurePath.tail path ++ firstn k rel))
                 = false.

Lemma reaches_incl (l l' : list ParallelScanner.Node) (rel : list string)
      (n : ParallelScanner.Node) :
  (forall x, In x l -> In x l') -> reaches l rel n -> reaches l' rel n.
Proof.
  intros Hincl H. destruct H as [entries n Hn|entries name st sub rel n Hd Hsub].
  - apply reaches_here. now apply Hincl.
  - eapply reaches_below; [apply Hincl; exact Hd | exact Hsub].
Qed.

Lemma reaches_nonempty (l : list ParallelScanner.Node) (rel : list string)
      (n : ParallelScanner.Node) :
  reaches l rel n -> rel <> [].
Proof. intros H. destruct H; discriminate. Qed.

Lemma walked_incl (l l' : list ParallelScanner.Node) (path : PurePath.t)
      (r : FileInfo) :
  (forall x, In x l -> In x l') -> walked l path r -> walked l' path r.
Proof.
  intros Hincl (rel & n & st & Hreach & Hst & Hr & Hk).
  exists rel, n, st.
  split; [eapply reaches_incl; [exact Hincl | exact Hreach]|]. now repeat split.
Qed.

Lemma walked_child (entries : list ParallelScanner.Node) (path : PurePath.t)
      (n : ParallelScanner.Node) (st : Z * Z) :
  In n entries ->
  ParallelScanner.node_stat n = Some st ->
  ParallelScanner._should_ignore
    ignore_patterns (PurePath.child path (ParallelScanner.node_name n)) = false ->
  walked entries path
         (ParallelScanner.file_info
            (PurePath.child path (ParallelScanner.node_name n))
            (ParallelScanner.node_is_dir n) st).
Proof.
  intros Hn Hst H. exists [ParallelScanner.node_name n], n, st.
  split; [now apply reaches_here|]. split; [exact Hst|].
  split; [reflexivity|]. intros k Hk. simpl in Hk.
  assert (k = 1%nat) by lia. subst k. exact H.
Qed.

Lemma walked_deeper (entries : list ParallelScanner.Node) (path : PurePath.t)
      (name : string) (st : Z * Z) (l : list ParallelScanner.Node)
      (r : FileInfo) :
  In (ParallelScanner.DirNode name (Some st) (Some l)) entries ->
  ParallelScanner._should_ignore ignore_patterns (PurePath.child path name) = false ->
  walked l (PurePath.child path name) r -> walked entries path r.
Proof.
  intros Hd H (rel & n & st' & Hreach & Hst & Hr & Hk).
  exists (name :: rel), n, st'.
  split; [eapply reaches_below; [exact Hd | exact Hreach]|].
  split; [exact Hst|].
  unfold PurePath.child in Hr, Hk. cbn [PurePath.root PurePath.tail] in Hr, Hk.
  split.
  - rewrite Hr. now rewrite <- app_assoc.
  - intros k Hle. destruct k as [|k]; [lia|]. cbn [firstn].
    destruct k as [|k].
    + rewrite firstn_O. exact H.
    + specialize (Hk (S k)). rewrite <- app_assoc in Hk. apply Hk.
      simpl in Hle. lia.
Qed.

Lemma in_one (A : Type) (x : A) : In x [x].
Proof. now left. Qed.

Lemma scan_item_walked (n : ParallelScanner.Node) :
  forall path r, In r (ParallelScanner.scan_item ignore_patterns path n) ->
                 walked [n] path r.
Proof.
  induction n as [name st|name st|name st l IH] using node_induction;
    intros path r Hr; cbn [ParallelScanner.scan_item ParallelScanner.node_name] in Hr;
    destruct (ParallelScanner._should_ignore ignore_patterns
                                             (PurePath.child path name)) eqn:E;
    try contradiction.
  - destruct st as [st|]; [|contradiction].
    destruct Hr as [<-|[]].
    exact (@walked_child [ParallelScanner.FileNode name (Some st)] path
                         (ParallelScanner.FileNode name (Some st)) st
                         (in_one _) eq_refl E).
  - destruct st as [st|]; [|contradiction].
    destruct Hr as [<-|[]].
    exact (@walked_child [ParallelScanner.DirNode name (Some st) None] path
                         (ParallelScanner.DirNode name (Some st) None) st
                         (in_one _) eq_refl E).
  - destruct st as [st|]; [|contradiction].
    destruct Hr as [<-|Hr].
    { exact (@walked_child [ParallelScanner.DirNode name (Some st) (Some l)] path
                           (ParallelScanner.DirNode name (Some st) (Some l)) st
                           (in_one _) eq_refl E). }
    apply in_flat_map in Hr. destruct Hr as [x [Hx Hr]].
    eapply walked_deeper; [apply in_one | exact E |].
    apply (@walked_incl [x] l).
    + intros y [<-|[]]. exact Hx.
    + exact (proj1 (Forall_forall _ _) IH x Hx _ _ Hr).
Qed.

Lemma walk_walked (path : PurePath.t) (l : list ParallelScanner.Node)
      (r : FileInfo) :
  In r (ParallelScanner._scan_recursive_sync ignore_patterns path (Some l)) ->
  walked l path r.
Proof.
  unfold ParallelScanner._scan_recursive_sync.
  intros Hr. apply in_flat_map in Hr. destruct Hr as [x [Hx Hr]].
  apply (@walked_incl [x] l).
  - intros y [<-|[]]. exact Hx.
  - exact (scan_item_walked x _ _ Hr).
Qed.

Lemma direct_item_walked (entries : list ParallelScanner.Node)
      (path : PurePath.t) (n : ParallelScanner.Node) (r : FileInfo) :
  In n entries ->
  In r (ParallelScanner.direct_item ignore_patterns path n) ->
  walked entries path r.
Proof.
  intros Hn. unfold ParallelScanner.direct_item.
  destruct (ParallelScanner._should_ignore _ _) eqn:E; [contradiction|].
  destruct (ParallelScanner.node_stat n) as [st|] eqn:Est; [|contradiction].
  intros [<-|[]]. now apply walked_child.
Qed.

Lemma subdir_item_walked (entries : list ParallelScanner.Node)
      (path : PurePath.t) (n : ParallelScanner.Node)
      (d : PurePath.t * option (list ParallelScanner.Node)) (r : FileInfo) :
  In n entries ->
  In d (ParallelScanner.subdir_item ignore_patterns path n) ->
  In r (ParallelScanner._scan_recursive_sync ignore_patterns (fst d) (snd d)) ->
  walked entries path r.
Proof.
  intros Hn. unfold ParallelScanner.subdir_item.
  destruct (ParallelScanner._should_ignore _ _) eqn:E; [contradiction|].
  destruct n as [|name [st|] sub]; try contradiction.
  intros [<-|[]] Hr. cbn [fst snd] in Hr.
  destruct sub as [l|]; [|contradiction].
  cbn [ParallelScanner.node_name] in E.
  eapply walked_deeper; [exact Hn | exact E |]. now apply walk_walked.
Qed.

Lemma last_after (A : Type) (l l' : list A) (d : A) :
  l' <> [] -> last (l ++ l') d = last l' d.
Proof.
  intros Hne. induction l as [|x l IH]; [reflexivity|].
  simpl. rewrite IH. destruct (l ++ l') eqn:E; [|reflexivity].
  apply app_eq_nil in E. destruct E as [_ E]. contradiction.
Qed.

Lemma scan_directory_walked (max_workers batch_size : Z)
      (as_completed : list (list FileInfo) -> list (list FileInfo))
      (path : PurePath.t) (target : option ParallelScanner.Node)
      (all_results : list FileInfo) (calls : list (list FileInfo)) (r : FileInfo) :
  (forall l, Permutation l (as_completed l)) ->
  ParallelScanner.scan_directory max_workers ignore_patterns batch_size
                                 as_completed path target
  = ParallelScanner.Returned all_results calls ->
  In r all_results ->
  exists name st entries,
    target = Some (ParallelScanner.DirNode name st (Some entries))
    /\ walked entries path r.
Proof.
  intros Hperm. unfold ParallelScanner.scan_directory.
  destruct target as [[|name st [entries|]]|]; try discriminate.
  - intros Hscan Hr. exists name, st, entries. split; [reflexivity|].
    revert Hscan Hr.
    assert (Hdirect : forall r,
               In r (flat_map (ParallelScanner.direct_item ignore_patterns path)
                              entries) -> walked entries path r).
    { intros r' Hr'. apply in_flat_map in Hr'. destruct Hr' as [n [Hn Hr']].
      eapply direct_item_walked; [exact Hn | exact Hr']. }
    destruct (flat_map (ParallelScanner.subdir_item ignore_patterns path) entries)
      as [|d ds] eqn:Esub.
    { intros H Hr. injection H as <- _. now apply Hdirect. }
    destruct (max_workers <=? 0); [discriminate|].
    match goal with
    | |- context [as_completed ?l] =>
        pose proof (Hperm l) as Hp; set (completed := as_completed l) in *
    end.
    destruct (ParallelScanner.feed batch_size completed []) as [[calls' batch]|];
      [|discriminate].
    intros H Hr. injection H as <- _. apply in_app_or in Hr.
    destruct Hr as [Hr|Hr]; [now apply Hdirect|].
    apply (Permutation_in _ (Permutation_concat (Permutation_sym Hp))) in Hr.
    apply in_concat in Hr. destruct Hr as [walk [Hwalk Hr]].
    apply in_map_iff in Hwalk. destruct Hwalk as [d' [<- Hd']].
    rewrite <- Esub in Hd'. apply in_flat_map in Hd'.
    destruct Hd' as [n [Hn Hd']].
    eapply subdir_item_walked; [exact Hn | exact Hd' | exact Hr].
  - intros H Hr. injection H as <- _. contradiction.
Qed.

End WalkRecords.

(** X16. Every record a scan returns is built from a node of the scanned
    tree: the node is found below the scanned directory by following names
    through directories that answered [stat] and could be listed, the
    record is the [FileInfo] of that item with the size and the
    modification time [stat] answered for the node, and its type says
    whether the node is a directory.  The walk prunes what is ignored:
    neither the item nor any directory on the way down to it matches an
    ignore pattern, so nothing inside an ignored directory is ever
    returned.  The record of a directory has size zero and no extension. *)
Theorem scan_returns_unignored_items
        (max_workers : Z) (ignore_patterns : list string) (batch_size : Z)
        (as_completed : list (list FileInfo) -> list (list FileInfo))
        (path : PurePath.t) (target : option ParallelScanner.Node)
        (all_results : list FileInfo) (calls : list (list FileInfo)) (r : FileInfo) :
  (forall l, Permutation l (as_completed l)) ->
  ParallelScanner.scan_directory max_workers ignore_patterns batch_size
                                 as_completed path target
  = ParallelScanner.Returned all_results calls ->
  In r all_results ->
  exists (name : string) (st0 : option (Z * Z))
         (entries : list ParallelScanner.Node)
         (rel : list string) (n : ParallelScanner.Node) (st : Z * Z),
    target = Some (ParallelScanner.DirNode name st0 (Some entries))
    /\ reaches entries rel n
    /\ ParallelScanner.node_stat n = Some st
    /\ rel <> []
    /\ r = ParallelScanner.file_info
             (PurePath.mk (PurePath.root path) (PurePath.tail path ++ rel))
             (ParallelScanner.node_is_dir n) st
    /\ fi_path r = PurePath.to_str
                     (PurePath.mk (PurePath.root path) (PurePath.tail path ++ rel))
    /\ fi_name r = last rel ""
    /\ fi_file_type r
       = (if ParallelScanner.node_is_dir n then "directory" else "file")
    /\ (if ParallelScanner.node_is_dir n
        then fi_size r = 0 /\ fi_extension r = None
        else fi_size r = fst st /\ exists e, fi_extension r = Some e)
    /\ fi_mtime r = snd st
    /\ forall k, (0 < k <= List.length rel)%nat ->
                 ParallelScanner._should_ignore
                   ignore_patterns
                   (PurePath.mk (PurePath.root path)
                                (PurePath.tail path ++ firstn k rel))
                 = false.
Proof.
  intros Hperm Hscan Hr.
  destruct (@scan_directory_walked _ _ _ _ _ _ _ _ _ Hperm Hscan Hr)
    as (name & st0 & entries & Htarget & rel & n & st & Hreach & Hst & -> & Hk).
  exists name, st0, entries, rel, n, st.
  pose proof (@reaches_nonempty _ _ _ Hreach) as Hne.
  split; [exact Htarget|]. split; [exact Hreach|]. split; [exact Hst|].
  split; [exact Hne|]. split; [reflexivity|]. split; [reflexivity|].
  split.
  { cbn. unfold PurePath.name. cbn [PurePath.tail]. now apply last_after. }
  split; [reflexivity|]. split.
  { destruct (ParallelScanner.node_is_dir n); cbn; split; try reflexivity.
    now eexists. }
  split; [reflexivity | exact Hk].
Qed.

Lemma scan_returns_unignored_items_witness :
  exists (name : string) (st0 : option (Z * Z))
         (entries : list ParallelScanner.Node)
         (rel : list string) (n : ParallelScanner.Node) (st : Z * Z),
    Some scan_tree = Some (ParallelScanner.DirNode name st0 (Some entries))
    /\ reaches entries rel n
    /\ ParallelScanner.node_stat n = Some st
    /\ rel <> []
    /\ scan_tree_record
       = ParallelScanner.file_info
           (PurePath.mk (PurePath.root (PurePath.parse "/r"))
                        (PurePath.tail (PurePath.parse "/r") ++ rel))
           (ParallelScanner.node_is_dir n) st
    /\ fi_path scan_tree_record
       = PurePath.to_str
           (PurePath.mk (PurePath.root (PurePath.parse "/r"))
                        (PurePath.tail (PurePath.parse "/r") ++ rel))
    /\ fi_name scan_tree_record = last rel ""
    /\ fi_file_type scan_tree_record
       = (if ParallelScanner.node_is_dir n then "directory" else "file")
    /\ (if ParallelScanner.node_is_dir n
        then fi_size scan_tree_record = 0 /\ fi_extension scan_tree_record = None
        else fi_size scan_tree_record = fst st
             /\ exists e, fi_extension scan_tree_record = Some e)
    /\ fi_mtime scan_tree_record = snd st
    /\ forall k, (0 < k <= List.length rel)%nat ->
                 ParallelScanner._should_ignore
                   [".git"]
                   (PurePath.mk (PurePath.root (PurePath.parse "/r"))
                                (PurePath.tail (PurePath.parse "/r") ++ firstn k rel))
                 = false.
Proof.
  apply (@scan_returns_unignored_items
           4 [".git"] 1000 (fun l => l) (PurePath.parse "/r") (Some scan_tree)
           [ mkFileInfo "/r/top.txt" "top.txt" "/r" "file" (Some ".txt") 7 2;
             mkFileInfo "/r/a" "a" "/r" "directory" None 0 3;
             scan_tree_record ]
           [ [scan_tree_record] ]).
  - intros l. apply Permutation_refl.
  - reflexivity.
  - simpl. tauto.
Defined.

(* ================================================================== *)
(** * The background tasks of the admin endpoints *)
(* ================================================================== *)

Section BackgroundTasks.

Lemma map_if_other (p : string) (g : WatchRow -> WatchRow) (ws : list WatchRow) :
  (forall w, In w ws -> w_path w <> p) ->
  map (fun w => if String.eqb (w_path w) p then g w else w) ws = ws.
Proof.
  intros H. induction ws as [|w ws IH]; [reflexivity|]. simpl.
  rewrite IH by (intros w' Hw'; apply H; now right).
  destruct (String.eqb (w_path w) p) eqn:E; [|reflexivity].
  apply String.eqb_eq in E. destruct (H w); [now left | exact E].
Qed.

Lemma remove_path_roots (p : string) (s : Service) :
  watch_paths (db (remove_path p s))
  = filter (fun w => negb (String.eqb (w_path w) p)) (watch_paths (db s)).
Proof. reflexivity. Qed.

Lemma filtered_roots_other (p : string) (ws : list WatchRow) (w : WatchRow) :
  In w (filter (fun w => negb (String.eqb (w_path w) p)) ws) -> w_path w <> p.
Proof.
  intros H Heq. apply filter_In in H. destruct H as [_ H].
  now rewrite Heq, String.eqb_refl in H.
Qed.

Lemma existsb_path_absent (p : string) (ws : list WatchRow) :
  (forall w, In w ws -> w_path w <> p) ->
  existsb (fun w => String.eqb (w_path w) p) ws = false.
Proof.
  intros H. destruct (existsb _ ws) eqn:E; [|reflexivity].
  apply existsb_path_found in E. destruct E as [w [Hw Hp]]. now destruct (H w).
Qed.

(** The first three calls of [_rebuild_path]. *)
Lemma rebuild_path_prefix (p : string) (now : Z) (s : Service) :
  let rest := filter (fun w => negb (String.eqb (w_path w) p)) (watch_paths (db s)) in
  let s3 := update_path_status p "scanning" now
              (register_path p now (remove_path p s)) in
  watch_paths (db s3)
  = rest ++ [mkWatchRow (next_rowid (map w_id rest)) p 1 0 0 "scanning" None
                        (Some now) None]
  /\ file_metadata (db s3) = file_metadata (db (remove_path p s))
  /\ ignore_patterns (db s3) = ignore_patterns (db s).
Proof.
  intros rest s3. subst s3. unfold update_path_status, register_path.
  rewrite remove_path_roots. fold rest.
  rewrite existsb_path_absent by (intros w; apply filtered_roots_other).
  cbn [db with_db with_watch_paths watch_paths file_metadata ignore_patterns].
  split; [|split; reflexivity].
  rewrite map_app, map_if_other by (intros w; apply filtered_roots_other).
  cbn [map w_path]. now rewrite String.eqb_refl.
Qed.

Lemma update_path_status_roots (p status : string) (now : Z) (s : Service) :
  watch_paths (db (update_path_status p status now s))
  = map (fun w =>
           if String.eqb (w_path w) p then
             mkWatchRow (w_id w) (w_path w) (w_enabled w) (w_total_files w)
                        (w_indexed_files w) status (w_last_full_scan w)
                        (Some now) (w_error_message w)
           else w)
        (watch_paths (db s)).
Proof. reflexivity. Qed.

Lemma set_error_message_roots (p message : string) (s : Service) :
  watch_paths (db (Admin.set_error_message p message s))
  = map (fun w =>
           if String.eqb (w_path w) p then
             mkWatchRow (w_id w) (w_path w) (w_enabled w) (w_total_files w)
                        (w_indexed_files w) (w_status w) (w_last_full_scan w)
                        (w_last_updated w) (Some message)
           else w)
        (watch_paths (db s))
  /\ file_metadata (db (Admin.set_error_message p message s)) = file_metadata (db s).
Proof. split; reflexivity. Qed.

Lemma scan_and_finish_missing (env : Admin.ScanEnv) (patterns : list string)
      (p : string) (s : Service) :
  Admin.on_disk env p = None ->
  Admin.scan_and_finish env patterns p s
  = Some (Admin.set_error_message
            p (Text.first 500 ("Directory not found: "
                               ++ PurePath.to_str (PurePath.parse p)))
            (update_path_status p "error" (Admin.now2 env) s)).
Proof.
  intros H. unfold Admin.scan_and_finish.
  unfold ParallelScanner.scan_with_index_service, ParallelScanner.scan_directory.
  now rewrite H.
Qed.

End BackgroundTasks.

(** X17. A rebuild of a watch root whose directory is not there ends in
    an error, after the damage is done: the entries under the root have
    been deleted, and the root is left as one fresh row, at the end of the
    table, in status [error] with the message of the scanner, cut to 500
    characters; the other roots are untouched. *)
Theorem rebuild_path_of_missing_directory
        (env : Admin.ScanEnv) (p : string) (ignore_patterns : option string)
        (s : Service) :
  Admin.on_disk env p = None ->
  let rest := filter (fun w => negb (String.eqb (w_path w) p)) (watch_paths (db s)) in
  exists s',
    Admin._rebuild_path env p ignore_patterns s = Some s'
    /\ watch_paths (db s')
       = rest ++ [mkWatchRow (next_rowid (map w_id rest)) p 1 0 0 "error" None
                             (Some (Admin.now2 env))
                             (Some (Text.first 500
                                      ("Directory not found: "
                                       ++ PurePath.to_str (PurePath.parse p))))]
    /\ file_metadata (db s') = file_metadata (db (remove_path p s))
    /\ (forall r, In r (file_metadata (db s')) ->
                  Text.starts_with p (path r) = false).
Proof.
  intros Hdisk rest.
  destruct (rebuild_path_prefix p (Admin.now1 env) s) as (Hroots & Hentries & _).
  fold rest in Hroots.
  unfold Admin._rebuild_path. cbv zeta.
  rewrite scan_and_finish_missing by exact Hdisk.
  eexists. split; [reflexivity|].
  destruct (set_error_message_roots
              p (Text.first 500 ("Directory not found: "
                                 ++ PurePath.to_str (PurePath.parse p)))
              (update_path_status p "error" (Admin.now2 env)
                 (update_path_status p "scanning" (Admin.now1 env)
                    (register_path p (Admin.now1 env) (remove_path p s)))))
    as [E1 E2].
  rewrite E1, E2, update_path_status_roots, update_path_status_entries.
  rewrite Hroots, Hentries. split; [|split; [reflexivity|]].
  - assert (Hrest : forall g,
               map (fun w => if String.eqb (w_path w) p then g w else w) rest
               = rest).
    { intros g. apply map_if_other. intros w. apply filtered_roots_other. }
    rewrite !map_app, !Hrest.
    cbn [map w_path]. rewrite String.eqb_refl. cbn [w_path].
    now rewrite String.eqb_refl.
  - intros r Hr. now apply (proj1 (remove_path_deletes_subtree p s)).
Qed.

Lemma rebuild_path_of_missing_directory_witness :
  let rest := filter (fun w => negb (String.eqb (w_path w) "/data/a_c"))
                     (watch_paths (db sibling_scenario)) in
  exists s',
    Admin._rebuild_path empty_disk_env "/data/a_c" None sibling_scenario = Some s'
    /\ watch_paths (db s')
       = rest ++ [mkWatchRow (next_rowid (map w_id rest)) "/data/a_c" 1 0 0 "error"
                             None (Some (Admin.now2 empty_disk_env))
                             (Some (Text.first 500
                                      ("Directory not found: "
                                       ++ PurePath.to_str
                                            (PurePath.parse "/data/a_c"))))]
    /\ file_metadata (db s') = file_metadata (db (remove_path "/data/a_c" sibling_scenario))
    /\ (forall r, In r (file_metadata (db s')) ->
                  Text.starts_with "/data/a_c" (path r) = false).
Proof.
  apply rebuild_path_of_missing_directory. reflexivity.
Defined.

Section ScanTask.

Lemma get_file_same_entries (s s' : Service) (q : string) :
  file_metadata (db s') = file_metadata (db s) -> get_file s' q = get_file s q.
Proof. intros H. unfold get_file. now rewrite H. Qed.

Lemma finish_roots (p : string) (count now2 now3 : Z) (s : Service) :
  let s' := rebuild_bigram_index
              (rebuild_trigram_index
                 (update_path_status p "watching" now3
                    (update_path_stats p (Some count) (Some count) now2 s))) in
  watch_paths (db s')
  = map (fun w =>
           if String.eqb (w_path w) p then
             mkWatchRow (w_id w) (w_path w) (w_enabled w) count count "watching"
                        (w_last_full_scan w) (Some now3) (w_error_message w)
           else w)
        (watch_paths (db s))
  /\ file_metadata (db s') = file_metadata (db s)
  /\ file_name_bigrams (db s') = flat_map bigram_rows_of (file_metadata (db s')).
Proof.
  intros s'. subst s'.
  match goal with
  | |- context [rebuild_trigram_index ?t] =>
      destruct (rebuild_trigram_index_tables t) as (E1 & _ & E3 & _)
  end.
  unfold rebuild_bigram_index at 1 2 3 4.
  cbn [db with_db watch_paths file_metadata file_name_bigrams].
  rewrite E1, E3. split; [|split; reflexivity].
  rewrite update_path_status_roots. unfold update_path_stats.
  cbn [db with_db with_watch_paths watch_paths]. rewrite map_map.
  apply map_ext. intros w. destruct (String.eqb (w_path w) p) eqn:E.
  - cbn [w_path]. now rewrite E.
  - now rewrite E.
Qed.

End ScanTask.

(** X18. When the background scan of [POST /paths] succeeds (a directory
    that can be listed, a positive batch size and a positive number of
    workers), the entries written are those found in the subdirectories of
    the path: each of their paths has an entry afterwards and [get_file]
    answers as before for every other path.  The root's two counters are
    both set to the number of those records, so the direct children of the
    root are not counted, its status becomes [watching], and the bigram
    table is rebuilt from the entries.  The other roots are as before. *)
Theorem scan_path_counts_subdirectories
        (env : Admin.ScanEnv) (p : string) (s : Service)
        (name : string) (st : option (Z * Z))
        (entries : list ParallelScanner.Node) :
  0 < Settings.batch_size (Admin.settings env) ->
  0 < Settings.scan_workers (Admin.settings env) ->
  (forall l, Permutation l (Admin.as_completed env l)) ->
  Admin.on_disk env p = Some (ParallelScanner.DirNode name st (Some entries)) ->
  let patterns :=
    Text.unique (Settings.ignore_patterns_list (Admin.settings env)
                 ++ get_ignore_patterns s) in
  let walks :=
    map (fun d => ParallelScanner._scan_recursive_sync patterns (fst d) (snd d))
        (flat_map (ParallelScanner.subdir_item patterns (PurePath.parse p))
                  entries) in
  let count := Z.of_nat (List.length (List.concat walks)) in
  exists s',
    Admin._scan_path env p s = Some s'
    /\ watch_paths (db s')
       = map (fun w =>
                if String.eqb (w_path w) p then
                  mkWatchRow (w_id w) (w_path w) (w_enabled w) count count
                             "watching" (w_last_full_scan w)
                             (Some (Admin.now3 env)) (w_error_message w)
                else w)
             (watch_paths (db s))
    /\ file_name_bigrams (db s') = flat_map bigram_rows_of (file_metadata (db s'))
    /\ (forall r, In r (List.concat walks) ->
                  exists row, get_file s' (fi_path r) = Some row)
    /\ (forall q, (forall r, In r (List.concat walks) -> fi_path r <> q) ->
                  get_file s' q = get_file s q).
Proof.
  intros Hsize Hworkers Hperm Hdisk patterns walks count.
  destruct (@scan_subdirectories_effect
              (Settings.scan_workers (Admin.settings env)) patterns
              (Settings.batch_size (Admin.settings env)) (Admin.as_completed env)
              (Admin.clock env) (PurePath.parse p) name st entries s
              Hsize Hworkers Hperm)
    as (all_results & calls & s1 & _ & Hcount & _ & _ & Hpresent & Hframe & Hroots).
  fold walks in Hcount, Hpresent, Hframe. fold count in Hcount.
  unfold Admin._scan_path, Admin.scan_and_finish. fold patterns.
  rewrite Hdisk, Hcount.
  destruct (finish_roots p count (Admin.now2 env) (Admin.now3 env) s1)
    as (F1 & F2 & F3).
  eexists. split; [reflexivity|].
  split; [now rewrite F1, Hroots|]. split; [exact F3|].
  split.
  - intros r Hr. rewrite (get_file_same_entries _ _ _ F2). now apply Hpresent.
  - intros q Hq. rewrite (get_file_same_entries _ _ _ F2). now apply Hframe.
Qed.

Lemma scan_path_counts_subdirectories_witness :
  let patterns :=
    Text.unique (Settings.ignore_patterns_list (Admin.settings scan_tree_env)
                 ++ get_ignore_patterns covered_app_service) in
  let walks :=
    map (fun d => ParallelScanner._scan_recursive_sync patterns (fst d) (snd d))
        (flat_map (ParallelScanner.subdir_item patterns (PurePath.parse "/r"))
                  scan_entries) in
  let count := Z.of_nat (List.length (List.concat walks)) in
  exists s',
    Admin._scan_path scan_tree_env "/r" covered_app_service = Some s'
    /\ watch_paths (db s')
       = map (fun w =>
                if String.eqb (w_path w) "/r" then
                  mkWatchRow (w_id w) (w_path w) (w_enabled w) count count
                             "watching" (w_last_full_scan w)
                             (Some (Admin.now3 scan_tree_env)) (w_error_message w)
                else w)
             (watch_paths (db covered_app_service))
    /\ file_name_bigrams (db s') = flat_map bigram_rows_of (file_metadata (db s'))
    /\ (forall r, In r (List.concat walks) ->
                  exists row, get_file s' (fi_path r) = Some row)
    /\ (forall q, (forall r, In r (List.concat walks) -> fi_path r <> q) ->
                  get_file s' q = get_file covered_app_service q).
Proof.
  apply (@scan_path_counts_subdirectories scan_tree_env "/r" covered_app_service
                                          "r" (Some (4096, 1)) scan_entries).
  - reflexivity.
  - reflexivity.
  - intros l. apply Permutation_refl.
  - reflexivity.
Defined.

(* ================================================================== *)
(** * The search endpoint *)
(* ================================================================== *)

Section Endpoint.

Lemma search_page_length
      (s : Service) (query : string) (path_filter type_filter : option string)
      (max_results depth offset : Z) (sort : string) (ascending : bool)
      (rows : list FileRow) :
  fst (search s query path_filter type_filter
              max_results depth offset sort ascending) = Some rows ->
  Z.of_nat (List.length rows) <= Z.max 0 max_results.
Proof.
  intros H. rewrite search_unfold in H. cbn [fst] in H.
  destruct (execute _ _) as [fetched|]; [|discriminate].
  cbn [option_map] in H. injection H as <-.
  apply collect_length. simpl. lia.
Qed.

Lemma result_count_valid (settings : Settings.t) (p : SearchRouter.Query) :
  1 <= SearchRouter.q_count p -> 0 <= SearchRouter.q_c p ->
  SearchRouter.result_count settings p
  = Z.min (if SearchRouter.q_c p =? 0 then SearchRouter.q_count p
           else SearchRouter.q_c p)
          (Settings.max_count settings).
Proof.
  intros Hcount Hc. unfold SearchRouter.result_count.
  destruct (SearchRouter.q_c p =? 0) eqn:E.
  - assert (E' : (SearchRouter.q_count p =? 0) = false) by (apply Z.eqb_neq; lia).
    rewrite E'. lia.
  - rewrite E. lia.
Qed.

End Endpoint.

(** X19. [GET /] refuses a request exactly when its [offset], [o] or [c]
    is negative or its [count] is below one.  Every other request runs one
    search on a fresh service object with the first non-empty of [search],
    [s] and [q] as the query, [offset] or else [o] as the offset, and as the
    page size the smaller of [max_count] and the requested size, which is
    [c] unless [c] is zero and [count] then; the setting [default_count]
    plays no part.  A statement that fails surfaces as an error.
    [totalResults] is the number of items in the answer, never more than
    the page size, and the items are the rows of the page in order. *)
Theorem search_endpoint_answers
        (settings : Settings.t) (d : Db) (p : SearchRouter.Query) :
  let requested :=
    if SearchRouter.q_c p =? 0 then SearchRouter.q_count p
    else SearchRouter.q_c p in
  let page_size := Z.min requested (Settings.max_count settings) in
  let query :=
    SearchRouter.or_else (SearchRouter.q_search p)
      (SearchRouter.or_else (SearchRouter.q_s p)
         (SearchRouter.or_else (SearchRouter.q_q p) "")) in
  let page :=
    fst (search (mkService d None) query (SearchRouter.q_path p)
                (if negb (String.eqb (SearchRouter.q_file_type p) "all")
                 then Some (SearchRouter.q_file_type p) else None)
                page_size (SearchRouter.q_depth p)
                (if SearchRouter.q_offset p >? 0 then SearchRouter.q_offset p
                 else SearchRouter.q_o p)
                (SearchRouter.sort_column (SearchRouter.q_sort p))
                (SearchRouter.q_ascending p =? 1)) in
  (SearchRouter.search settings d p = SearchRouter.RequestValidationError
   <-> SearchRouter.q_offset p < 0 \/ SearchRouter.q_o p < 0
       \/ SearchRouter.q_count p < 1 \/ SearchRouter.q_c p < 0)
  /\ (0 <= SearchRouter.q_offset p /\ 0 <= SearchRouter.q_o p
      /\ 1 <= SearchRouter.q_count p /\ 0 <= SearchRouter.q_c p ->
      match page with
      | None =>
          SearchRouter.search settings d p = SearchRouter.OperationalError
      | Some rows =>
          Z.of_nat (List.length rows) <= Z.max 0 page_size
          /\ SearchRouter.search settings d p
             = if (SearchRouter.q_json p =? 1) || (SearchRouter.q_j p =? 1)
               then SearchRouter.JSONResponse
                      (List.length rows)
                      (map (SearchRouter.result_item p) rows)
               else SearchRouter.HTMLResponse query (List.length rows) rows
      end).
Proof.
  intros requested page_size query page.
  assert (Hvalid :
            0 <= SearchRouter.q_offset p /\ 0 <= SearchRouter.q_o p
            /\ 1 <= SearchRouter.q_count p /\ 0 <= SearchRouter.q_c p ->
            match page with
            | None =>
                SearchRouter.search settings d p = SearchRouter.OperationalError
            | Some rows =>
                Z.of_nat (List.length rows) <= Z.max 0 page_size
                /\ SearchRouter.search settings d p
                   = if (SearchRouter.q_json p =? 1) || (SearchRouter.q_j p =? 1)
                     then SearchRouter.JSONResponse
                            (List.length rows)
                            (map (SearchRouter.result_item p) rows)
                     else SearchRouter.HTMLResponse query (List.length rows) rows
            end).
  { intros (H1 & H2 & H3 & H4). unfold SearchRouter.search.
    assert (E1 : (SearchRouter.q_offset p <? 0) = false) by (apply Z.ltb_ge; lia).
    assert (E2 : (SearchRouter.q_o p <? 0) = false) by (apply Z.ltb_ge; lia).
    assert (E3 : (SearchRouter.q_count p <? 1) = false) by (apply Z.ltb_ge; lia).
    assert (E4 : (SearchRouter.q_c p <? 0) = false) by (apply Z.ltb_ge; lia).
    rewrite E1, E2, E3, E4. cbn [orb].
    rewrite (result_count_valid settings p) by lia.
    fold requested. fold page_size. fold query. fold page.
    destruct page as [rows|] eqn:Epage; [|reflexivity].
    split; [|reflexivity].
    subst page. exact (search_page_length _ _ _ _ _ _ _ _ _ Epage). }
  split; [|exact Hvalid].
  split.
  - intros Hresp.
    destruct (Z.lt_ge_cases (SearchRouter.q_offset p) 0) as [H1|H1]; [tauto|].
    destruct (Z.lt_ge_cases (SearchRouter.q_o p) 0) as [H2|H2]; [tauto|].
    destruct (Z.lt_ge_cases (SearchRouter.q_count p) 1) as [H3|H3]; [tauto|].
    destruct (Z.lt_ge_cases (SearchRouter.q_c p) 0) as [H4|H4]; [tauto|].
    specialize (Hvalid (conj H1 (conj H2 (conj H3 H4)))).
    destruct page as [rows|].
    + destruct Hvalid as [_ Hv]. rewrite Hresp in Hv.
      destruct ((SearchRouter.q_json p =? 1) || (SearchRouter.q_j p =? 1));
        discriminate.
    + rewrite Hresp in Hvalid. discriminate.
  - intros Hbad. unfold SearchRouter.search.
    assert (E : (SearchRouter.q_offset p <? 0) || (SearchRouter.q_o p <? 0)
                || (SearchRouter.q_count p <? 1) || (SearchRouter.q_c p <? 0)
                = true).
    { rewrite !orb_true_iff, !Z.ltb_lt. tauto. }
    now rewrite E.
Qed.

(* ================================================================== *)
(** * The watcher: pending events *)
(* ================================================================== *)

Section PendingEvents.

Lemma dict_set_get_same (key : string) (value : IndexEventHandler.Pending)
      (d : list (string * IndexEventHandler.Pending)) :
  IndexEventHandler.dict_get key (IndexEventHandler.dict_set key value d)
  = Some value.
Proof.
  unfold IndexEventHandler.dict_get.
  induction d as [|[k v] d IH]; simpl.
  - now rewrite String.eqb_refl.
  - destruct (String.eqb k key) eqn:E; simpl; rewrite E; [reflexivity | exact IH].
Qed.

Lemma dict_set_get_other (key q : string) (value : IndexEventHandler.Pending)
      (d : list (string * IndexEventHandler.Pending)) :
  q <> key ->
  IndexEventHandler.dict_get q (IndexEventHandler.dict_set key value d)
  = IndexEventHandler.dict_get q d.
Proof.
  intros Hne. unfold IndexEventHandler.dict_get.
  assert (Hkey : String.eqb key q = false).
  { apply String.eqb_neq. intros ->. now apply Hne. }
  induction d as [|[k v] d IH]; simpl.
  - now rewrite Hkey.
  - destruct (String.eqb k key) eqn:E; simpl.
    + apply String.eqb_eq in E. subst k. now rewrite Hkey.
    + destruct (String.eqb k q); [reflexivity | exact IH].
Qed.

Lemma dict_set_keys (key : string) (value : IndexEventHandler.Pending)
      (d : list (string * IndexEventHandler.Pending)) :
  map fst (IndexEventHandler.dict_set key value d)
  = if existsb (String.eqb key) (map fst d) then map fst d
    else map fst d ++ [key].
Proof.
  induction d as [|[k v] d IH]; simpl; [reflexivity|].
  rewrite (String.eqb_sym key k).
  destruct (String.eqb k key) eqn:E; simpl.
  - apply String.eqb_eq in E. now subst k.
  - rewrite IH. now destruct (existsb (String.eqb key) (map fst d)).
Qed.

Lemma dict_set_keys_unique (key : string) (value : IndexEventHandler.Pending)
      (d : list (string * IndexEventHandler.Pending)) :
  NoDup (map fst d) -> NoDup (map fst (IndexEventHandler.dict_set key value d)).
Proof.
  intros H. rewrite dict_set_keys.
  destruct (existsb (String.eqb key) (map fst d)) eqn:E; [exact H|].
  apply NoDup_snoc; [exact H|]. intros Hin.
  assert (Hex : existsb (String.eqb key) (map fst d) = true).
  { apply existsb_exists. exists key. split; [exact Hin | apply String.eqb_refl]. }
  congruence.
Qed.

End PendingEvents.

(** X20. The watcher keeps one pending event per path: queueing an event
    for a path that is not ignored makes it the pending event of that path,
    replacing an earlier one in place, leaves the pending events of all
    other paths as they were, keeps the queued paths distinct and arms the
    timer; an event for an ignored path is dropped without a trace. *)
Theorem queue_event_keeps_latest
        (s : Service) (now : Z) (event_type p : string) (is_directory : bool)
        (h : IndexEventHandler.t) :
  let h' := IndexEventHandler._queue_event s now event_type p is_directory h in
  (is_ignored s p = true -> h' = h)
  /\ (is_ignored s p = false ->
      IndexEventHandler.dict_get p (IndexEventHandler._pending_events h')
      = Some (event_type, is_directory, now)
      /\ (forall q, q <> p ->
                    IndexEventHandler.dict_get
                      q (IndexEventHandler._pending_events h')
                    = IndexEventHandler.dict_get
                        q (IndexEventHandler._pending_events h))
      /\ map fst (IndexEventHandler._pending_events h')
         = (if existsb (String.eqb p)
                       (map fst (IndexEventHandler._pending_events h))
            then map fst (IndexEventHandler._pending_events h)
            else map fst (IndexEventHandler._pending_events h) ++ [p])
      /\ (NoDup (map fst (IndexEventHandler._pending_events h)) ->
          NoDup (map fst (IndexEventHandler._pending_events h')))
      /\ IndexEventHandler._timer h' = true).
Proof.
  intros h'. subst h'.
  unfold IndexEventHandler._queue_event, IndexEventHandler._should_ignore.
  split; intros H; rewrite H; [reflexivity|].
  cbn [IndexEventHandler._pending_events IndexEventHandler._timer].
  split; [apply dict_set_get_same|].
  split; [intros q Hq; now apply dict_set_get_other|].
  split; [apply dict_set_keys|].
  split; [apply dict_set_keys_unique | reflexivity].
Qed.

Section Flush.
Variable disk : IndexEventHandler.Disk.

Lemma apply_event_other (now : Z) (event_type p q : string) (is_directory : bool)
      (s : Service) :
  q <> p ->
  get_file (IndexEventHandler._apply_event disk now event_type p is_directory s) q
  = get_file s q.
Proof.
  intros Hne. unfold IndexEventHandler._apply_event.
  destruct (String.eqb event_type "deleted").
  { now apply get_file_remove_file_other. }
  destruct (String.eqb event_type "created" || String.eqb event_type "modified");
    [|reflexivity].
  destruct (IndexEventHandler.path_exists disk p); [|reflexivity]. cbn [negb].
  destruct (IndexEventHandler.path_stat disk p); [|reflexivity].
  now apply get_file_add_file_other.
Qed.

Lemma apply_event_at (now t : Z) (event_type p : string) (is_directory : bool)
      (s : Service) :
  event_outcome disk p (event_type, is_directory, t) (get_file s p)
    (get_file (IndexEventHandler._apply_event disk now event_type p is_directory s)
              p).
Proof.
  unfold event_outcome, IndexEventHandler._apply_event.
  destruct (String.eqb event_type "deleted").
  { apply get_file_remove_file_same. }
  destruct (String.eqb event_type "created" || String.eqb event_type "modified");
    [|reflexivity].
  destruct (IndexEventHandler.path_exists disk p); [|reflexivity]. cbn [negb].
  destruct (IndexEventHandler.path_stat disk p) as [st|]; [|reflexivity].
  eexists. split.
  - match goal with
    | |- get_file (add_file ?f _ _) _ = _ =>
        exact (get_file_add_file_same s f now)
    end.
  - now repeat split.
Qed.

Lemma apply_events_frame (clock : nat -> Z)
      (events : list (string * IndexEventHandler.Pending)) (q : string) :
  forall k s,
    ~ In q (map fst events) ->
    get_file (IndexEventHandler.apply_events disk clock k events s) q
    = get_file s q.
Proof.
  induction events as [|[p [[event_type is_directory] t]] events IH];
    intros k s Hq; [reflexivity|].
  cbn [IndexEventHandler.apply_events]. rewrite IH.
  - apply apply_event_other. intros ->. apply Hq. now left.
  - intros Hin. apply Hq. now right.
Qed.

Lemma apply_events_at (clock : nat -> Z)
      (events : list (string * IndexEventHandler.Pending)) :
  forall k s p event,
    NoDup (map fst events) -> In (p, event) events ->
    event_outcome disk p event (get_file s p)
      (get_file (IndexEventHandler.apply_events disk clock k events s) p).
Proof.
  induction events as [|[p0 [[event_type is_directory] t]] events IH];
    intros k s p event Hnd Hin; [contradiction|].
  cbn [map fst] in Hnd. inversion Hnd as [|? ? Hfresh Hrest]; subst.
  cbn [IndexEventHandler.apply_events]. destruct Hin as [Heq|Hin].
  - injection Heq as -> <-. rewrite apply_events_frame by exact Hfresh.
    apply apply_event_at.
  - assert (Hne : p <> p0).
    { intros ->. apply Hfresh. now apply (in_map fst) in Hin. }
    rewrite <- (apply_event_other (clock k) event_type is_directory s Hne).
    now apply IH.
Qed.

End Flush.



(** The rename of [/r/a] in [depth_scenario]: after the flush the old
    path has no entry and the new one has; the entries below the old path
    are still filed under it. *)
Example rename_answers :
  map fst (IndexEventHandler._pending_events rename_handler) = ["/r/a"; "/r/b"]
  /\ map path
       (file_metadata
          (db (snd (IndexEventHandler.flush rename_disk (fun _ => 9)
                                            rename_handler depth_scenario))))
     = ["/r/a/b"; "/r/a/b/c"; "/r/b"].
Proof. split; reflexivity. Qed.

(** X22. A move between two different paths that are not ignored turns,
    on an empty queue, into a deletion of the source and a creation of the
    destination, and the flush that follows touches those two paths only: the entry of the source is gone, the destination has the entry
    its creation dictates, and [get_file] answers as before for every other
    path, the paths below the source included. *)
Theorem moved_event_rekeys_one_entry
        (disk : IndexEventHandler.Disk) (clock : nat -> Z) (s : Service)
        (now1 now2 : Z) (event : IndexEventHandler.FileSystemEvent)
        (dest : string) :
  IndexEventHandler.dest_path event = Some dest ->
  IndexEventHandler.src_path event <> dest ->
  is_ignored s (IndexEventHandler.src_path event) = false ->
  is_ignored s dest = false ->
  let h := IndexEventHandler.on_moved s now1 now2 event IndexEventHandler.new in
  let s' := snd (IndexEventHandler.flush disk clock h s) in
  IndexEventHandler._pending_events h
  = [ (IndexEventHandler.src_path event,
       ("deleted", IndexEventHandler.is_directory event, now1));
      (dest, ("created", IndexEventHandler.is_directory event, now2)) ]
  /\ get_file s' (IndexEventHandler.src_path event) = None
  /\ event_outcome disk dest
                   ("created", IndexEventHandler.is_directory event, now2)
                   (get_file s dest) (get_file s' dest)
  /\ (forall q, q <> IndexEventHandler.src_path event -> q <> dest ->
                get_file s' q = get_file s q).
Proof.
  intros Hdest Hne Hsrc Hdst h s'.
  assert (Hpending :
            IndexEventHandler._pending_events h
            = [ (IndexEventHandler.src_path event,
                 ("deleted", IndexEventHandler.is_directory event, now1));
                (dest, ("created", IndexEventHandler.is_directory event, now2)) ]).
  { subst h. unfold IndexEventHandler.on_moved, IndexEventHandler._queue_event,
      IndexEventHandler._should_ignore.
    rewrite Hdest, Hsrc. cbn [IndexEventHandler._pending_events
                                IndexEventHandler.new
                                IndexEventHandler.dict_set].
    rewrite Hdst. cbn [IndexEventHandler._pending_events
                         IndexEventHandler.dict_set].
    apply String.eqb_neq in Hne. now rewrite Hne. }
  assert (Hnd : NoDup (map fst (IndexEventHandler._pending_events h))).
  { rewrite Hpending. cbn [map fst]. constructor.
    - intros [H|[]]. now apply Hne.
    - constructor; [intros []|constructor]. }
  assert (Hs' : s' = IndexEventHandler.apply_events
                       disk clock 0 (IndexEventHandler._pending_events h) s)
    by reflexivity.
  split; [exact Hpending|]. rewrite Hs'. split; [|split].
  - pose proof (@apply_events_at disk clock (IndexEventHandler._pending_events h)
                                 0%nat s (IndexEventHandler.src_path event)
                                 ("deleted", IndexEventHandler.is_directory event,
                                  now1) Hnd) as H.
    rewrite Hpending in H at 1. specialize (H (or_introl eq_refl)).
    exact H.
  - apply apply_events_at; [exact Hnd|]. rewrite Hpending. right. now left.
  - intros q Hq1 Hq2. apply apply_events_frame. rewrite Hpending.
    cbn [map fst]. intros [H|[H|[]]]; [now apply Hq1 | now apply Hq2].
Qed.

Lemma moved_event_rekeys_one_entry_witness :
  let h := IndexEventHandler.on_moved depth_scenario 1 2 rename_event
                                      IndexEventHandler.new in
  let s' := snd (IndexEventHandler.flush rename_disk (fun _ => 9) h
                                         depth_scenario) in
  IndexEventHandler._pending_events h
  = [ (IndexEventHandler.src_path rename_event,
       ("deleted", IndexEventHandler.is_directory rename_event, 1));
      ("/r/b", ("created", IndexEventHandler.is_directory rename_event, 2)) ]
  /\ get_file s' (IndexEventHandler.src_path rename_event) = None
  /\ event_outcome rename_disk "/r/b"
                   ("created", IndexEventHandler.is_directory rename_event, 2)
                   (get_file depth_scenario "/r/b") (get_file s' "/r/b")
  /\ (forall q, q <> IndexEventHandler.src_path rename_event -> q <> "/r/b" ->
                get_file s' q = get_file depth_scenario q).
Proof.
  apply (@moved_event_rekeys_one_entry rename_disk (fun _ => 9) depth_scenario
                                       1 2 rename_event "/r/b").
  - reflexivity.
  - discriminate.
  - reflexivity.
  - reflexivity.
Defined.

(* ================================================================== *)
(** * Entries: updates and batches *)
(* ================================================================== *)

Section UpdateEntry.

Lemma update_rows_find (p q : string) (kwargs : list assignment)
      (rows : list FileRow) :
  forall index,
    find (fun r => String.eqb (path r) q) (fst (update_rows p kwargs rows index))
    = if String.eqb q p
      then option_map (fun r => fold_left assign kwargs r)
                      (find (fun r => String.eqb (path r) q) rows)
      else find (fun r => String.eqb (path r) q) rows.
Proof.
  induction rows as [|r rows IH]; intros index.
  - simpl. now destruct (String.eqb q p).
  - cbn [update_rows]. destruct (String.eqb (path r) p) eqn:E.
    + specialize (IH (after_update r (fold_left assign kwargs r) index)).
      destruct (update_rows p kwargs rows
                            (after_update r (fold_left assign kwargs r) index))
        as [rest' index'].
      cbn [fst find] in *.
      rewrite (proj2 (fold_assign_keys kwargs r)).
      apply String.eqb_eq in E. rewrite E.
      rewrite (String.eqb_sym p q).
      destruct (String.eqb q p) eqn:E'; [reflexivity | exact IH].
    + specialize (IH index).
      destruct (update_rows p kwargs rows index) as [rest' index'].
      cbn [fst find] in *.
      destruct (String.eqb (path r) q) eqn:E'; [|exact IH].
      apply String.eqb_eq in E'. subst q. now rewrite E.
Qed.

End UpdateEntry.

(** X23. For keyword arguments that name columns other than [id] (the
    columns [IndexService.assignment] covers; [path] cannot be passed as a
    keyword), [update_file] changes the entry under its path and no other:
    afterwards [get_file] answers for that path with the old entry in which
    the given columns are replaced, in the order given, for every other
    path as before, and a path that has no entry still has none.  The paths
    of the entries stay as they are. *)
Theorem update_file_reads_back
        (s : Service) (p q : string) (kwargs : list assignment) :
  get_file (update_file p kwargs s) q
  = (if String.eqb q p
     then option_map (fun r => fold_left assign kwargs r) (get_file s q)
     else get_file s q)
  /\ map path (file_metadata (db (update_file p kwargs s)))
     = map path (file_metadata (db s)).
Proof.
  unfold get_file, update_file. destruct kwargs as [|a kwargs].
  { split; [|reflexivity].
    destruct (String.eqb q p); [|reflexivity].
    now destruct (find _ (file_metadata (db s))). }
  pose proof (update_rows_find p q (a :: kwargs) (file_metadata (db s))
                               (file_name_index (db s))) as Hfind.
  destruct (update_rows_keys p (a :: kwargs) (file_metadata (db s))
                             (file_name_index (db s))) as [K1 K2].
  destruct (update_rows p (a :: kwargs) (file_metadata (db s))
                        (file_name_index (db s))) as [rows index].
  cbn [db with_db file_metadata fst] in *. now split.
Qed.

Section BatchOrder.

Lemma batch_as_fold (now : Z) (files : list FileInfo) :
  forall s, batch_add_files files now s
            = fold_left (fun s f => add_file f now s) files s.
Proof.
  assert (H : forall s, with_db s (fold_left (fun d f => insert_or_replace f now d)
                                             files (db s))
                        = fold_left (fun s f => add_file f now s) files s).
  { induction files as [|f files IH]; intros s; [apply with_db_same|].
    simpl. rewrite <- IH. reflexivity. }
  intros s. destruct files as [|f files]; [reflexivity|]. apply H.
Qed.

End BatchOrder.

(** X24. [batch_add_files] is [add_file] repeated in the order of the
    batch with one time stamp, so when a batch names a path more than once
    its last record wins: afterwards [get_file] answers for a path with the
    entry of the last record of the batch under that path, stamped with the
    time of the batch, and with the old entry if the batch has no record
    under it. *)
Theorem batch_add_files_last_wins
        (files : list FileInfo) (now : Z) (s : Service) (p : string) :
  batch_add_files files now s = fold_left (fun s f => add_file f now s) files s
  /\ match find (fun f => String.eqb (fi_path f) p) (rev files) with
     | Some f =>
         exists i,
           get_file (batch_add_files files now s) p
           = Some (mkFileRow i (fi_path f) (fi_name f) (fi_parent_path f)
                             (fi_file_type f) (fi_extension f) (fi_size f)
                             (fi_mtime f) now)
     | None => get_file (batch_add_files files now s) p = get_file s p
     end.
Proof.
  split; [apply batch_as_fold|]. rewrite batch_as_fold.
  induction files as [|f files IH] using rev_ind; [reflexivity|].
  rewrite rev_app_distr, fold_left_app. cbn [rev app fold_left find].
  destruct (String.eqb (fi_path f) p) eqn:E.
  - apply String.eqb_eq in E. subst p. eexists. apply get_file_add_file_same.
  - rewrite get_file_add_file_other; [exact IH|].
    intros ->. now rewrite String.eqb_refl in E.
Qed.

(* ================================================================== *)
(** * Removing and re-adding a watch root *)
(* ================================================================== *)

Section RemoveRoot.

Lemma filter_twice (A : Type) (P : A -> bool) (l : list A) :
  filter P (filter P l) = filter P l.
Proof.
  induction l as [|x l IH]; [reflexivity|]. simpl.
  destruct (P x) eqn:E; simpl; [rewrite E, IH|]; auto.
Qed.

Lemma filter_of_rejected (A : Type) (P : A -> bool) (l : list A) :
  filter P (filter (fun x => negb (P x)) l) = [].
Proof.
  induction l as [|x l IH]; [reflexivity|]. simpl.
  destruct (P x) eqn:E; simpl; [|rewrite E]; auto.
Qed.

Lemma remove_path_twice (p : string) (s : Service) :
  remove_path p (remove_path p s) = remove_path p s.
Proof.
  unfold remove_path. cbn [db with_db].
  set (cond := fun r => Sqlite.like (p ++ "%") (path r)
                        || Sqlite.like (p ++ "%") (parent_path r)).
  assert (H : delete_where cond
                {| file_metadata := file_metadata (delete_where cond (db s));
                   file_name_index := file_name_index (delete_where cond (db s));
                   file_name_bigrams := file_name_bigrams (delete_where cond (db s));
                   watch_paths :=
                     filter (fun w => negb (String.eqb (w_path w) p))
                            (watch_paths (delete_where cond (db s)));
                   ignore_patterns := ignore_patterns (delete_where cond (db s)) |}
              = {| file_metadata := file_metadata (delete_where cond (db s));
                   file_name_index := file_name_index (delete_where cond (db s));
                   file_name_bigrams := file_name_bigrams (delete_where cond (db s));
                   watch_paths :=
                     filter (fun w => negb (String.eqb (w_path w) p))
                            (watch_paths (delete_where cond (db s)));
                   ignore_patterns := ignore_patterns (delete_where cond (db s)) |}).
  { unfold delete_where. cbn [file_metadata file_name_index file_name_bigrams
                               watch_paths ignore_patterns].
    rewrite filter_twice, filter_of_rejected. reflexivity. }
  rewrite H. cbn [file_metadata file_name_index file_name_bigrams
                    watch_paths ignore_patterns].
  now rewrite filter_twice.
Qed.

End RemoveRoot.

(** X25. [remove_path] leaves nothing at or below the path: afterwards no
    entry has a path or a parent path that starts with it, so [get_file]
    finds nothing for any path that starts with it, and the path is no
    watch root; the entries and roots that remain were there before, and
    every other root is kept.  Removing a second time changes nothing
    more. *)
Theorem remove_path_clears_root (s : Service) (p : string) :
  (forall r, In r (file_metadata (db (remove_path p s))) ->
             In r (file_metadata (db s))
             /\ Text.starts_with p (path r) = false
             /\ Text.starts_with p (parent_path r) = false)
  /\ (forall q, Text.starts_with p q = true -> get_file (remove_path p s) q = None)
  /\ (forall w, In w (watch_paths (db (remove_path p s)))
                <-> In w (watch_paths (db s)) /\ w_path w <> p)
  /\ remove_path p (remove_path p s) = remove_path p s.
Proof.
  destruct (remove_path_deletes_subtree p s) as [Hentries Hroots].
  split; [exact Hentries|]. split; [|split; [|apply remove_path_twice]].
  - intros q Hq. unfold get_file.
    destruct (find _ _) as [r|] eqn:E; [|reflexivity].
    apply find_some in E. destruct E as [Hr Heq].
    apply String.eqb_eq in Heq. destruct (Hentries r Hr) as (_ & H & _).
    congruence.
  - intros w. split; [apply Hroots|]. intros [Hw Hne].
    rewrite remove_path_roots. apply filter_In. split; [exact Hw|].
    destruct (String.eqb (w_path w) p) eqn:E; [|reflexivity].
    apply String.eqb_eq in E. contradiction.
Qed.

(** X26. [POST /paths] is safe to repeat: once a path has been accepted,
    a second request for it is answered [already_indexed] and neither the
    store nor the queue of background tasks changes. *)
Theorem add_path_twice
        (fs : Admin.FileSystem) (now1 now2 now3 now4 : Z) (app : Admin.App)
        (p : string) :
  roots_enabled (Admin.index_service app) ->
  Admin.fs_exists fs p = true ->
  Admin.fs_is_dir fs p = true ->
  let app1 := snd (Admin.add_path fs now1 now2 app p) in
  Admin.add_path fs now3 now4 app1 p = (Admin.Json p "already_indexed", app1).
Proof.
  intros Hen Hex Hdir app1.
  assert (Hidx : is_path_indexed (Admin.fs_resolve fs) (Admin.index_service app1) p
                 = true).
  { subst app1. unfold Admin.add_path. rewrite Hex, Hdir. cbn [negb].
    destruct (is_path_indexed (Admin.fs_resolve fs) (Admin.index_service app) p)
      eqn:E; [exact E|].
    cbn [snd Admin.index_service].
    destruct (register_path_registers p now1 (Admin.index_service app))
      as [w [Hw Hp]].
    set (s2 := update_path_status p "scanning" now2
                 (register_path p now1 (Admin.index_service app))).
    assert (Hen2 : roots_enabled s2).
    { apply update_path_status_roots_enabled.
      now apply register_path_roots_enabled. }
    assert (Hrow : In (mkWatchRow (w_id w) (w_path w) (w_enabled w)
                                  (w_total_files w) (w_indexed_files w) "scanning"
                                  (w_last_full_scan w) (Some now2)
                                  (w_error_message w))
                      (watch_paths (db s2))).
    { apply update_path_status_rows. exists w. split; [exact Hw|].
      now rewrite Hp, String.eqb_refl. }
    eapply covered_is_indexed; [exact Hrow| |].
    - exact (proj1 (Forall_forall _ _) Hen2 _ Hrow).
    - left. cbn [w_path]. now rewrite Hp. }
  unfold Admin.add_path. now rewrite Hex, Hdir, Hidx.
Qed.

Lemma add_path_twice_witness :
  let app1 := snd (Admin.add_path plain_fs 2 3 covered_app "/q") in
  Admin.add_path plain_fs 4 5 app1 "/q" = (Admin.Json "/q" "already_indexed", app1).
Proof.
  apply add_path_twice; [|reflexivity|reflexivity].
  apply register_path_roots_enabled, init_db_roots_enabled.
Defined.

(* ================================================================== *)
(** * The ignore patterns of the settings *)
(* ================================================================== *)

Section SettingsPatterns.

Lemma has_char_append (c : ascii) (a b : string) :
  Text.has_char c (a ++ b) = Text.has_char c a || Text.has_char c b.
Proof.
  induction a as [|d a IH]; [reflexivity|]. simpl. rewrite IH. apply orb_assoc.
Qed.

Lemma split_go_pieces (sep : ascii) (s : string) :
  forall cur x, Text.has_char sep cur = false ->
                In x (Text.split_go sep cur s) -> Text.has_char sep x = false.
Proof.
  induction s as [|a s IH]; intros cur x Hcur Hx; simpl in Hx.
  - destruct Hx as [<-|[]]. exact Hcur.
  - destruct (Ascii.eqb a sep) eqn:E.
    + destruct Hx as [<-|Hx]; [exact Hcur|]. now apply (IH EmptyString).
    + apply (IH (cur ++ String a EmptyString)%string); [|exact Hx].
      rewrite has_char_append, Hcur. simpl.
      rewrite Ascii.eqb_sym, E. reflexivity.
Qed.

Lemma lstrip_keeps_absent (c : ascii) (s : string) :
  Text.has_char c s = false -> Text.has_char c (Text.lstrip s) = false.
Proof.
  induction s as [|d s IH]; intros H; [reflexivity|]. simpl.
  destruct (Text.is_space d); [|exact H].
  simpl in H. apply orb_false_elim in H. now apply IH.
Qed.

Lemma rstrip_keeps_absent (c : ascii) (s : string) :
  Text.has_char c s = false -> Text.has_char c (Text.rstrip s) = false.
Proof.
  induction s as [|d s IH]; intros H; [reflexivity|].
  simpl in H. apply orb_false_elim in H. destruct H as [Hd Hs].
  specialize (IH Hs). simpl. destruct (Text.rstrip s) as [|b t].
  - destruct (Text.is_space d); simpl; [reflexivity|]. now rewrite Hd.
  - change (Text.has_char c (String d (String b t)))
      with (Ascii.eqb c d || Text.has_char c (String b t)).
    now rewrite Hd, IH.
Qed.

Lemma rstrip_twice (s : string) : Text.rstrip (Text.rstrip s) = Text.rstrip s.
Proof.
  induction s as [|d s IH]; [reflexivity|]. simpl.
  destruct (Text.rstrip s) as [|b t] eqn:E.
  - destruct (Text.is_space d) eqn:Ed; [reflexivity|]. simpl. now rewrite Ed.
  - change (Text.rstrip (String d (String b t)))
      with (match Text.rstrip (String b t) with
            | EmptyString =>
                if Text.is_space d then EmptyString else String d EmptyString
            | String _ _ as t' => String d t'
            end).
    now rewrite IH.
Qed.

Lemma lstrip_head (s : string) :
  Text.lstrip s = EmptyString
  \/ exists c r, Text.lstrip s = String c r /\ Text.is_space c = false.
Proof.
  induction s as [|d s IH]; [now left|]. simpl.
  destruct (Text.is_space d) eqn:E; [exact IH|]. right. now exists d, s.
Qed.

Lemma rstrip_head (c : ascii) (r : string) :
  Text.is_space c = false -> exists r', Text.rstrip (String c r) = String c r'.
Proof.
  intros H. simpl. destruct (Text.rstrip r); [rewrite H|]; eauto.
Qed.

Lemma strip_twice (s : string) : Text.strip (Text.strip s) = Text.strip s.
Proof.
  unfold Text.strip. destruct (lstrip_head s) as [E|[c [r [E Hc]]]]; rewrite E.
  - reflexivity.
  - destruct (@rstrip_head c r Hc) as [r' E']. rewrite E'.
    simpl Text.lstrip. rewrite Hc. rewrite <- E'. apply rstrip_twice.
Qed.

End SettingsPatterns.

(** X27. For a setting of ASCII text, the ignore patterns read from the
    settings are clean: each one is a comma-separated piece of the setting
    with the white space around it removed, none is empty, none contains a
    comma, and none starts or ends with white space, so that stripping it
    again changes nothing. *)
Theorem ignore_patterns_list_clean (settings : Settings.t) (x : string) :
  Text.is_ascii (Settings.ignore_patterns settings) = true ->
  In x (Settings.ignore_patterns_list settings) ->
  x <> ""
  /\ Text.has_char "," x = false
  /\ Text.strip x = x
  /\ exists piece,
      In piece (Text.split "," (Settings.ignore_patterns settings))
      /\ x = Text.strip piece.
Proof.
  unfold Settings.ignore_patterns_list. intros _ H.
  apply in_map_iff in H. destruct H as [piece [<- H]].
  apply filter_In in H. destruct H as [Hpiece Hne].
  split.
  { intros E. rewrite E in Hne. discriminate. }
  split.
  { unfold Text.strip. apply rstrip_keeps_absent, lstrip_keeps_absent.
    apply (split_go_pieces "," (Settings.ignore_patterns settings) EmptyString);
      [reflexivity | exact Hpiece]. }
  split; [apply strip_twice|]. now exists piece.
Qed.

Lemma ignore_patterns_list_clean_witness :
  ".git" <> ""
  /\ Text.has_char "," ".git" = false
  /\ Text.strip ".git" = ".git"
  /\ exists piece,
      In piece (Text.split "," (Settings.ignore_patterns Settings.defaults))
      /\ ".git" = Text.strip piece.
Proof.
  apply (@ignore_patterns_list_clean Settings.defaults ".git").
  - reflexivity.
  - simpl. now left.
Defined.
